(** * Device connectivity layer of the weigh-bridge server

    A shallow embedding of [services/serialService.js] (the weight feed:
    connection life cycle, simulation, stability filter, WebSocket fan-out)
    and of the network-printer paths of [services/printerService.js].

    Conventions.
    - A JavaScript number is an exact rational ([Q]); every sample the
      program handles is a decimal numeral, and on integer samples below
      2^53 the double-precision results coincide with the exact ones.
    - The object [this] of the singleton [SerialService] is the record
      [SerialService]; the Node.js runtime around it (serial ports that were
      constructed, callbacks that are still owed, the WebSocket peers) is the
      record [World].  One JavaScript event-loop turn is one [step].
    - Promises are values of [outcome]; [await] is the bind of the monad
      [M] of the printer module. *)

From Stdlib Require Import String Ascii.
From Stdlib Require Import ZArith QArith Qabs Qround Bool List Lia Lqa DecimalString.
Import ListNotations.

Local Open Scope Z_scope.

(** ** Numbers *)

(** [a < b] on JavaScript numbers. *)
Definition Qltb (a b : Q) : bool := negb (Qle_bool b a).

(** [Math.round]: the nearest integer, halves go up. *)
Definition Math_round (x : Q) : Z := Qfloor (x + (1 # 2))%Q.

(** [arr.reduce((a, b) => a + b, 0)]. *)
Definition reduce_sum (arr : list Q) : Q := fold_left Qplus arr 0%Q.

(** ** The service object *)

Definition client := nat.
Definition port_id := nat.

Inductive message : Type :=
| WeightMsg (weight : Q) (stable : bool) (stableWeight : Z)
            (simulation : bool) (timestamp : Z)
| StatusMsg (connected : bool) (simulation : bool).

Record SerialService : Type := mkService {
  port            : option port_id;
  parser          : option port_id;
  currentWeight   : Q;
  isConnected     : bool;
  isSimulation    : bool;
  portPath        : option string;
  baudRate        : Z;
  wsClients       : list client;
  weightBuffer    : list Q;
  stableWeight    : Z;
  simInterval     : option Z;   (* [Some base]: timer armed, closure holds [base] *)
  reconnectTimer  : bool;       (* [true]: the 5 s interval handle is held *)
  reconnectActive : bool
}.

(** The state left by [constructor()]. *)
Definition constructed : SerialService :=
  mkService None None 0%Q false false None 9600 [] [] 0 None false false.

Definition set_port v s :=
  mkService v (parser s) (currentWeight s) (isConnected s) (isSimulation s)
    (portPath s) (baudRate s) (wsClients s) (weightBuffer s) (stableWeight s)
    (simInterval s) (reconnectTimer s) (reconnectActive s).
Definition set_parser v s :=
  mkService (port s) v (currentWeight s) (isConnected s) (isSimulation s)
    (portPath s) (baudRate s) (wsClients s) (weightBuffer s) (stableWeight s)
    (simInterval s) (reconnectTimer s) (reconnectActive s).
Definition set_currentWeight v s :=
  mkService (port s) (parser s) v (isConnected s) (isSimulation s)
    (portPath s) (baudRate s) (wsClients s) (weightBuffer s) (stableWeight s)
    (simInterval s) (reconnectTimer s) (reconnectActive s).
Definition set_isConnected v s :=
  mkService (port s) (parser s) (currentWeight s) v (isSimulation s)
    (portPath s) (baudRate s) (wsClients s) (weightBuffer s) (stableWeight s)
    (simInterval s) (reconnectTimer s) (reconnectActive s).
Definition set_isSimulation v s :=
  mkService (port s) (parser s) (currentWeight s) (isConnected s) v
    (portPath s) (baudRate s) (wsClients s) (weightBuffer s) (stableWeight s)
    (simInterval s) (reconnectTimer s) (reconnectActive s).
Definition set_portPath v s :=
  mkService (port s) (parser s) (currentWeight s) (isConnected s) (isSimulation s)
    v (baudRate s) (wsClients s) (weightBuffer s) (stableWeight s)
    (simInterval s) (reconnectTimer s) (reconnectActive s).
Definition set_baudRate v s :=
  mkService (port s) (parser s) (currentWeight s) (isConnected s) (isSimulation s)
    (portPath s) v (wsClients s) (weightBuffer s) (stableWeight s)
    (simInterval s) (reconnectTimer s) (reconnectActive s).
Definition set_wsClients v s :=
  mkService (port s) (parser s) (currentWeight s) (isConnected s) (isSimulation s)
    (portPath s) (baudRate s) v (weightBuffer s) (stableWeight s)
    (simInterval s) (reconnectTimer s) (reconnectActive s).
Definition set_weightBuffer v s :=
  mkService (port s) (parser s) (currentWeight s) (isConnected s) (isSimulation s)
    (portPath s) (baudRate s) (wsClients s) v (stableWeight s)
    (simInterval s) (reconnectTimer s) (reconnectActive s).
Definition set_stableWeight v s :=
  mkService (port s) (parser s) (currentWeight s) (isConnected s) (isSimulation s)
    (portPath s) (baudRate s) (wsClients s) (weightBuffer s) v
    (simInterval s) (reconnectTimer s) (reconnectActive s).
Definition set_simInterval v s :=
  mkService (port s) (parser s) (currentWeight s) (isConnected s) (isSimulation s)
    (portPath s) (baudRate s) (wsClients s) (weightBuffer s) (stableWeight s)
    v (reconnectTimer s) (reconnectActive s).
Definition set_reconnectTimer v s :=
  mkService (port s) (parser s) (currentWeight s) (isConnected s) (isSimulation s)
    (portPath s) (baudRate s) (wsClients s) (weightBuffer s) (stableWeight s)
    (simInterval s) v (reconnectActive s).
Definition set_reconnectActive v s :=
  mkService (port s) (parser s) (currentWeight s) (isConnected s) (isSimulation s)
    (portPath s) (baudRate s) (wsClients s) (weightBuffer s) (stableWeight s)
    (simInterval s) (reconnectTimer s) v.

(** ** The runtime around the service *)

Record World : Type := mkWorld {
  this     : SerialService;
  made     : nat;                  (* [SerialPort] objects constructed so far *)
  opening  : list port_id;         (* [sp.open(cb)] called, [cb] still owed *)
  attached : list port_id;         (* open ports carrying the three listeners *)
  closing  : list port_id;         (* [close()] requested, 'close' still owed *)
  polls    : nat;                  (* poll ticks parked at [await _isPortAvailable] *)
  ws_open  : list client;          (* sockets whose [readyState] is 1 *)
  sent     : list (client * message)   (* every [ws.send], oldest first *)
}.

Definition with_this s w :=
  mkWorld s (made w) (opening w) (attached w) (closing w) (polls w) (ws_open w) (sent w).
Definition with_sent v w :=
  mkWorld (this w) (made w) (opening w) (attached w) (closing w) (polls w) (ws_open w) v.
Definition with_opening v w :=
  mkWorld (this w) (made w) v (attached w) (closing w) (polls w) (ws_open w) (sent w).
Definition with_attached v w :=
  mkWorld (this w) (made w) (opening w) v (closing w) (polls w) (ws_open w) (sent w).
Definition with_closing v w :=
  mkWorld (this w) (made w) (opening w) (attached w) v (polls w) (ws_open w) (sent w).
Definition with_made v w :=
  mkWorld (this w) v (opening w) (attached w) (closing w) (polls w) (ws_open w) (sent w).
Definition with_polls v w :=
  mkWorld (this w) (made w) (opening w) (attached w) (closing w) v (ws_open w) (sent w).
Definition with_ws_open v w :=
  mkWorld (this w) (made w) (opening w) (attached w) (closing w) (polls w) v (sent w).

(** A method that touches nothing but [this]. *)
Definition on_this (f : SerialService -> SerialService) (w : World) : World :=
  with_this (f (this w)) w.

Definition boot : World := mkWorld constructed 0 [] [] [] 0 [] [].

Definition mem (x : nat) (l : list nat) : bool := existsb (Nat.eqb x) l.
Definition remove_id (x : nat) (l : list nat) : list nat :=
  filter (fun y => negb (Nat.eqb x y)) l.

(** ** Broadcasting *)

(** [this.wsClients.forEach(c => { if (c.readyState === 1) c.send(msg); })] *)
Definition fan_out (msg : message) (w : World) : World :=
  with_sent
    (sent w ++ map (fun c => (c, msg))
                   (filter (fun c => mem c (ws_open w)) (wsClients (this w))))
    w.

Definition broadcastWeight (data : message) (w : World) : World := fan_out data w.

Definition broadcastStatus (w : World) : World :=
  fan_out (StatusMsg (isConnected (this w)) (isSimulation (this w))) w.

(** ** Stability filter: [updateWeight] *)

(** [weightBuffer.push(weight); if (weightBuffer.length > 5) weightBuffer.shift()] *)
Definition push_shift (buf : list Q) (weight : Q) : list Q :=
  let pushed := buf ++ [weight] in
  if (5 <? length pushed)%nat then tl pushed else pushed.

Definition average (buf : list Q) : Q :=
  (reduce_sum buf / inject_Z (Z.of_nat (length buf)))%Q.

(** [weightBuffer.every(w => Math.abs(w - avg) < 5)] *)
Definition every_near (avg : Q) (buf : list Q) : bool :=
  forallb (fun x => Qltb (Qabs (x - avg)) 5) buf.

(** The body of [updateWeight] up to the object handed to [broadcastWeight]. *)
Definition ingest (now : Z) (weight : Q) (s : SerialService)
  : SerialService * message :=
  let s1 := set_currentWeight weight s in
  let s2 := set_weightBuffer (push_shift (weightBuffer s1) weight) s1 in
  let avg := average (weightBuffer s2) in
  let isStable := every_near avg (weightBuffer s2) in
  let s3 := if isStable && (length (weightBuffer s2) =? 5)%nat
            then set_stableWeight (Math_round avg) s2 else s2 in
  (s3, WeightMsg (currentWeight s3) isStable (stableWeight s3) (isSimulation s3) now).

Definition updateWeight (now : Z) (weight : Q) (w : World) : World :=
  let '(s, data) := ingest now weight (this w) in
  broadcastWeight data (with_this s w).


(** ** Line parser: [parseWeight] *)

Definition is_digit (c : ascii) : bool :=
  let n := nat_of_ascii c in ((48 <=? n) && (n <=? 57))%nat.

Definition is_sign (c : ascii) : bool := Ascii.eqb c "+"%char || Ascii.eqb c "-"%char.

(** White space removed by [String.prototype.trim] on an ASCII line. *)
Definition is_space (c : ascii) : bool :=
  let n := nat_of_ascii c in ((9 <=? n) && (n <=? 13) || (n =? 32))%nat.

Fixpoint trim_start (s : string) : string :=
  match s with
  | String c r => if is_space c then trim_start r else s
  | EmptyString => EmptyString
  end.

Fixpoint trim_end (s : string) : string :=
  match s with
  | EmptyString => EmptyString
  | String c r =>
      match trim_end r with
      | EmptyString => if is_space c then EmptyString else String c EmptyString
      | r' => String c r'
      end
  end.

Definition trim (s : string) : string := trim_end (trim_start s).

(** The longest run of digits at the head of [s], and what follows it. *)
Fixpoint span_digits (s : string) : string * string :=
  match s with
  | String c r =>
      if is_digit c
      then let (d, rest) := span_digits r in (String c d, rest)
      else (EmptyString, s)
  | EmptyString => (EmptyString, EmptyString)
  end.

Definition starts_with_digit (s : string) : bool :=
  match s with String c _ => is_digit c | EmptyString => false end.

(** What the capture group (one or more digits, an optional dot, any
    further digits) takes when matching starts at a digit:
    every quantifier is greedy and nothing after the group can fail. *)
Definition group1 (s : string) : string :=
  let (whole, r) := span_digits s in
  match r with
  | String "."%char r' => let (frac, _) := span_digits r' in (whole ++ "." ++ frac)%string
  | _ => whole
  end.

(** [cleaned.match(re)] for the pattern [re] = an optional [+] or [-], then
    the capture group of [group1]: the leftmost match; the result is
    [match[1]], the text of the parenthesised group.  The sign is matched by
    the pattern but stands outside the group. *)
Fixpoint regex_match1 (s : string) : option string :=
  match s with
  | EmptyString => None
  | String c r =>
      if is_digit c then Some (group1 s)
      else if is_sign c && starts_with_digit r then Some (group1 r)
      else regex_match1 r
  end.

Fixpoint digits_value (acc : Z) (s : string) : Z :=
  match s with
  | String c r => digits_value (10 * acc + (Z.of_nat (nat_of_ascii c) - 48)) r
  | EmptyString => acc
  end.

(** [parseFloat] on numerals of the shape [digits] or [digits.digits], the
    only shape [group1] produces; [None] is NaN. *)
Definition parseFloat (s : string) : option Q :=
  let (whole, r) := span_digits s in
  match whole with
  | EmptyString => None
  | _ =>
      match r with
      | String "."%char r' =>
          let (frac, _) := span_digits r' in
          Some (inject_Z (digits_value 0 whole)
                + inject_Z (digits_value 0 frac)
                  / inject_Z (10 ^ Z.of_nat (String.length frac)))%Q
      | _ => Some (inject_Z (digits_value 0 whole))
      end
  end.

Definition parseWeight (now : Z) (data : string) (w : World) : World :=
  let cleaned := trim data in
  match regex_match1 cleaned with
  | Some m1 =>
      match parseFloat m1 with
      | Some x =>
          if Qle_bool 0 x && Qltb x 200000 then updateWeight now x w else w
      | None => w
      end
  | None => w
  end.

(** ** Timers *)

Definition _stopSimulation (s : SerialService) : SerialService :=
  match simInterval s with
  | Some _ => set_simInterval None s
  | None => s
  end.

Definition _startSimulationIfNeeded (s : SerialService) : SerialService :=
  match simInterval s with
  | Some _ => s
  | None => set_simInterval (Some 39170) s
  end.

Definition _stopReconnectLoop (s : SerialService) : SerialService :=
  if reconnectTimer s then set_reconnectTimer false s else s.

Definition _startReconnectLoop (s : SerialService) : SerialService :=
  if reconnectTimer s then s else set_reconnectTimer true s.

(** One firing of the simulation interval; [random] is [Math.random()]. *)
Definition sim_tick (now : Z) (random : Q) (base : Z) (w : World) : World :=
  if isConnected (this w) then on_this _stopSimulation w
  else
    let noise := Qfloor (random * 20 - 10)%Q in
    let base' := Z.max 0 (base + noise) in
    updateWeight now (inject_Z base') (on_this (set_simInterval (Some base')) w).

(** ** Connection manager *)

(** The fall-back taken when no port can be had. *)
Definition fall_back (s : SerialService) : SerialService :=
  _startReconnectLoop
    (_startSimulationIfNeeded (set_isSimulation true (set_isConnected false s))).

(** [_tryConnect]; [ctor_ok = false] is the run in which
    [new SerialPort(...)] or [sp.pipe(...)] throws. *)
Definition _tryConnect (ctor_ok : bool) (w : World) : World :=
  if reconnectActive (this w) then w
  else
    let w1 := on_this (set_reconnectActive true) w in
    if ctor_ok then
      let sp := made w1 in
      with_opening (opening w1 ++ [sp]) (with_made (S sp) w1)
    else
      on_this (fun s => fall_back (set_reconnectActive false s)) w1.

(** The callback handed to [sp.open]. *)
Definition open_callback (sp : port_id) (err : option string) (w : World) : World :=
  let w1 := on_this (set_reconnectActive false)
                    (with_opening (remove_id sp (opening w)) w) in
  match err with
  | Some _ => on_this fall_back w1
  | None =>
      let w2 := on_this (fun s =>
                  set_isSimulation false
                    (set_isConnected true
                       (set_parser (Some sp) (set_port (Some sp) s)))) w1 in
      let w3 := on_this (fun s => _stopReconnectLoop (_stopSimulation s)) w2 in
      let w4 := broadcastStatus w3 in
      with_attached (attached w4 ++ [sp]) w4
  end.

Definition _onPortLost (w : World) : World :=
  let w1 := on_this (fun s =>
              set_parser None
                (set_port None (set_isSimulation true (set_isConnected false s)))) w in
  let w2 := broadcastStatus w1 in
  on_this (fun s => _startReconnectLoop (_startSimulationIfNeeded s)) w2.

Definition initialize (path : string) (baud : Z) (ctor_ok : bool) (w : World) : World :=
  _tryConnect ctor_ok
    (on_this (fun s => set_baudRate baud (set_portPath (Some path) s)) w).

Definition reconnect (path : string) (baud : Z) (ctor_ok : bool) (w : World) : World :=
  let w1 := on_this (fun s => set_baudRate baud (set_portPath (Some path) s)) w in
  let w2 := match port (this w1) with
            | Some p =>
                if mem p (attached w1) && negb (mem p (closing w1))
                then with_closing (closing w1 ++ [p]) w1
                else w1
            | None => w1
            end in
  let w3 := on_this (fun s => set_parser None (set_port None s)) w2 in
  let w4 := on_this (fun s => _stopReconnectLoop (_stopSimulation s)) w3 in
  _tryConnect ctor_ok w4.

(** One firing of the reconnect interval, up to its [await]. *)
Definition poll_tick (w : World) : World :=
  if isConnected (this w) then on_this _stopReconnectLoop w
  else with_polls (S (polls w)) w.

(** The rest of that firing, once [_isPortAvailable] has answered. *)
Definition poll_resume (available ctor_ok : bool) (w : World) : World :=
  let w1 := with_polls (pred (polls w)) w in
  if available then _tryConnect ctor_ok w1 else w1.

(** ** Subscribers *)

Definition addWSClient (now : Z) (ws : client) (w : World) : World :=
  let s := this w in
  let clients := if mem ws (wsClients s) then wsClients s else wsClients s ++ [ws] in
  let w1 := on_this (set_wsClients clients) w in
  with_sent
    (sent w1 ++ [(ws, WeightMsg (currentWeight s) false (stableWeight s)
                                (isSimulation s) now)])
    w1.

(** The ['close'] listener installed by [addWSClient]. *)
Definition ws_closed (ws : client) (w : World) : World :=
  on_this (fun s => set_wsClients (remove_id ws (wsClients s)) s)
          (with_ws_open (remove_id ws (ws_open w)) w).

(** ** Event loop *)

Inductive event : Type :=
| EvInitialize (path : string) (baud : Z) (ctor_ok : bool)
| EvReconnect (path : string) (baud : Z) (ctor_ok : bool)
| EvOpened (sp : port_id) (err : option string)
| EvPortData (sp : port_id) (now : Z) (line : string)
| EvPortError (sp : port_id)
| EvPortClose (sp : port_id)
| EvPollTick
| EvPollAnswer (available ctor_ok : bool)
| EvSimTick (now : Z) (random : Q)
| EvWsConnect (now : Z) (ws : client)
| EvWsStale (ws : client)
| EvWsClose (ws : client).

(** One turn of the event loop; [None] when the runtime cannot deliver the
    event in this state (no such callback is registered). *)
Definition step (w : World) (e : event) : option World :=
  match e with
  | EvInitialize path baud ok => Some (initialize path baud ok w)
  | EvReconnect path baud ok => Some (reconnect path baud ok w)
  | EvOpened sp err =>
      if mem sp (opening w) then Some (open_callback sp err w) else None
  | EvPortData sp now line =>
      if mem sp (attached w) then Some (parseWeight now line w) else None
  | EvPortError sp =>
      if mem sp (attached w) then Some (_onPortLost w) else None
  | EvPortClose sp =>
      if mem sp (attached w)
      then Some (_onPortLost
                   (with_closing (remove_id sp (closing w))
                      (with_attached (remove_id sp (attached w)) w)))
      else None
  | EvPollTick =>
      if reconnectTimer (this w) then Some (poll_tick w) else None
  | EvPollAnswer available ok =>
      match polls w with
      | O => None
      | S _ => Some (poll_resume available ok w)
      end
  | EvSimTick now random =>
      match simInterval (this w) with
      | Some base => Some (sim_tick now random base w)
      | None => None
      end
  | EvWsConnect now ws =>
      Some (addWSClient now ws (with_ws_open (ws :: remove_id ws (ws_open w)) w))
  | EvWsStale ws => Some (with_ws_open (remove_id ws (ws_open w)) w)
  | EvWsClose ws => Some (ws_closed ws w)
  end.

Inductive reachable : World -> Prop :=
| reach_boot : reachable boot
| reach_step (w w' : World) (e : event) :
    reachable w -> step w e = Some w' -> reachable w'.

(** Running a whole script of events from a state. *)
Fixpoint run (w : World) (es : list event) : option World :=
  match es with
  | [] => Some w
  | e :: es' =>
      match step w e with
      | Some w' => run w' es'
      | None => None
      end
  end.

(** * The network printer paths of [printerService.js] *)

Module PrinterService.

Local Open Scope string_scope.

Definition bytes := string.

(** A settled promise. *)
Inductive outcome (A : Type) : Type :=
| Resolved (a : A)
| Rejected (reason : string).
Arguments Resolved {A} a.
Arguments Rejected {A} reason.

(** *** Bills *)

Record Weighing : Type := mkWeighing {
  value     : option Q;
  timestamp : option Z
}.

Record WeighBill : Type := mkBill {
  billNo       : Q;
  dateTime     : Z;
  vehicleNo    : string;
  material     : string;
  customer     : string;
  charges      : Q;
  grossWeight  : option Weighing;
  tareWeight   : option Weighing;
  netWeight    : option Q;
  camera1Image : option string;
  camera2Image : option string
}.


(** *** Results *)

Record PrintResult : Type := mkResult {
  success  : bool;
  method   : string;
  r_host   : option string;
  r_port   : option Z;
  r_html   : option string
}.

Record ProbeResult : Type := mkProbe {
  reachable : bool;
  p_host    : string;
  p_port    : Z;
  p_error   : option string
}.

(** *** The runtime the service talks to *)

(** What a child process started by [exec] does. *)
Inductive exec_reply : Type :=
| Produces (out : bytes)
| Breaks (message : string).

(** What the far end does once the connection stands and the data was
    written and ended; delays are in milliseconds. *)
Inductive peer : Type :=
| Closes (after : Z)
| Resets (after : Z) (message : string)
| Hangs.

(** What the network does with one [connect]. *)
Inductive wire : Type :=
| Refuses (after : Z) (message : string)
| Accepts (after : Z) (next : peer)
| Ignores.

Inductive command : Type :=
| Wkhtmltopdf (htmlFile pdfFile : string).

Inductive action : Type :=
| FsWrite (file : string) (content : bytes)
| FsUnlink (file : string)
| Exec (cmd : command)
| SockSetTimeout (ms : Z)
| SockConnect (host : string) (port : Z)
| SockWrite (data : bytes)
| SockEnd
| SockDestroy
| SockClosed.

Record Runtime : Type := mkRuntime {
  execs : list exec_reply;          (* replies to the [exec] calls to come *)
  wires : list wire;                (* replies to the connections to come *)
  files : list (string * bytes);    (* the temp directory *)
  clock : Z;                        (* milliseconds waited so far *)
  trace : list action               (* what the service did, oldest first *)
}.

(** *** Promises in sequence *)

Definition M (A : Type) : Type := Runtime -> outcome A * Runtime.

Definition ret {A : Type} (a : A) : M A := fun r => (Resolved a, r).

Definition throw {A : Type} (reason : string) : M A := fun r => (Rejected reason, r).

(** [await m] followed by [k]. *)
Definition bind {A B : Type} (m : M A) (k : A -> M B) : M B :=
  fun r =>
    match m r with
    | (Resolved a, r') => k a r'
    | (Rejected e, r') => (Rejected e, r')
    end.

(** [try { m } catch (e) { h e }]. *)
Definition try_catch {A : Type} (m : M A) (h : string -> M A) : M A :=
  fun r =>
    match m r with
    | (Resolved a, r') => (Resolved a, r')
    | (Rejected e, r') => h e r'
    end.

Declare Scope promise_scope.
Delimit Scope promise_scope with promise.
Notation "x <- m ;; k" := (bind m (fun x => k))
  (at level 61, m at next level, right associativity) : promise_scope.
Notation "m ;; k" := (bind m (fun _ => k))
  (at level 61, right associativity) : promise_scope.
Local Open Scope promise_scope.

Definition emit (a : action) : M unit :=
  fun r => (Resolved tt,
            mkRuntime (execs r) (wires r) (files r) (clock r) (trace r ++ [a])%list).

Definition wait (ms : Z) : M unit :=
  fun r => (Resolved tt,
            mkRuntime (execs r) (wires r) (files r) (clock r + ms) (trace r)).

Definition next_wire : M wire :=
  fun r =>
    match wires r with
    | w :: rest => (Resolved w, mkRuntime (execs r) rest (files r) (clock r) (trace r))
    | [] => (Resolved Ignores, r)
    end.

Definition next_exec : M exec_reply :=
  fun r =>
    match execs r with
    | e :: rest => (Resolved e, mkRuntime rest (wires r) (files r) (clock r) (trace r))
    | [] => (Resolved (Breaks "spawn ENOENT"), r)
    end.

Definition store (file : string) (content : bytes) : M unit :=
  fun r => (Resolved tt,
            mkRuntime (execs r) (wires r)
                      ((file, content) :: filter (fun kv => negb (String.eqb (fst kv) file)) (files r))
                      (clock r) (trace r)).

Definition lookup_file (file : string) (fs : list (string * bytes)) : option bytes :=
  option_map snd (find (fun kv => String.eqb (fst kv) file) fs).

(** [fs.writeFileSync(file, content, 'utf8')] *)
Definition writeFileSync (file : string) (content : bytes) : M unit :=
  emit (FsWrite file content) ;; store file content.

(** [fs.readFileSync(file)] *)
Definition readFileSync (file : string) : M bytes :=
  fun r =>
    match lookup_file file (files r) with
    | Some data => (Resolved data, r)
    | None => (Rejected ("ENOENT: no such file or directory, open '" ++ file ++ "'"), r)
    end.

(** One round of [_cleanupTemp]: unlink the file if it exists. *)
Definition unlink_if_exists (file : string) : M unit :=
  fun r =>
    match lookup_file file (files r) with
    | Some _ =>
        (Resolved tt,
         mkRuntime (execs r) (wires r)
                   (filter (fun kv => negb (String.eqb (fst kv) file)) (files r))
                   (clock r) (trace r ++ [FsUnlink file])%list)
    | None => (Resolved tt, r)
    end.

Fixpoint _cleanupTemp (fs : list string) : M unit :=
  match fs with
  | [] => ret tt
  | f :: rest => unlink_if_exists f ;; _cleanupTemp rest
  end.

(** [_execAsync(cmd)]: resolves with the output, rejects with the error of
    the child process; a successful [wkhtmltopdf] leaves the PDF behind. *)
Definition _execAsync (cmd : command) : M bytes :=
  emit (Exec cmd) ;;
  reply <- next_exec ;;
  match reply with
  | Produces out =>
      match cmd with
      | Wkhtmltopdf _ pdfFile => store pdfFile out ;; ret out
      end
  | Breaks message => throw message
  end.

(** The body of [for (let i = 0; i < copies; i++) await send]. *)
Fixpoint repeat_await (n : nat) (send : M unit) : M unit :=
  match n with
  | O => ret tt
  | S n' => send ;; repeat_await n' send
  end.

Definition for_copies (copies : Z) (send : M unit) : M unit :=
  repeat_await (Z.to_nat copies) send.

Definition show_Z (z : Z) : string := NilZero.string_of_int (Z.to_int z).

(** *** Raw socket to the printer *)

(** The idle timer of [_sendRawToIPPrinter] fired. *)
Definition send_timed_out (host : string) (port : Z) : M unit :=
  wait 10000 ;;
  emit SockDestroy ;;
  throw ("IP Printer timeout connecting to " ++ host ++ ":" ++ show_Z port).

Definition _sendRawToIPPrinter (data : bytes) (host : string) (port : Z) : M unit :=
  emit (SockSetTimeout 10000) ;;
  emit (SockConnect host port) ;;
  w <- next_wire ;;
  match w with
  | Refuses after message =>
      if (after <? 10000)%Z
      then wait after ;; throw ("IP Printer error: " ++ message)
      else send_timed_out host port
  | Ignores => send_timed_out host port
  | Accepts after next =>
      if (after <? 10000)%Z
      then
        wait after ;;
        emit (SockWrite data) ;;
        emit SockEnd ;;
        match next with
        | Closes after' =>
            if (after' <? 10000)%Z
            then wait after' ;; emit SockClosed ;; ret tt
            else send_timed_out host port
        | Resets after' message =>
            if (after' <? 10000)%Z
            then wait after' ;; throw ("IP Printer error: " ++ message)
            else send_timed_out host port
        | Hangs => send_timed_out host port
        end
      else send_timed_out host port
  end.

Definition _sendFileToIPPrinter (filePath host : string) (port : Z) : M unit :=
  data <- readFileSync filePath ;;
  _sendRawToIPPrinter data host port.

(** *** The reachability probe *)

Definition probe_timed_out (host : string) (port : Z) : M ProbeResult :=
  wait 4000 ;;
  emit SockDestroy ;;
  ret (mkProbe false host port (Some "Timeout")).

(** [testIPPrinter(host, port = 9100)] *)
Definition testIPPrinter (host : string) (port_arg : option Z) : M ProbeResult :=
  let port := match port_arg with Some p => p | None => 9100 end in
  emit (SockSetTimeout 4000) ;;
  emit (SockConnect host port) ;;
  w <- next_wire ;;
  match w with
  | Accepts after _ =>
      if (after <? 4000)%Z
      then wait after ;; emit SockDestroy ;; ret (mkProbe true host port None)
      else probe_timed_out host port
  | Refuses after message =>
      if (after <? 4000)%Z
      then wait after ;; ret (mkProbe false host port (Some message))
      else probe_timed_out host port
  | Ignores => probe_timed_out host port
  end.

(** *** The raw fallback document and the dispatcher *)

Section Dispatcher.

(** JavaScript's number-to-string conversion and the three [en-IN] date
    formats are taken as given. *)
Variable Number_toString : Q -> string.
Variable toLocaleDateString : Z -> string.
Variable toLocaleTimeString : Z -> string.
Variable toLocaleString : Z -> string.

Definition ESC : string := String (ascii_of_nat 27) EmptyString.
Definition CRLF : string := String (ascii_of_nat 13) (String (ascii_of_nat 10) EmptyString).

(** [s.repeat(n)] *)
Fixpoint repeat_string (s : string) (n : nat) : string :=
  match n with
  | O => EmptyString
  | S n' => s ++ repeat_string s n'
  end.

(** [join('')] *)
Definition join (lines : list string) : string :=
  fold_right String.append EmptyString lines.

(** [x?.value || '--'] *)
Definition value_or_dashes (x : option Weighing) : string :=
  match x with
  | Some wg =>
      match value wg with
      | Some v => if Qeq_bool v 0 then "--" else Number_toString v
      | None => "--"
      end
  | None => "--"
  end.

(** [x?.timestamp ? new Date(x.timestamp).toLocaleString('en-IN') : ''] *)
Definition stamp_or_blank (x : option Weighing) : string :=
  match x with
  | Some wg =>
      match timestamp wg with
      | Some t => toLocaleString t
      | None => ""
      end
  | None => ""
  end.

Definition number_or_dashes (x : option Q) : string :=
  match x with
  | Some v => if Qeq_bool v 0 then "--" else Number_toString v
  | None => "--"
  end.

Definition rule : string := repeat_string "─" 48 ++ CRLF.

Definition _buildRawPCL (bill : WeighBill) : bytes :=
  join
    [ ESC ++ "%-12345X@PJL" ++ CRLF;
      "@PJL ENTER LANGUAGE=PCL" ++ CRLF;
      ESC ++ "E";
      ESC ++ "&l0O";
      ESC ++ "&l2A";
      CRLF;
      "SRI VENKADESWARA WEIGH BRIDGE" ++ CRLF;
      rule;
      "Serial No : " ++ Number_toString (billNo bill) ++ "    Date: "
        ++ toLocaleDateString (dateTime bill) ++ CRLF;
      "Time      : " ++ toLocaleTimeString (dateTime bill) ++ CRLF;
      rule;
      "Vehicle No    : " ++ vehicleNo bill ++ CRLF;
      "Customer Name : " ++ customer bill ++ CRLF;
      "Material      : " ++ material bill ++ CRLF;
      "Charge        : Rs. " ++ Number_toString (charges bill) ++ CRLF;
      rule;
      "Gross Weight  : " ++ value_or_dashes (grossWeight bill) ++ " Kg" ++ CRLF;
      "               " ++ stamp_or_blank (grossWeight bill) ++ CRLF;
      "Tare Weight   : " ++ value_or_dashes (tareWeight bill) ++ " Kg" ++ CRLF;
      "               " ++ stamp_or_blank (tareWeight bill) ++ CRLF;
      rule;
      "NET WEIGHT    : " ++ number_or_dashes (netWeight bill) ++ " Kg" ++ CRLF;
      rule;
      CRLF ++ CRLF ++ CRLF;
      ESC ++ "E";
      ESC ++ "%-12345X" ].

(** The fields of [this] read on the ip path, and [Date.now()]. *)
Record Service : Type := mkPrinter {
  defaultPrinterType : string;
  ipPrinterHost      : string;
  ipPrinterPort      : Z;
  localPrinterName   : string;
  tempDir            : string
}.

Variable self : Service.

Definition temp_file (bill : WeighBill) (now : Z) (ext : string) : string :=
  tempDir self ++ "/bill_" ++ Number_toString (billNo bill) ++ "_" ++ show_Z now ++ ext.

Definition printViaIP (now : Z) (html : string) (bill : WeighBill)
    (host : string) (port : Z) (copies : Z) : M PrintResult :=
  let pdfFile := temp_file bill now ".pdf" in
  let htmlFile := temp_file bill now ".html" in
  writeFileSync htmlFile html ;;
  try_catch
    (_execAsync (Wkhtmltopdf htmlFile pdfFile) ;;
     for_copies copies (_sendFileToIPPrinter pdfFile host port) ;;
     _cleanupTemp [htmlFile; pdfFile] ;;
     ret (mkResult true "ip_pdf" (Some host) (Some port) None))
    (fun pdfErr =>
       _cleanupTemp [htmlFile; pdfFile] ;;
       let rawData := _buildRawPCL bill in
       for_copies copies (_sendRawToIPPrinter rawData host port) ;;
       ret (mkResult true "ip_raw" (Some host) (Some port) None)).

(** The receipt markup and the two local-queue back ends stay abstract. *)
Variable Company : Type.
Variable buildBillHTML : WeighBill -> Company -> string.
Variable printViaLocal : string -> WeighBill -> string -> Z -> M PrintResult.
Variable printViaPDF : string -> WeighBill -> string -> Z -> M PrintResult.





End Dispatcher.

End PrinterService.

(** * Vocabulary of the properties *)

Section Vocabulary.

(** ** Weight feed *)



(** Feeding a list of samples in order. *)
Definition feed (xs : list Q) (s : SerialService) : SerialService :=
  fold_left (fun s x => fst (ingest 0 x s)) xs s.

(** The messages a call appended to the send log. *)
Definition emitted (before after : World) : list (client * message) :=
  skipn (length (sent before)) (sent after).

(** A world with one open subscriber whose window already holds four
    samples of a plateau. *)
Definition plateau_world : World :=
  mkWorld (set_wsClients [7%nat] (feed [39170; 39172; 39168; 39171]%Q constructed))
          0 [] [] [] 0 [7%nat] [].


(** The real feed is active: the service believes it is connected and the
    port it holds is open. *)
Definition real_active (w : World) : Prop :=
  isConnected (this w) = true
  /\ exists p, port (this w) = Some p /\ In p (attached w).

(** The simulated feed is active: the one-second interval is armed. *)
Definition sim_active (w : World) : Prop := simInterval (this w) <> None.

(** The part of a world the two invariants speak about. *)
Definition control (w : World) : bool * option Z * bool * list port_id :=
  (isConnected (this w), simInterval (this w), reconnectActive (this w), opening w).

Definition sound (c : bool * option Z * bool * list port_id) : Prop :=
  let '(connected, sim, active, owed) := c in
  (connected = true -> sim = None)
  /\ (if active then exists sp, owed = [sp] else owed = []).

Definition consistent (w : World) : Prop := sound (control w).

(** A start-up on a machine without the scale: the first attempt fails, the
    simulation feeds two samples, the poll then finds the port and a second
    attempt is under way. *)
Definition simulating_script : list event :=
  [ EvInitialize "COM3" 9600 true;
    EvOpened 0%nat (Some "File not found"%string);
    EvSimTick 1000 (1 # 2);
    EvSimTick 2000 (1 # 2);
    EvPollTick;
    EvPollAnswer true true ].

Definition world_after (es : list event) : World :=
  match run boot es with Some w => w | None => boot end.

Definition simulating_world : World := world_after simulating_script.

(** The same run, with the second attempt succeeding. *)
Definition connected_world : World :=
  world_after (simulating_script ++ [EvOpened 1%nat None]).

(** A state no run produces, in which the simulation timer is still armed
    although the service is connected. *)
Definition overlapping_world : World :=
  with_this (set_simInterval (Some 39170) (this connected_world)) connected_world.

(** The state right after start-up, with the first attempt outstanding. *)
Definition connecting_world : World :=
  world_after [EvInitialize "COM3" 9600 true].

(** ** Network printer *)

Import PrinterService.
Local Open Scope string_scope.

(** The socket calls and events in a trace. *)
Definition is_sock (a : action) : bool :=
  match a with
  | FsWrite _ _ | FsUnlink _ | Exec _ => false
  | _ => true
  end.

Definition sock_trace (r : Runtime) : list action := filter is_sock (trace r).

(** A runtime in which one connection, answered by [w], is still to come. *)
Definition lone (w : wire) : Runtime := mkRuntime [] [w] [] 0 [].

(** What one [_sendRawToIPPrinter] does and how it settles when the network
    answers with [w]. *)
Definition session (data : bytes) (host : string) (port : Z) (w : wire) : list action :=
  trace (snd (_sendRawToIPPrinter data host port (lone w))).

Definition verdict (data : bytes) (host : string) (port : Z) (w : wire) : outcome unit :=
  fst (_sendRawToIPPrinter data host port (lone w)).

(** The connection is accepted and closed by the printer in time. *)
Definition completes (w : wire) : Prop :=
  exists t t', w = Accepts t (Closes t') /\ t < 10000 /\ t' < 10000.

(** The five steps of a copy that goes through, in order. *)
Definition full_session (data : bytes) (host : string) (port : Z) : list action :=
  [SockSetTimeout 10000; SockConnect host port; SockWrite data; SockEnd; SockClosed].

Definition raw_result (host : string) (port : Z) : PrintResult :=
  mkResult true "ip_raw" (Some host) (Some port) None.

Definition pdf_result (host : string) (port : Z) : PrintResult :=
  mkResult true "ip_pdf" (Some host) (Some port) None.




Definition demo_number (q : Q) : string := show_Z (Qfloor q).

Definition demo_date (t : Z) : string := show_Z t.

Definition demo_service : Service :=
  mkPrinter "local" "192.168.1.200" 9100 "" "/srv/weighbridge/temp".

Definition demo_bill : WeighBill :=
  mkBill 42 1700000000000 "TN01AB1234" "SAND" "RAVI" 100
         (Some (mkWeighing (Some 39170%Q) (Some 1700000000000)))
         (Some (mkWeighing (Some 12000%Q) (Some 1700000600000)))
         (Some 27170%Q)
         (Some "/snapshots/cam1_42.jpg"%string) (Some "/snapshots/cam2_42.jpg"%string).

Definition demo_runtime (es : list exec_reply) (ws : list wire) : Runtime :=
  mkRuntime es ws [] 0 [].

Definition demo_viaIP (copies : Z) : M PrintResult :=
  printViaIP demo_number demo_date demo_date demo_date demo_service
             1700000700000 "<html>receipt</html>" demo_bill "10.0.0.9" 9100 copies.



Definition two_good : list wire := [Accepts 5 (Closes 120); Accepts 4 (Closes 90)].

Definition refusal : wire := Refuses 3 "connect ECONNREFUSED 10.0.0.9:9100".

Definition connects (tr : list action) : nat :=
  length (filter (fun a => match a with SockConnect _ _ => true | _ => false end) tr).

End Vocabulary.

(** * Further vocabulary: the weight feed as a whole *)

(** [getCurrentWeight()], without its time stamp. *)
Record Reading : Type := mkReading {
  rd_weight       : Q;
  rd_stableWeight : Z;
  rd_simulation   : bool
}.

Definition getCurrentWeight (s : SerialService) : Reading :=
  mkReading (currentWeight s) (stableWeight s) (isSimulation s).

(** A status event in which exactly one of the two flags is set; weight
    events pass. *)
Definition status_exclusive (m : message) : Prop :=
  match m with
  | StatusMsg connected simulation => connected = negb simulation
  | WeightMsg _ _ _ _ _ => True
  end.

Definition msg_simulation (m : message) : bool :=
  match m with
  | WeightMsg _ _ _ simulation _ => simulation
  | StatusMsg _ simulation => simulation
  end.

Definition msg_weight (m : message) : Q :=
  match m with
  | WeightMsg weight _ _ _ _ => weight
  | StatusMsg _ _ => 0%Q
  end.

Definition msg_stableWeight (m : message) : Z :=
  match m with
  | WeightMsg _ _ stableWeight _ _ => stableWeight
  | StatusMsg _ _ => 0
  end.

(** What holds of the flags, the timers, the subscriber set and the send
    log after any number of event-loop turns. *)
Record coherent (w : World) : Prop := mkCoherent {
  co_timer   : isConnected (this w) = true -> reconnectTimer (this w) = false;
  co_flag    : isConnected (this w) = true -> isSimulation (this w) = false;
  co_sim     : simInterval (this w) <> None -> isSimulation (this w) = true;
  co_status  : Forall (fun cm => status_exclusive (snd cm)) (sent w);
  co_clients : NoDup (wsClients (this w))
}.

(** What holds of the readings. *)
Record plausible (s : SerialService) : Prop := mkPlausible {
  pl_capacity : (length (weightBuffer s) <= 5)%nat;
  pl_window   : forall y, In y (weightBuffer s) -> (0 <= y)%Q;
  pl_current  : (0 <= currentWeight s)%Q;
  pl_stable   : 0 <= stableWeight s
}.

(** Every port object that is opening or has listeners attached was made
    earlier. *)
Definition numbered (w : World) : Prop :=
  forall p, In p (attached w) \/ In p (opening w) -> (p < made w)%nat.

(** The three readings the service keeps. *)
Definition readings (s : SerialService) : Q * list Q * Z :=
  (currentWeight s, weightBuffer s, stableWeight s).

(** A run with one subscriber: the scale is found at once, sends three
    lines, and is then unplugged. *)
Definition subscribed_script : list event :=
  [ EvWsConnect 100 7%nat;
    EvInitialize "COM3" 9600 true;
    EvOpened 0%nat None;
    EvPortData 0%nat 200 "ST,GS,+039170kg";
    EvPortData 0%nat 300 "ST,GS,+039172kg";
    EvPortData 0%nat 400 "no reading";
    EvPortClose 0%nat;
    EvSimTick 1400 (1 # 2) ].

Definition subscribed_world : World := world_after subscribed_script.

(** All characters of a string satisfy a test. *)
Fixpoint all_chars (p : ascii -> bool) (s : string) : bool :=
  match s with
  | EmptyString => true
  | String c r => p c && all_chars p r
  end.

(** The string is empty or begins with a character that is neither a digit
    nor a dot. *)
Definition ends_number (s : string) : bool :=
  match s with
  | EmptyString => true
  | String c _ => negb (is_digit c) && negb (Ascii.eqb c "."%char)
  end.

(** * Further vocabulary: the network printer *)

Section PrinterVocabulary.

Import PrinterService.

(** How often the renderer was started, by the trace. *)
Definition renders (tr : list action) : nat :=
  length (filter (fun a => match a with Exec _ => true | _ => false end) tr).

(** The file is not in the temp directory. *)
Definition absent (file : string) (r : Runtime) : Prop :=
  lookup_file file (files r) = None.

(** Every file but the two named ones is as it was. *)
Definition same_other_files (f1 f2 : string) (r r' : Runtime) : Prop :=
  forall f, f <> f1 -> f <> f2 ->
            lookup_file f (files r') = lookup_file f (files r).

(** What a stretch of a dispatch did between two runtimes: which files it
    may have touched, how often it started the renderer, how many
    connections it opened at most, how long it waited on sockets at most. *)
Record within (f1 f2 : string) (n_renders n_connects : nat) (ms : Z)
              (r r' : Runtime) : Prop := mkWithin {
  wi_files    : same_other_files f1 f2 r r';
  wi_renders  : renders (trace r') = (renders (trace r) + n_renders)%nat;
  wi_connects : (connects (trace r') <= connects (trace r) + n_connects)%nat;
  wi_clock    : clock r' <= clock r + ms
}.



(** The port the probe connects to. *)
Definition probed_port (port_arg : option Z) : Z :=
  match port_arg with Some p => p | None => 9100 end.

End PrinterVocabulary.

(** * The local print queue paths of [printerService.js] *)

Module LocalQueue.

Import PrinterService.
Local Open Scope string_scope.

(** [process.platform], as far as the code tells platforms apart:
    ['win32'], ['darwin'], anything else. *)
Inductive Platform : Type := Win32 | Darwin | Unix.

(** The results of the local paths: [success], [method], [printer],
    [error] and [file]. *)
Record LocalResult : Type := mkLocal {
  l_success : bool;
  l_method  : string;
  l_printer : option string;
  l_error   : option string;
  l_file    : option string
}.

(** A command line handed to the shell; the renderer leaves [pdfFile]
    behind when it succeeds. *)
Inductive shell_command : Type :=
| Spool (line : string)
| Render (line : string) (pdfFile : string).

Inductive queue_action : Type :=
| DiskWrite (file : string) (content : bytes)
| DiskUnlink (file : string)
| Shell (cmd : shell_command).

Record Machine : Type := mkMachine {
  replies : list exec_reply;        (* replies to the [exec] calls to come *)
  disk    : list (string * bytes);  (* the temp directory *)
  history : list queue_action       (* what the service did, oldest first *)
}.

(** Promises over this machine: [await] in sequence, [throw] and
    [try]/[catch]. *)
Definition Job (A : Type) : Type := Machine -> outcome A * Machine.

Definition finish {A : Type} (a : A) : Job A := fun r => (Resolved a, r).

Definition fail {A : Type} (reason : string) : Job A := fun r => (Rejected reason, r).

Definition and_then {A B : Type} (m : Job A) (k : A -> Job B) : Job B :=
  fun r =>
    match m r with
    | (Resolved a, r') => k a r'
    | (Rejected e, r') => (Rejected e, r')
    end.

Definition rescue {A : Type} (m : Job A) (h : string -> Job A) : Job A :=
  fun r =>
    match m r with
    | (Resolved a, r') => (Resolved a, r')
    | (Rejected e, r') => h e r'
    end.

Declare Scope queue_scope.
Delimit Scope queue_scope with queue.
Notation "x <- m ;; k" := (and_then m (fun x => k))
  (at level 61, m at next level, right associativity) : queue_scope.
Notation "m ;; k" := (and_then m (fun _ => k))
  (at level 61, right associativity) : queue_scope.
Local Open Scope queue_scope.

Definition log_action (a : queue_action) : Job unit :=
  fun r => (Resolved tt, mkMachine (replies r) (disk r) (history r ++ [a])%list).

Definition next_reply : Job exec_reply :=
  fun r =>
    match replies r with
    | e :: rest => (Resolved e, mkMachine rest (disk r) (history r))
    | [] => (Resolved (Breaks "spawn ENOENT"), r)
    end.

Definition put_file (file : string) (content : bytes) : Job unit :=
  fun r => (Resolved tt,
            mkMachine (replies r)
                      ((file, content) :: filter (fun kv => negb (String.eqb (fst kv) file)) (disk r))
                      (history r)).

(** [fs.writeFileSync(file, content)] *)
Definition write_file (file : string) (content : bytes) : Job unit :=
  log_action (DiskWrite file content) ;; put_file file content.

(** One round of [_cleanupTemp]: unlink the file if it exists. *)
Definition unlink_existing (file : string) : Job unit :=
  fun r =>
    match lookup_file file (disk r) with
    | Some _ =>
        (Resolved tt,
         mkMachine (replies r)
                   (filter (fun kv => negb (String.eqb (fst kv) file)) (disk r))
                   (history r ++ [DiskUnlink file])%list)
    | None => (Resolved tt, r)
    end.

(** [_cleanupTemp(...files)] *)
Fixpoint cleanup_temp (fs : list string) : Job unit :=
  match fs with
  | [] => finish tt
  | f :: rest => unlink_existing f ;; cleanup_temp rest
  end.

(** [exec(cmd, callback)]: the callback gets the reply of the child
    process. *)
Definition exec (cmd : shell_command) : Job exec_reply :=
  log_action (Shell cmd) ;;
  reply <- next_reply ;;
  match reply, cmd with
  | Produces out, Render _ pdfFile => put_file pdfFile out ;; finish reply
  | _, _ => finish reply
  end.

(** [_execAsync(cmd)] *)
Definition exec_async (cmd : shell_command) : Job bytes :=
  reply <- exec cmd ;;
  match reply with
  | Produces out => finish out
  | Breaks message => fail message
  end.

Definition DQ : string := String (ascii_of_nat 34) EmptyString.

Definition BACKSLASH : ascii := ascii_of_nat 92.

(** [s] between double quotes. *)
Definition quoted (s : string) : string := DQ ++ s ++ DQ.

(** [s.replace(/\\/g, '/')] *)
Fixpoint forward_slashes (s : string) : string :=
  match s with
  | EmptyString => EmptyString
  | String c s' =>
      String (if Ascii.eqb c BACKSLASH then "/"%char else c) (forward_slashes s')
  end.

(** [s.split(sep)] for a separator of one character. *)
Fixpoint split_on (sep : ascii) (s : string) : list string :=
  match s with
  | EmptyString => [EmptyString]
  | String c r =>
      if Ascii.eqb c sep then EmptyString :: split_on sep r
      else match split_on sep r with
           | first :: rest => String c first :: rest
           | [] => [String c EmptyString]
           end
  end.

(** [s.includes(c)] for one character. *)
Fixpoint includes (c : ascii) (s : string) : bool :=
  match s with
  | EmptyString => false
  | String a r => Ascii.eqb a c || includes c r
  end.

(** [Boolean(s)] of a string. *)
Definition truthy (s : string) : bool := negb (String.eqb s EmptyString).

Definition NEWLINE : ascii := ascii_of_nat 10.

(** An entry of the printer list; [None] is [undefined]. *)
Record PrinterEntry : Type := mkEntry {
  name   : option string;
  status : option string
}.

(** The entries made of the data rows of [wmic]: the second and the third
    field of each row, trimmed; rows without a name are left out. *)
Definition wmic_entries (rows : list string) : list PrinterEntry :=
  filter (fun p => match name p with Some n => truthy n | None => false end)
    (map (fun l =>
            let parts := split_on ","%char l in
            mkEntry (option_map trim (nth_error parts 1))
                    (option_map trim (nth_error parts 2)))
         rows).

(** The list built from the output of [wmic] on win32. *)
Definition wmic_printers (output : string) : list PrinterEntry :=
  let lines := filter (includes ","%char) (split_on NEWLINE output) in
  wmic_entries (tl lines).

(** The list built from the output of [lpstat -a] elsewhere. *)
Definition lpstat_printers (output : string) : list PrinterEntry :=
  map (fun l => mkEntry (nth_error (split_on " "%char l) 0) (Some "available"))
      (filter truthy (split_on NEWLINE output)).

Section Queue.

Variable Number_toString : Q -> string.
Variable toLocaleDateString : Z -> string.
Variable toLocaleTimeString : Z -> string.
Variable toLocaleString : Z -> string.
Variable self : Service.
Variable platform : Platform.

(** [_printRawText(bill, printerName, copies)]; [now] is [Date.now()]. *)
Definition _printRawText (now : Z) (bill : WeighBill) (printerName : string)
    (copies : Z) : Job LocalResult :=
  let rawText := _buildRawPCL Number_toString toLocaleDateString
                              toLocaleTimeString toLocaleString bill in
  let tmpFile := tempDir self ++ "/raw_" ++ show_Z now ++ ".prn" in
  write_file tmpFile rawText ;;
  let cmd :=
    match platform with
    | Win32 =>
        if String.eqb printerName ""
        then "copy /b " ++ quoted tmpFile ++ " PRN"
        else "copy /b " ++ quoted tmpFile ++ " "
             ++ quoted (String BACKSLASH (String BACKSLASH "localhost")
                        ++ String BACKSLASH printerName)
    | _ =>
        let pFlag := if String.eqb printerName "" then ""
                     else "-P " ++ quoted printerName in
        "lpr " ++ pFlag ++ " " ++ quoted tmpFile
    end in
  reply <- exec (Spool cmd) ;;
  cleanup_temp [tmpFile] ;;
  match reply with
  | Breaks message => finish (mkLocal false "raw_text" None (Some message) None)
  | Produces _ => finish (mkLocal true "raw_text" None None None)
  end.

(** The command line of the HTML attempt of [printViaLocal]. *)
Definition local_command (htmlFile printerName : string) (copies : Z) : string :=
  match platform with
  | Win32 =>
      let ps :=
        if String.eqb printerName ""
        then "Start-Process -FilePath " ++ quoted htmlFile ++ " -Verb Print -Wait"
        else "$ie = New-Object -ComObject InternetExplorer.Application; $ie.Navigate('file:///"
             ++ forward_slashes htmlFile
             ++ "'); Start-Sleep 2; $ie.ExecWB(6,2); Start-Sleep 2; $ie.Quit()" in
      "powershell -Command " ++ quoted ps
  | Darwin =>
      let pFlag := if String.eqb printerName "" then ""
                   else "-P " ++ quoted printerName in
      let nFlag := "-#" ++ show_Z copies in
      "lpr " ++ pFlag ++ " " ++ nFlag ++ " " ++ quoted htmlFile
  | Unix =>
      let pFlag := if String.eqb printerName "" then ""
                   else "-d " ++ quoted printerName in
      let nFlag := "-n " ++ show_Z copies in
      "lp " ++ pFlag ++ " " ++ nFlag ++ " " ++ quoted htmlFile
  end.

(** [printViaLocal(html, bill, printerName, copies)]; [now] and [later] are
    the two readings of [Date.now()], the second one taken by the raw text
    fallback. *)
Definition printViaLocal (now later : Z) (html : string) (bill : WeighBill)
    (printerName : string) (copies : Z) : Job LocalResult :=
  let htmlFile := temp_file Number_toString self bill now ".html" in
  write_file htmlFile html ;;
  rescue
    (exec_async (Spool (local_command htmlFile printerName copies)) ;;
     cleanup_temp [htmlFile] ;;
     finish (mkLocal true "local"
            (Some (if String.eqb printerName "" then "default" else printerName))
            None None))
    (fun err =>
       cleanup_temp [htmlFile] ;;
       _printRawText later bill printerName copies).

(** The command line that spools the PDF of [printViaPDF]. *)
Definition pdf_command (pdfFile printerName : string) (copies : Z) : string :=
  let pFlag :=
    if String.eqb printerName "" then ""
    else match platform with
         | Win32 => "/D:" ++ quoted printerName
         | _ => "-P " ++ quoted printerName
         end in
  match platform with
  | Win32 =>
      "AcroRd32.exe /P /T " ++ quoted pdfFile ++ " "
      ++ quoted (if String.eqb printerName "" then "" else printerName)
  | _ => "lpr " ++ pFlag ++ " -#" ++ show_Z copies ++ " " ++ quoted pdfFile
  end.

(** [printViaPDF(html, bill, printerName, copies)] *)
Definition printViaPDF (now : Z) (html : string) (bill : WeighBill)
    (printerName : string) (copies : Z) : Job LocalResult :=
  let pdfFile := temp_file Number_toString self bill now ".pdf" in
  let htmlFile := temp_file Number_toString self bill now ".html" in
  write_file htmlFile html ;;
  rescue
    (exec_async (Render ("wkhtmltopdf --quiet --page-size A4 " ++ quoted htmlFile
                         ++ " " ++ quoted pdfFile) pdfFile) ;;
     exec_async (Spool (pdf_command pdfFile printerName copies)) ;;
     cleanup_temp [htmlFile; pdfFile] ;;
     finish (mkLocal true "pdf" None None (Some pdfFile)))
    (fun err =>
       cleanup_temp [htmlFile] ;;
       fail ("PDF print failed: " ++ err)).

(** [execSync(cmd, { timeout: 5000 })]: the output, or an exception. *)
Definition execSync (line : string) : Job bytes := exec_async (Spool line).

(** [listLocalPrinters()] *)
Definition listLocalPrinters : Job (list PrinterEntry) :=
  rescue
    (match platform with
     | Win32 =>
         output <- execSync "wmic printer get name,status /format:csv 2>nul" ;;
         finish (wmic_printers output)
     | Darwin =>
         output <- execSync "lpstat -a 2>/dev/null" ;;
         finish (lpstat_printers output)
     | Unix =>
         output <- execSync "lpstat -a 2>/dev/null || lpq -a 2>/dev/null | head -20" ;;
         finish (lpstat_printers output)
     end)
    (fun _ => finish []).

End Queue.

End LocalQueue.

(** * Further vocabulary: the local print queue *)

Section QueueVocabulary.

Import PrinterService LocalQueue.

(** How many commands were handed to the shell, by the history. *)
Definition spooled (tr : list queue_action) : nat :=
  length (filter (fun a => match a with Shell _ => true | _ => false end) tr).

(** The file is in the temp directory, with this content. *)
Definition holds (f : string) (r : Machine) : option bytes :=
  lookup_file f (disk r).

(** The temp file of the raw text fallback started at [now]. *)
Definition raw_file (self : Service) (now : Z) : string :=
  (tempDir self ++ "/raw_" ++ show_Z now ++ ".prn")%string.

(** No character of the string is [c]. *)
Definition free_of (c : ascii) (s : string) : bool :=
  all_chars (fun a => negb (Ascii.eqb a c)) s.

Definition queue_runtime (es : list exec_reply) : Machine := mkMachine es [] [].

End QueueVocabulary.

(** * Properties of the stability filter *)

Section StabilityFilter.

Lemma Qltb_lt (a b : Q) : Qltb a b = true <-> (a < b)%Q.
Proof.
  unfold Qltb. rewrite negb_true_iff. split; intro H.
  - apply Qnot_le_lt. intro Hle. apply Qle_bool_iff in Hle. congruence.
  - apply not_true_is_false. intro Hb. apply Qle_bool_iff in Hb.
    exact (Qlt_not_le _ _ H Hb).
Qed.


Lemma ingest_buffer now x s :
  weightBuffer (fst (ingest now x s)) = push_shift (weightBuffer s) x.
Proof.
  unfold ingest; cbv zeta.
  unfold set_weightBuffer, set_currentWeight; cbn [weightBuffer].
  match goal with |- context [if ?b then _ else _] => destruct b end; reflexivity.
Qed.


Lemma ingest_stableWeight now x s :
  stableWeight (fst (ingest now x s)) =
  let buf := push_shift (weightBuffer s) x in
  if every_near (average buf) buf && (length buf =? 5)%nat
  then Math_round (average buf) else stableWeight s.
Proof.
  unfold ingest; cbv zeta.
  unfold set_weightBuffer, set_currentWeight; cbn [weightBuffer].
  match goal with |- context [if ?b then _ else _] => destruct b end; reflexivity.
Qed.

Lemma push_shift_nonempty buf x : push_shift buf x <> [].
Proof.
  unfold push_shift. cbv zeta.
  destruct (Nat.ltb_spec 5 (length (buf ++ [x]))) as [Hlt|Hge].
  - destruct (buf ++ [x]) as [|a [|b l]]; cbn in *; try lia; discriminate.
  - destruct buf; discriminate.
Qed.

(** The window never grows past its five slots. *)
Lemma push_shift_capacity buf x :
  (length buf <= 5)%nat -> (length (push_shift buf x) <= 5)%nat.
Proof.
  intro H. unfold push_shift.
  destruct (Nat.ltb_spec 5 (length (buf ++ [x]))) as [Hlt|Hge]; [|lia].
  rewrite length_app in Hlt; cbn in Hlt.
  destruct buf; cbn in *; [lia|]. rewrite length_app; cbn. lia.
Qed.

Lemma updateWeight_this now x w :
  this (updateWeight now x w) = fst (ingest now x (this w)).
Proof. reflexivity. Qed.

(** What one [updateWeight] sends: the same object to every subscriber whose
    socket is open, after everything sent before. *)
Lemma updateWeight_sent now x w :
  sent (updateWeight now x w) =
  sent w ++ map (fun c => (c, snd (ingest now x (this w))))
                (filter (fun c => mem c (ws_open w)) (wsClients (this w))).
Proof.
  unfold updateWeight, ingest; cbv zeta.
  unfold set_weightBuffer, set_currentWeight; cbn [weightBuffer].
  match goal with |- context [if ?b then _ else _] => destruct b end; reflexivity.
Qed.

Lemma emitted_updateWeight now x w :
  emitted w (updateWeight now x w) =
  map (fun c => (c, snd (ingest now x (this w))))
      (filter (fun c => mem c (ws_open w)) (wsClients (this w))).
Proof.
  unfold emitted. rewrite updateWeight_sent.
  rewrite skipn_app, skipn_all, Nat.sub_diag. reflexivity.
Qed.









End StabilityFilter.

(** * Properties of the parser *)

Section Parser.

(** The hyphen of a negative reading is consumed by the pattern but is not
    part of the captured group. *)
Example group_drops_sign : regex_match1 (trim "-50") = Some "50"%string.
Proof. reflexivity. Qed.

Example group_of_tagged_line :
  regex_match1 (trim "ST,GS,+039170kg") = Some "039170"%string.
Proof. reflexivity. Qed.

Lemma parseWeight_unparseable now data w :
  regex_match1 (trim data) = None -> parseWeight now data w = w.
Proof. intro H. unfold parseWeight. rewrite H. reflexivity. Qed.

(** A captured value of 200000 or more is dropped: nothing is pushed, nothing
    is sent, the connection state is as before. *)
Lemma parseWeight_too_large now data w m x :
  regex_match1 (trim data) = Some m -> parseFloat m = Some x ->
  (200000 <= x)%Q -> parseWeight now data w = w.
Proof.
  intros Hm Hx Hbig. unfold parseWeight. rewrite Hm, Hx.
  destruct (Qltb x 200000) eqn:Hlt.
  - apply Qltb_lt in Hlt. exfalso. exact (Qlt_not_le _ _ Hlt Hbig).
  - rewrite andb_false_r. reflexivity.
Qed.

Lemma span_digits_fst_digits s c :
  In c (list_ascii_of_string (fst (span_digits s))) -> is_digit c = true.
Proof.
  induction s as [|a s IH]; cbn; [tauto|].
  destruct (is_digit a) eqn:Ha; [|cbn; tauto].
  destruct (span_digits s) as [d rest]; cbn in *.
  intros [<-|Hin]; auto.
Qed.

Lemma digits_value_nonneg s :
  (forall c, In c (list_ascii_of_string s) -> is_digit c = true) ->
  forall acc, 0 <= acc -> 0 <= digits_value acc s.
Proof.
  induction s as [|a s IH]; intros Hd acc Hacc; cbn [digits_value]; [exact Hacc|].
  apply IH.
  - intros c Hc. apply Hd. right. exact Hc.
  - assert (Ha : is_digit a = true) by (apply Hd; left; reflexivity).
    unfold is_digit in Ha. cbv zeta in Ha.
    apply andb_true_iff in Ha. destruct Ha as [Ha _].
    apply Nat.leb_le in Ha. lia.
Qed.

(** [parseFloat] of a captured group is never negative, so the lower bound
    of the range test in [parseWeight] never rejects anything. *)
Lemma parseFloat_nonneg s x : parseFloat s = Some x -> (0 <= x)%Q.
Proof.
  unfold parseFloat.
  pose proof (span_digits_fst_digits s) as Hw.
  destruct (span_digits s) as [whole r]; cbn [fst] in Hw.
  destruct whole as [|a whole]; [discriminate|].
  assert (H0 : 0 <= digits_value 0 (String a whole))
    by (apply digits_value_nonneg; [exact Hw | lia]).
  assert (Hdone : forall y, Some (inject_Z (digits_value 0 (String a whole))) = Some y
                            -> (0 <= y)%Q).
  { intros y Hy.
    assert (Hy' : y = inject_Z (digits_value 0 (String a whole))) by congruence.
    subst y. unfold Qle, inject_Z; cbn [Qnum Qden]; lia. }
  destruct r as [|b r]; [apply Hdone|].
  destruct (Ascii.eqb_spec b "."%char) as [->|Hb].
  - pose proof (span_digits_fst_digits r) as Hf.
    destruct (span_digits r) as [frac r']; cbn [fst] in Hf.
    intro Hx.
    assert (Hx' : x = (inject_Z (digits_value 0 (String a whole))
                       + inject_Z (digits_value 0 frac)
                         / inject_Z (10 ^ Z.of_nat (String.length frac)))%Q)
      by congruence.
    subst x; clear Hx.
    assert (H1 : 0 <= digits_value 0 frac)
      by (apply digits_value_nonneg; [exact Hf | lia]).
    assert (H2 : 0 < 10 ^ Z.of_nat (String.length frac))
      by (apply Z.pow_pos_nonneg; lia).
    apply Qle_trans with (inject_Z (digits_value 0 (String a whole)) + 0)%Q.
    + rewrite Qplus_0_r. unfold Qle, inject_Z; cbn [Qnum Qden]; lia.
    + apply Qplus_le_r. apply Qle_shift_div_l.
      * unfold Qlt, inject_Z; cbn [Qnum Qden]; lia.
      * rewrite Qmult_0_l. unfold Qle, inject_Z; cbn [Qnum Qden]; lia.
  - destruct b as [[] [] [] [] [] [] [] []]; try apply Hdone.
    exfalso. apply Hb. reflexivity.
Qed.

(** C4 at the line ["-50"]: the reading is taken as 50 and goes through
    [updateWeight] like any accepted sample: it becomes the current weight,
    enters the stability window and is broadcast. *)
Theorem negative_line_is_accepted now w :
  parseWeight now "-50" w = updateWeight now 50 w
  /\ currentWeight (this (parseWeight now "-50" w)) = 50%Q
  /\ weightBuffer (this (parseWeight now "-50" w))
     = push_shift (weightBuffer (this w)) 50
  /\ emitted w (parseWeight now "-50" w)
     = map (fun c => (c, snd (ingest now 50 (this w))))
           (filter (fun c => mem c (ws_open w)) (wsClients (this w))).
Proof.
  assert (H : parseWeight now "-50" w = updateWeight now 50 w) by reflexivity.
  rewrite H. split; [reflexivity|].
  rewrite updateWeight_this, ingest_buffer, emitted_updateWeight.
  repeat split.
  unfold ingest; cbv zeta.
  match goal with |- context [if ?b then _ else _] => destruct b end; reflexivity.
Qed.

End Parser.

(** * Properties of the subscriber set *)

Section Subscribers.

(** C10.  The message a new subscriber receives on registration carries the
    current weight, the last [stableWeight] and the simulation flag, and its
    [stable] flag is [false] whatever the stability window holds. *)
Theorem snapshot_on_subscribe now ws w :
  emitted w (addWSClient now ws w)
  = [(ws, WeightMsg (currentWeight (this w)) false (stableWeight (this w))
                    (isSimulation (this w)) now)].
Proof.
  unfold emitted, addWSClient; cbn.
  rewrite skipn_app, skipn_all, Nat.sub_diag. reflexivity.
Qed.

(** On a plateau the broadcast says [stable = true]; a subscriber joining
    right afterwards is told [stable = false] with the same [stableWeight]. *)
Example snapshot_after_stable_broadcast :
  let w := updateWeight 1 39169 plateau_world in
  emitted plateau_world w = [(7%nat, WeightMsg 39169 true 39170 false 1)]
  /\ emitted w (addWSClient 2 8%nat w) = [(8%nat, WeightMsg 39169 false 39170 false 2)].
Proof. split; reflexivity. Qed.

End Subscribers.

(** * Properties of the connection manager *)

Section ConnectionManager.

Lemma updateWeight_control now x w : control (updateWeight now x w) = control w.
Proof.
  unfold control, updateWeight, ingest; cbv zeta.
  match goal with |- context [if ?b then _ else _] => destruct b end; reflexivity.
Qed.

Lemma parseWeight_control now data w : control (parseWeight now data w) = control w.
Proof.
  unfold parseWeight; cbv zeta.
  destruct (regex_match1 (trim data)); [|reflexivity].
  destruct (parseFloat s); [|reflexivity].
  destruct (_ && _); [apply updateWeight_control | reflexivity].
Qed.

Lemma remove_id_single sp sp' :
  mem sp [sp'] = true -> remove_id sp [sp'] = [].
Proof.
  unfold mem, remove_id; cbn. destruct (Nat.eqb sp sp'); [reflexivity|discriminate].
Qed.

Ltac split_handlers :=
  repeat match goal with
         | |- context [match ?b with _ => _ end] =>
             lazymatch b with
             | reconnectActive _ => idtac
             | reconnectTimer _ => idtac
             | simInterval _ => idtac
             | isConnected _ => idtac
             | port _ => idtac
             | andb _ _ => idtac
             end;
             let E := fresh "E" in destruct b eqn:E; cbn in *
         end.

Lemma tryConnect_consistent ok w : consistent w -> consistent (_tryConnect ok w).
Proof.
  unfold consistent, control, sound, _tryConnect, fall_back,
    _startReconnectLoop, _startSimulationIfNeeded, on_this.
  intros [Hfeed Hone].
  destruct (reconnectActive (this w)) eqn:Hact; cbn.
  - rewrite Hact. auto.
  - destruct ok; cbn.
    + rewrite Hone. split; [exact Hfeed | exists (made w); reflexivity].
    + split_handlers; split; auto; discriminate.
Qed.

(** [reconnect] up to its last statement: whatever it tears down, what is
    left for [_tryConnect] has the old connection flag, the old attempt flag,
    the old set of owed callbacks, no simulation timer and the old window. *)
Lemma reconnect_prepares path baud ok w :
  exists w4,
    reconnect path baud ok w = _tryConnect ok w4
    /\ isConnected (this w4) = isConnected (this w)
    /\ reconnectActive (this w4) = reconnectActive (this w)
    /\ opening w4 = opening w
    /\ made w4 = made w
    /\ simInterval (this w4) = None
    /\ weightBuffer (this w4) = weightBuffer (this w).
Proof.
  unfold reconnect; cbv zeta. eexists. split; [reflexivity|].
  unfold on_this, _stopReconnectLoop, _stopSimulation. cbn.
  repeat match goal with
         | |- context [match ?b with _ => _ end] => destruct b eqn:?; cbn
         end;
    repeat split; auto.
Qed.

Lemma step_consistent w e w' :
  consistent w -> step w e = Some w' -> consistent w'.
Proof.
  intros Hw Hstep. destruct e; cbn [step] in Hstep.
  - (* initialize *)
    inversion Hstep; subst w'. apply tryConnect_consistent. exact Hw.
  - (* reconnect *)
    inversion Hstep; subst w'.
    destruct (reconnect_prepares path baud ctor_ok w)
      as [w4 [-> [Hc [Ha [Ho [_ [Hs _]]]]]]].
    apply tryConnect_consistent.
    unfold consistent, control, sound. rewrite Hc, Ha, Ho, Hs.
    split; [reflexivity | exact (proj2 Hw)].
  - (* open callback *)
    destruct (mem sp (opening w)) eqn:Hmem; [|discriminate].
    inversion Hstep; subst w'. destruct Hw as [_ Hone].
    assert (Hnone : remove_id sp (opening w) = []).
    { destruct (reconnectActive (this w)).
      - destruct Hone as [sp' Hsp']. rewrite Hsp' in *.
        apply remove_id_single. exact Hmem.
      - rewrite Hone in Hmem. discriminate. }
    unfold consistent, control, sound, open_callback, fall_back, broadcastStatus,
      fan_out, _stopReconnectLoop, _stopSimulation, _startReconnectLoop,
      _startSimulationIfNeeded, on_this.
    destruct err; cbn; rewrite Hnone; split_handlers; split; auto; discriminate.
  - (* data *)
    destruct (mem sp (attached w)); [|discriminate].
    inversion Hstep; subst w'. unfold consistent.
    rewrite parseWeight_control. exact Hw.
  - (* port error *)
    destruct (mem sp (attached w)); [|discriminate].
    inversion Hstep; subst w'. destruct Hw as [_ Hone]. revert Hone.
    unfold consistent, control, sound, _onPortLost, broadcastStatus, fan_out,
      _startReconnectLoop, _startSimulationIfNeeded, on_this.
    cbn. intro Hone. split_handlers; split; auto; discriminate.
  - (* port close *)
    destruct (mem sp (attached w)); [|discriminate].
    inversion Hstep; subst w'. destruct Hw as [_ Hone]. revert Hone.
    unfold consistent, control, sound, _onPortLost, broadcastStatus, fan_out,
      _startReconnectLoop, _startSimulationIfNeeded, on_this.
    cbn. intro Hone. split_handlers; split; auto; discriminate.
  - (* poll tick *)
    destruct (reconnectTimer (this w)) eqn:Et; [|discriminate].
    inversion Hstep; subst w'. destruct Hw as [Hfeed Hone]. revert Hfeed Hone.
    unfold consistent, control, sound, poll_tick, _stopReconnectLoop, on_this.
    cbn. intros Hfeed Hone.
    destruct (isConnected (this w)) eqn:Ec; cbn; rewrite ?Et; cbn; rewrite ?Ec; auto.
  - (* poll answer *)
    destruct (polls w) eqn:Ep; [discriminate|].
    inversion Hstep; subst w'. unfold poll_resume.
    destruct available; [apply tryConnect_consistent|]; exact Hw.
  - (* simulation tick *)
    destruct (simInterval (this w)) as [base|] eqn:Es; [|discriminate].
    inversion Hstep; subst w'. destruct Hw as [Hfeed Hone].
    unfold sim_tick. destruct (isConnected (this w)) eqn:Ec.
    + unfold consistent, control, sound, on_this, _stopSimulation.
      rewrite Es. cbn. split; [reflexivity | exact Hone].
    + unfold consistent. rewrite updateWeight_control.
      unfold control, sound, on_this. cbn.
      rewrite Ec. split; [discriminate | exact Hone].
  - (* subscriber connects *)
    inversion Hstep; subst w'. exact Hw.
  - inversion Hstep; subst w'. exact Hw.
  - inversion Hstep; subst w'. exact Hw.
Qed.

Lemma reachable_consistent w : reachable w -> consistent w.
Proof.
  induction 1 as [|w w' e _ IH Hstep].
  - split; [discriminate | reflexivity].
  - exact (step_consistent w e w' IH Hstep).
Qed.

Lemma run_reachable es : forall w w',
  reachable w -> run w es = Some w' -> reachable w'.
Proof.
  induction es as [|e es IH]; intros w w' Hw Hrun; cbn in Hrun.
  - inversion Hrun; subst; exact Hw.
  - destruct (step w e) as [w1|] eqn:Hstep; [|discriminate].
    apply (IH w1); [|exact Hrun]. exact (reach_step w w1 e Hw Hstep).
Qed.

Lemma simulating_world_reachable : reachable simulating_world.
Proof.
  apply (run_reachable simulating_script boot); [constructor | vm_compute; reflexivity].
Defined.

Lemma connected_world_reachable : reachable connected_world.
Proof.
  apply (run_reachable (simulating_script ++ [EvOpened 1%nat None]) boot);
    [constructor | vm_compute; reflexivity].
Defined.

(** C3.  In every reachable state the real feed and the simulated feed are
    not both active.  Moreover a firing of the simulation timer looks at the
    connection flag first: if the service is connected, that firing disarms
    the timer, produces no sample and sends nothing, and no further firing
    can follow. *)
Theorem feeds_never_both_active :
  (forall w, reachable w -> ~ (real_active w /\ sim_active w))
  /\ (forall w now random w',
        isConnected (this w) = true ->
        step w (EvSimTick now random) = Some w' ->
        simInterval (this w') = None
        /\ weightBuffer (this w') = weightBuffer (this w)
        /\ currentWeight (this w') = currentWeight (this w)
        /\ sent w' = sent w
        /\ forall now' random', step w' (EvSimTick now' random') = None).
Proof.
  split.
  - intros w Hw [[Hconn _] Hsim].
    destruct (reachable_consistent w Hw) as [Hfeed _]. cbn in Hfeed.
    exact (Hsim (Hfeed Hconn)).
  - intros w now random w' Hconn Hstep. cbn [step] in Hstep.
    destruct (simInterval (this w)) as [base|] eqn:Es; [|discriminate].
    unfold sim_tick in Hstep. rewrite Hconn in Hstep.
    inversion Hstep; subst w'; clear Hstep.
    unfold on_this, _stopSimulation. rewrite Es. cbn.
    repeat split; reflexivity.
Qed.

Lemma feeds_never_both_active_witness :
  ~ (real_active connected_world /\ sim_active connected_world)
  /\ simInterval (this (on_this _stopSimulation overlapping_world)) = None.
Proof.
  split.
  - apply (proj1 feeds_never_both_active). exact connected_world_reachable.
  - apply (proj2 feeds_never_both_active overlapping_world 3000 (1 # 2)
             (on_this _stopSimulation overlapping_world)); vm_compute; reflexivity.
Defined.

(** Beside C3.  The ['close'] event of a port that [reconnect] asked to
    close may arrive after the next port has been opened.  [_onPortLost] then
    clears the connection flag and arms the simulation while the new port is
    open and keeps delivering lines: the flag and the timer still exclude
    each other, but samples of both sources reach the window. *)
Example late_close_of_old_port :
  let script :=
    [ EvInitialize "COM3" 9600 true; EvOpened 0%nat None;
      EvReconnect "COM4" 9600 true; EvOpened 1%nat None;
      EvPortClose 0%nat ] in
  let w := world_after script in
  isConnected (this w) = false
  /\ simInterval (this w) = Some 39170
  /\ In 1%nat (attached w)
  /\ weightBuffer
       (this (world_after (script ++ [ EvPortData 1%nat 1000 "ST,GS,+000120kg";
                                       EvSimTick 2000 (1 # 2) ])))
     = [120; 39170]%Q.
Proof. vm_compute. repeat split; auto. Qed.





(** C6.  In every reachable state at most one open callback is owed, and
    the flag [reconnectActive] is set exactly while one is.  [_tryConnect]
    sets the flag when it starts an attempt; the open callback clears it
    whether the open failed or succeeded, and so does the handler of a
    throwing constructor.  A [reconnect] that arrives while an attempt is
    outstanding constructs no port and starts no attempt. *)
Theorem single_attempt_in_flight :
  (forall w, reachable w ->
     (length (opening w) <= 1)%nat
     /\ (reconnectActive (this w) = true <-> opening w <> []))
  /\ (forall w, reconnectActive (this w) = false ->
        reconnectActive (this (_tryConnect true w)) = true
        /\ opening (_tryConnect true w) = opening w ++ [made w]
        /\ reconnectActive (this (_tryConnect false w)) = false
        /\ opening (_tryConnect false w) = opening w)
  /\ (forall w sp err, reconnectActive (this (open_callback sp err w)) = false)
  /\ (forall w path baud ok, reconnectActive (this w) = true ->
        opening (reconnect path baud ok w) = opening w
        /\ made (reconnect path baud ok w) = made w
        /\ reconnectActive (this (reconnect path baud ok w)) = true).
Proof.
  split; [|split; [|split]].
  - intros w Hw. destruct (reachable_consistent w Hw) as [_ Hone]. cbn in Hone.
    destruct (reconnectActive (this w)).
    + destruct Hone as [sp ->]. cbn. split; [lia|]. split; [discriminate|reflexivity].
    + rewrite Hone. cbn. split; [lia|]. split; [discriminate|congruence].
  - intros w Hoff. unfold _tryConnect. rewrite Hoff.
    unfold fall_back, _startReconnectLoop, _startSimulationIfNeeded, on_this. cbn.
    repeat split;
      repeat match goal with
             | |- context [match ?b with _ => _ end] => destruct b eqn:?; cbn
             end; reflexivity.
  - intros w sp err.
    unfold open_callback, fall_back, broadcastStatus, fan_out, _stopReconnectLoop,
      _stopSimulation, _startReconnectLoop, _startSimulationIfNeeded, on_this.
    destruct err; cbn;
      repeat match goal with
             | |- context [match ?b with _ => _ end] => destruct b eqn:?; cbn
             end; reflexivity.
  - intros w path baud ok Hon.
    destruct (reconnect_prepares path baud ok w)
      as [w4 [-> [_ [Ha [Ho [Hm _]]]]]].
    unfold _tryConnect. rewrite Ha, Hon.
    repeat split; congruence.
Qed.

Lemma single_attempt_in_flight_witness :
  ((length (opening simulating_world) <= 1)%nat
   /\ (reconnectActive (this simulating_world) = true
       <-> opening simulating_world <> []))
  /\ reconnectActive (this (_tryConnect true boot)) = true
  /\ (opening (reconnect "COM4" 19200 true connecting_world) = opening connecting_world
      /\ made (reconnect "COM4" 19200 true connecting_world) = made connecting_world
      /\ reconnectActive (this (reconnect "COM4" 19200 true connecting_world)) = true).
Proof.
  destruct single_attempt_in_flight as [Hinv [Hstart [_ Hbusy]]].
  split; [|split].
  - apply Hinv. exact simulating_world_reachable.
  - apply (Hstart boot). reflexivity.
  - apply (Hbusy connecting_world). vm_compute; reflexivity.
Defined.

End ConnectionManager.

(** * Properties of the network printer paths *)

Section PrinterProperties.

Import PrinterService.

Lemma session_of_complete data host port w :
  completes w ->
  session data host port w
  = [SockSetTimeout 10000; SockConnect host port; SockWrite data; SockEnd; SockClosed]
  /\ verdict data host port w = Resolved tt.
Proof.
  intros [t [t' [-> [Ht Ht']]]].
  apply Z.ltb_lt in Ht. apply Z.ltb_lt in Ht'.
  unfold session, verdict, _sendRawToIPPrinter, bind, emit, next_wire, wait, ret, lone.
  cbn. rewrite Ht. cbn. rewrite Ht'. split; reflexivity.
Qed.

Lemma verdict_of_failure data host port w :
  ~ completes w -> exists e, verdict data host port w = Rejected e.
Proof.
  intro Hbad.
  unfold verdict, _sendRawToIPPrinter, send_timed_out, bind, emit, next_wire,
    wait, ret, throw, lone. cbn.
  destruct w as [t msg|t p|]; cbn.
  - destruct (t <? 10000); cbn; eexists; reflexivity.
  - destruct (t <? 10000) eqn:Ht; cbn; [|eexists; reflexivity].
    destruct p as [t'|t' msg|]; cbn.
    + destruct (t' <? 10000) eqn:Ht'; cbn; [|eexists; reflexivity].
      exfalso. apply Hbad. exists t, t'.
      apply Z.ltb_lt in Ht. apply Z.ltb_lt in Ht'. auto.
    + destruct (t' <? 10000); cbn; eexists; reflexivity.
    + eexists; reflexivity.
  - eexists; reflexivity.
Qed.

(** One send consumes one answer of the network, appends its session to the
    trace and touches nothing else but the clock. *)
Lemma send_frame data host port w ws r :
  wires r = w :: ws ->
  let res := _sendRawToIPPrinter data host port r in
  fst res = verdict data host port w
  /\ wires (snd res) = ws
  /\ trace (snd res) = (trace r ++ session data host port w)%list
  /\ files (snd res) = files r
  /\ execs (snd res) = execs r.
Proof.
  intro Hw.
  unfold session, verdict, _sendRawToIPPrinter, send_timed_out, bind, emit,
    next_wire, wait, ret, throw, lone. cbn. rewrite Hw.
  destruct w as [t msg|t p|]; cbn.
  - destruct (t <? 10000); cbn; repeat split;
      repeat rewrite <- app_assoc; reflexivity.
  - destruct (t <? 10000); cbn;
      [destruct p as [t'|t' msg|]; cbn; try destruct (t' <? 10000); cbn|];
      repeat split; repeat rewrite <- app_assoc; reflexivity.
  - repeat split; repeat rewrite <- app_assoc; reflexivity.
Qed.

Section Copies.

Variables (data : bytes) (host : string) (port : Z) (fs : list (string * bytes)).
Variable send : M unit.
Hypothesis send_is_raw :
  forall r, files r = fs -> send r = _sendRawToIPPrinter data host port r.

(** All of the first [length goods] copies go through. *)
Lemma copies_complete goods : forall r ws,
  Forall completes goods -> files r = fs -> wires r = (goods ++ ws)%list ->
  let res := repeat_await (length goods) send r in
  fst res = Resolved tt
  /\ wires (snd res) = ws
  /\ trace (snd res) = (trace r ++ concat (map (session data host port) goods))%list
  /\ files (snd res) = fs
  /\ execs (snd res) = execs r.
Proof.
  induction goods as [|w goods IH]; intros r ws Hgood Hfs Hw; cbn.
  - rewrite app_nil_r. cbn in Hw. auto.
  - inversion Hgood as [|w' l Hc Hrest]; subst.
    destruct (send_frame data host port w (goods ++ ws)%list r Hw)
      as [Hv [Hws [Htr [Hf He]]]].
    destruct (session_of_complete data host port w Hc) as [_ Hok].
    unfold bind. rewrite (send_is_raw r eq_refl).
    destruct (_sendRawToIPPrinter data host port r) as [o r1]; cbn in *.
    rewrite Hv, Hok in *.
    destruct (IH r1 ws Hrest Hf Hws) as [H1 [H2 [H3 [H4 H5]]]].
    repeat split; auto.
    + rewrite H3, Htr, <- app_assoc. reflexivity.
    + congruence.
Qed.

(** A copy that fails ends the loop: the copies after it are never sent. *)
Lemma copies_abort goods : forall n r bad ws,
  Forall completes goods -> ~ completes bad -> files r = fs ->
  wires r = (goods ++ bad :: ws)%list -> (length goods < n)%nat ->
  let res := repeat_await n send r in
  fst res = verdict data host port bad
  /\ wires (snd res) = ws
  /\ trace (snd res)
     = (trace r ++ concat (map (session data host port) (goods ++ [bad])))%list.
Proof.
  induction goods as [|w goods IH]; intros n r bad ws Hgood Hbad Hfs Hw Hn;
    (destruct n as [|n]; [cbn in Hn; lia|]); cbn.
  - destruct (send_frame data host port bad ws r Hw) as [Hv [Hws [Htr _]]].
    destruct (verdict_of_failure data host port bad Hbad) as [e He].
    unfold bind. rewrite (send_is_raw r Hfs).
    destruct (_sendRawToIPPrinter data host port r) as [o r1]; cbn in *.
    rewrite Hv, He. cbn. rewrite app_nil_r. auto.
  - inversion Hgood as [|w' l Hc Hrest]; subst.
    destruct (send_frame data host port w (goods ++ bad :: ws)%list r Hw)
      as [Hv [Hws [Htr [Hf _]]]].
    destruct (session_of_complete data host port w Hc) as [_ Hok].
    unfold bind. rewrite (send_is_raw r eq_refl).
    destruct (_sendRawToIPPrinter data host port r) as [o r1]; cbn in *.
    rewrite Hv, Hok in *.
    destruct (IH n r1 bad ws Hrest Hbad Hf Hws ltac:(lia)) as [H1 [H2 H3]].
    repeat split; auto.
    rewrite H3, Htr, <- app_assoc. reflexivity.
Qed.

End Copies.

Lemma session_writes data host port w d :
  In (SockWrite d) (session data host port w) -> d = data.
Proof.
  unfold session, _sendRawToIPPrinter, send_timed_out, bind, emit, next_wire,
    wait, ret, throw, lone. cbn.
  destruct w as [t msg|t p|]; cbn;
    [destruct (t <? 10000)
    |destruct (t <? 10000);
       [destruct p as [t'|t' msg|]; cbn; try destruct (t' <? 10000)|]
    |]; cbn; intro H;
    repeat (destruct H as [H|H]; [try discriminate H; congruence|]);
    contradiction.
Qed.

(** Whatever the network does, one send appends one session. *)
Lemma send_trace data host port r :
  trace (snd (_sendRawToIPPrinter data host port r))
  = (trace r ++ session data host port (hd Ignores (wires r)))%list.
Proof.
  destruct (wires r) as [|w ws] eqn:Hw.
  - unfold session, _sendRawToIPPrinter, send_timed_out, bind, emit, next_wire,
      wait, ret, throw, lone. cbn. rewrite Hw. cbn.
    repeat rewrite <- app_assoc. reflexivity.
  - exact (proj1 (proj2 (proj2 (send_frame data host port w ws r Hw)))).
Qed.


Lemma sessions_of_complete data host port goods :
  Forall completes goods ->
  concat (map (session data host port) goods)
  = concat (repeat (full_session data host port) (length goods)).
Proof.
  induction 1 as [|w goods Hw _ IH]; cbn; [reflexivity|].
  rewrite (proj1 (session_of_complete data host port w Hw)), IH. reflexivity.
Qed.

Section Dispatch.

Variable Number_toString : Q -> string.
Variable toLocaleDateString : Z -> string.
Variable toLocaleTimeString : Z -> string.
Variable toLocaleString : Z -> string.
Variable self : Service.

Let buildRaw := _buildRawPCL Number_toString toLocaleDateString toLocaleTimeString
                             toLocaleString.
Let viaIP := printViaIP Number_toString toLocaleDateString toLocaleTimeString
                        toLocaleString self.

(** With a renderer that fails, [printViaIP] comes down to the loop of the
    handler, started from a runtime that differs from the initial one in the
    temp files and in the file and process entries of the trace only. *)
Lemma printViaIP_render_breaks now html bill host port copies r m es :
  execs r = Breaks m :: es ->
  exists r1,
    viaIP now html bill host port copies r
    = bind (for_copies copies (_sendRawToIPPrinter (buildRaw bill) host port))
           (fun _ => ret (raw_result host port)) r1
    /\ wires r1 = wires r
    /\ sock_trace r1 = sock_trace r
    /\ execs r1 = es.
Proof.
  intro He. subst viaIP buildRaw.
  unfold printViaIP. cbv zeta.
  generalize (temp_file Number_toString self bill now ".html") as hf.
  generalize (temp_file Number_toString self bill now ".pdf") as pf.
  generalize (_buildRawPCL Number_toString toLocaleDateString toLocaleTimeString
                toLocaleString bill) as raw.
  intros raw pf hf.
  unfold writeFileSync, try_catch, _execAsync, _cleanupTemp, unlink_if_exists,
    lookup_file, emit, store, next_exec, throw.
  unfold bind at 1 2 3 4 5 6. cbn. rewrite He. cbn.
  unfold bind at 1 2 3. cbn. rewrite String.eqb_refl. cbn.
  match goal with
  | |- context [option_map snd ?x] => destruct (option_map snd x)
  end; cbn; eexists; (split; [reflexivity|]); cbn;
    (repeat split; unfold sock_trace; cbn;
     repeat rewrite filter_app; cbn; repeat rewrite app_nil_r; reflexivity).
Qed.

Lemma cleanup_frame fl : forall r,
  fst (_cleanupTemp fl r) = Resolved tt
  /\ wires (snd (_cleanupTemp fl r)) = wires r
  /\ sock_trace (snd (_cleanupTemp fl r)) = sock_trace r
  /\ execs (snd (_cleanupTemp fl r)) = execs r.
Proof.
  induction fl as [|f fl IH]; intro r; cbn; [auto|].
  unfold bind, unlink_if_exists.
  destruct (lookup_file f (files r)); cbn.
  - match goal with |- context [_cleanupTemp fl ?x] => destruct (IH x) as [H1 [H2 [H3 H4]]] end.
    rewrite H1, H2, H3, H4. unfold sock_trace; cbn.
    rewrite filter_app; cbn. rewrite app_nil_r. auto.
  - apply IH.
Qed.

(** With a renderer that succeeds, the PDF it left behind is what every copy
    of the first loop reads. *)
Lemma printViaIP_render_ok now html bill host port copies r pdf es :
  execs r = Produces pdf :: es ->
  exists r1 hf pf,
    viaIP now html bill host port copies r
    = try_catch
        (bind (for_copies copies (_sendFileToIPPrinter pf host port))
              (fun _ => bind (_cleanupTemp [hf; pf])
                             (fun _ => ret (pdf_result host port))))
        (fun _ => bind (_cleanupTemp [hf; pf])
                       (fun _ => bind (for_copies copies
                                         (_sendRawToIPPrinter (buildRaw bill) host port))
                                      (fun _ => ret (raw_result host port)))) r1
    /\ wires r1 = wires r
    /\ sock_trace r1 = sock_trace r
    /\ lookup_file pf (files r1) = Some pdf.
Proof.
  intro He. subst viaIP buildRaw.
  unfold printViaIP. cbv zeta.
  generalize (temp_file Number_toString self bill now ".html") as hf.
  generalize (temp_file Number_toString self bill now ".pdf") as pf.
  generalize (_buildRawPCL Number_toString toLocaleDateString toLocaleTimeString
                toLocaleString bill) as raw.
  intros raw pf hf.
  exists (mkRuntime es (wires r)
            ((pf, pdf) :: filter (fun kv => negb (String.eqb (fst kv) pf))
                            ((hf, html) :: filter (fun kv => negb (String.eqb (fst kv) hf))
                                             (files r)))
            (clock r) ((trace r ++ [FsWrite hf html]) ++ [Exec (Wkhtmltopdf hf pf)])%list),
    hf, pf.
  split; [|split; [reflexivity|split]].
  - unfold writeFileSync, try_catch, _execAsync, emit, store, next_exec.
    unfold bind at 1 2 3 4 5 6 7. cbn. rewrite He. cbn. reflexivity.
  - unfold sock_trace; cbn. repeat rewrite filter_app; cbn.
    repeat rewrite app_nil_r. reflexivity.
  - unfold lookup_file; cbn. rewrite String.eqb_refl. reflexivity.
Qed.

Lemma sendFile_is_raw pf pdf host port fs r :
  lookup_file pf fs = Some pdf -> files r = fs ->
  _sendFileToIPPrinter pf host port r = _sendRawToIPPrinter pdf host port r.
Proof.
  intros Hl Hf. unfold _sendFileToIPPrinter, bind, readFileSync.
  rewrite Hf, Hl. reflexivity.
Qed.

Lemma sock_trace_app r r' extra :
  trace r' = (trace r ++ extra)%list -> (forall a, In a extra -> is_sock a = true) ->
  sock_trace r' = (sock_trace r ++ extra)%list.
Proof.
  intros Ht Hs. unfold sock_trace. rewrite Ht, filter_app. f_equal.
  clear Ht. induction extra as [|a extra IH]; cbn; [reflexivity|].
  rewrite (Hs a (or_introl eq_refl)). f_equal. apply IH.
  intros b Hb. apply Hs. right. exact Hb.
Qed.

Lemma session_is_sock data host port w a :
  In a (session data host port w) -> is_sock a = true.
Proof.
  unfold session, _sendRawToIPPrinter, send_timed_out, bind, emit, next_wire,
    wait, ret, throw, lone. cbn.
  destruct w as [t msg|t p|]; cbn;
    [destruct (t <? 10000)
    |destruct (t <? 10000);
       [destruct p as [t'|t' msg|]; cbn; try destruct (t' <? 10000)|]
    |]; cbn; intro H;
    repeat (destruct H as [H|H]; [subst a; reflexivity|]);
    contradiction.
Qed.

Lemma sessions_are_sock data host port ws a :
  In a (concat (map (session data host port) ws)) -> is_sock a = true.
Proof.
  intro H. apply in_concat in H. destruct H as [l [Hl Ha]].
  apply in_map_iff in Hl. destruct Hl as [w [<- _]].
  exact (session_is_sock _ _ _ _ _ Ha).
Qed.

(** Renderer fails, every requested copy goes through. *)
Lemma raw_path_complete now html bill host port copies r m es goods ws :
  execs r = Breaks m :: es ->
  Forall completes goods -> wires r = (goods ++ ws)%list ->
  length goods = Z.to_nat copies ->
  let res := viaIP now html bill host port copies r in
  fst res = Resolved (raw_result host port)
  /\ sock_trace (snd res)
     = (sock_trace r
        ++ concat (repeat (full_session (buildRaw bill) host port) (length goods)))%list
  /\ wires (snd res) = ws.
Proof.
  intros He Hgood Hw Hlen. cbv zeta.
  destruct (printViaIP_render_breaks now html bill host port copies r m es He)
    as [r1 [-> [Hw1 [Hs1 _]]]].
  rewrite <- Hw1 in Hw.
  unfold bind, for_copies. rewrite <- Hlen.
  destruct (copies_complete (buildRaw bill) host port (files r1)
              (_sendRawToIPPrinter (buildRaw bill) host port)
              (fun _ _ => eq_refl) goods r1 ws Hgood eq_refl Hw)
    as [H1 [H2 [H3 _]]].
  destruct (repeat_await _ _ r1) as [o r2]; cbn in *. subst o. cbn.
  split; [reflexivity|]. split; [|exact H2].
  rewrite <- Hs1, <- (sessions_of_complete _ _ _ _ Hgood).
  apply sock_trace_app; [exact H3 | apply sessions_are_sock].
Qed.

(** Renderer fails, one of the copies fails. *)
Lemma raw_path_abort now html bill host port copies r m es goods bad ws :
  execs r = Breaks m :: es ->
  Forall completes goods -> ~ completes bad ->
  wires r = (goods ++ bad :: ws)%list ->
  (length goods < Z.to_nat copies)%nat ->
  let res := viaIP now html bill host port copies r in
  (exists e, fst res = Rejected e
             /\ verdict (buildRaw bill) host port bad = Rejected e)
  /\ sock_trace (snd res)
     = (sock_trace r
        ++ concat (repeat (full_session (buildRaw bill) host port) (length goods))
        ++ session (buildRaw bill) host port bad)%list
  /\ wires (snd res) = ws.
Proof.
  intros He Hgood Hbad Hw Hlen. cbv zeta.
  destruct (printViaIP_render_breaks now html bill host port copies r m es He)
    as [r1 [-> [Hw1 [Hs1 _]]]].
  rewrite <- Hw1 in Hw.
  unfold bind, for_copies.
  destruct (copies_abort (buildRaw bill) host port (files r1)
              (_sendRawToIPPrinter (buildRaw bill) host port)
              (fun _ _ => eq_refl) goods (Z.to_nat copies) r1 bad ws
              Hgood Hbad eq_refl Hw Hlen)
    as [H1 [H2 H3]].
  destruct (verdict_of_failure (buildRaw bill) host port bad Hbad) as [e He'].
  destruct (repeat_await _ _ r1) as [o r2]; cbn in *.
  rewrite H1, He'. cbn.
  split; [exists e; auto|]. split; [|exact H2].
  rewrite <- Hs1, <- (sessions_of_complete _ _ _ _ Hgood).
  rewrite map_app, concat_app in H3. cbn in H3. rewrite app_nil_r in H3.
  apply sock_trace_app; [exact H3|].
  intros a Ha. apply in_app_or in Ha. destruct Ha as [Ha|Ha].
  - exact (sessions_are_sock _ _ _ _ _ Ha).
  - exact (session_is_sock _ _ _ _ _ Ha).
Qed.

(** Renderer succeeds, every requested copy goes through. *)
Lemma pdf_path_complete now html bill host port copies r pdf es goods ws :
  execs r = Produces pdf :: es ->
  Forall completes goods -> wires r = (goods ++ ws)%list ->
  length goods = Z.to_nat copies ->
  let res := viaIP now html bill host port copies r in
  fst res = Resolved (pdf_result host port)
  /\ sock_trace (snd res)
     = (sock_trace r ++ concat (repeat (full_session pdf host port) (length goods)))%list
  /\ wires (snd res) = ws.
Proof.
  intros He Hgood Hw Hlen. cbv zeta.
  destruct (printViaIP_render_ok now html bill host port copies r pdf es He)
    as [r1 [hf [pf [-> [Hw1 [Hs1 Hl]]]]]].
  rewrite <- Hw1 in Hw.
  unfold try_catch, bind, for_copies. rewrite <- Hlen.
  destruct (copies_complete pdf host port (files r1)
              (_sendFileToIPPrinter pf host port)
              (fun r0 Hr0 => sendFile_is_raw pf pdf host port (files r1) r0 Hl Hr0)
              goods r1 ws Hgood eq_refl Hw)
    as [H1 [H2 [H3 _]]].
  destruct (repeat_await _ _ r1) as [o r2]; cbn [fst snd] in *. subst o.
  destruct (cleanup_frame [hf; pf] r2) as [C1 [C2 [C3 _]]].
  destruct (_cleanupTemp [hf; pf] r2) as [o r3]; cbn [fst snd] in *. subst o.
  cbn. split; [reflexivity|]. split; [|congruence].
  rewrite C3, <- Hs1, <- (sessions_of_complete _ _ _ _ Hgood).
  apply sock_trace_app; [exact H3 | apply sessions_are_sock].
Qed.

(** C7, as amended.  In ip mode the copies are sent one after another, each
    as one complete session (timeout set, connect, write, end, socket
    closed) before the next connect.  When all requested copies go through,
    the result names the path taken: [ip_pdf] with the rendered PDF in every
    write when the renderer succeeded, [ip_raw] with the raw document when
    it failed.  When the renderer failed and a copy of the raw document
    fails, the dispatch rejects with the error of that copy; the copies
    after it are not sent, nothing is retried and no other path is tried. *)
Theorem ip_copies_in_sequence now html bill host port copies r goods :
  Forall completes goods ->
  (forall ws, wires r = (goods ++ ws)%list -> length goods = Z.to_nat copies ->
     (forall pdf es, execs r = Produces pdf :: es ->
        let res := viaIP now html bill host port copies r in
        fst res = Resolved (pdf_result host port)
        /\ sock_trace (snd res)
           = (sock_trace r
              ++ concat (repeat (full_session pdf host port) (length goods)))%list
        /\ wires (snd res) = ws)
     /\ (forall m es, execs r = Breaks m :: es ->
        let res := viaIP now html bill host port copies r in
        fst res = Resolved (raw_result host port)
        /\ sock_trace (snd res)
           = (sock_trace r
              ++ concat (repeat (full_session (buildRaw bill) host port)
                                (length goods)))%list
        /\ wires (snd res) = ws))
  /\ (forall bad ws m es,
        wires r = (goods ++ bad :: ws)%list -> ~ completes bad ->
        (length goods < Z.to_nat copies)%nat ->
        execs r = Breaks m :: es ->
        let res := viaIP now html bill host port copies r in
        (exists e, fst res = Rejected e
                   /\ verdict (buildRaw bill) host port bad = Rejected e)
        /\ sock_trace (snd res)
           = (sock_trace r
              ++ concat (repeat (full_session (buildRaw bill) host port)
                                (length goods))
              ++ session (buildRaw bill) host port bad)%list
        /\ wires (snd res) = ws).
Proof.
  intro Hgood. split.
  - intros ws Hw Hlen. split.
    + intros pdf es He. exact (pdf_path_complete _ _ _ _ _ _ _ _ _ _ _ He Hgood Hw Hlen).
    + intros m es He. exact (raw_path_complete _ _ _ _ _ _ _ _ _ _ _ He Hgood Hw Hlen).
  - intros bad ws m es Hw Hbad Hlen He.
    exact (raw_path_abort _ _ _ _ _ _ _ _ _ _ _ _ He Hgood Hbad Hw Hlen).
Qed.

Variable Company : Type.
Variable buildBillHTML : WeighBill -> Company -> string.
Variable printViaLocal : string -> WeighBill -> string -> Z -> M PrintResult.
Variable printViaPDF : string -> WeighBill -> string -> Z -> M PrintResult.





End Dispatch.

(** C9.  The reachability probe always resolves and never rejects; it
    writes nothing on the socket, also when the connection is accepted; it
    settles no later than 4000 ms after it started; and when the connection
    is refused (with the error text of the transport, which is not empty) or
    gets no answer before the timer fires, the result has [reachable = false]
    and a non-empty error string. *)
Theorem probe_of_dead_printer host port_arg r :
  let res := testIPPrinter host port_arg r in
  (exists result, fst res = Resolved result)
  /\ (forall d, In (SockWrite d) (trace (snd res)) -> In (SockWrite d) (trace r))
  /\ clock (snd res) <= clock r + 4000
  /\ (match hd Ignores (wires r) with
      | Refuses _ message => message <> ""%string
      | Accepts after _ => 4000 <= after
      | Ignores => True
      end ->
      exists result e,
        fst res = Resolved result
        /\ reachable result = false
        /\ p_error result = Some e
        /\ e <> ""%string).
Proof.
  cbv zeta.
  unfold testIPPrinter, probe_timed_out, bind, emit, next_wire, wait, ret. cbn.
  destruct (wires r) as [|w ws] eqn:Hw; cbn.
  - split; [eexists; reflexivity|]. split; [|split; [lia|]].
    + intros d Hin. repeat (apply in_app_or in Hin; destruct Hin as [Hin|Hin]);
        try exact Hin;
        repeat (destruct Hin as [Hin|Hin]; [discriminate Hin|]); contradiction.
    + intros _. eexists; eexists. repeat split; discriminate.
  - destruct w as [t msg|t p|]; cbn.
    + destruct (Z.ltb_spec t 4000) as [Ht|Ht]; cbn;
        (split; [eexists; reflexivity|]); (split; [|split; [lia|]]).
      * intros d Hin. repeat (apply in_app_or in Hin; destruct Hin as [Hin|Hin]);
          try exact Hin;
          repeat (destruct Hin as [Hin|Hin]; [discriminate Hin|]); contradiction.
      * intros Hmsg. exists (mkProbe false host
                               match port_arg with Some p => p | None => 9100 end
                               (Some msg)), msg.
        repeat split; auto.
      * intros d Hin. repeat (apply in_app_or in Hin; destruct Hin as [Hin|Hin]);
          try exact Hin;
          repeat (destruct Hin as [Hin|Hin]; [discriminate Hin|]); contradiction.
      * intros _. eexists; eexists. repeat split; discriminate.
    + destruct (Z.ltb_spec t 4000) as [Ht|Ht]; cbn;
        (split; [eexists; reflexivity|]); (split; [|split; [lia|]]).
      * intros d Hin. repeat (apply in_app_or in Hin; destruct Hin as [Hin|Hin]);
          try exact Hin;
          repeat (destruct Hin as [Hin|Hin]; [discriminate Hin|]); contradiction.
      * intros Hlate. lia.
      * intros d Hin. repeat (apply in_app_or in Hin; destruct Hin as [Hin|Hin]);
          try exact Hin;
          repeat (destruct Hin as [Hin|Hin]; [discriminate Hin|]); contradiction.
      * intros _. eexists; eexists. repeat split; discriminate.
    + split; [eexists; reflexivity|]. split; [|split; [lia|]].
      * intros d Hin. repeat (apply in_app_or in Hin; destruct Hin as [Hin|Hin]);
          try exact Hin;
          repeat (destruct Hin as [Hin|Hin]; [discriminate Hin|]); contradiction.
      * intros _. eexists; eexists. repeat split; discriminate.
Qed.

(** *** Concrete runs *)

Local Open Scope string_scope.

Lemma two_good_complete : Forall completes two_good.
Proof.
  repeat constructor.
  - exists 5, 120. repeat split; reflexivity.
  - exists 4, 90. repeat split; reflexivity.
Defined.

Lemma ip_copies_in_sequence_witness :
  fst (demo_viaIP 2 (demo_runtime [Breaks "wkhtmltopdf: not found"] two_good))
  = Resolved (raw_result "10.0.0.9" 9100)
  /\ fst (demo_viaIP 2 (demo_runtime [Produces "%PDF-1.4"] two_good))
     = Resolved (pdf_result "10.0.0.9" 9100).
Proof.
  destruct (ip_copies_in_sequence demo_number demo_date demo_date demo_date
              demo_service 1700000700000 "<html>receipt</html>" demo_bill
              "10.0.0.9" 9100 2
              (demo_runtime [Breaks "wkhtmltopdf: not found"] two_good)
              two_good two_good_complete) as [Hraw _].
  destruct (ip_copies_in_sequence demo_number demo_date demo_date demo_date
              demo_service 1700000700000 "<html>receipt</html>" demo_bill
              "10.0.0.9" 9100 2
              (demo_runtime [Produces "%PDF-1.4"] two_good)
              two_good two_good_complete) as [Hpdf _].
  split.
  - exact (proj1 (proj2 (Hraw [] eq_refl eq_refl) _ _ eq_refl)).
  - exact (proj1 (proj1 (Hpdf [] eq_refl eq_refl) _ _ eq_refl)).
Defined.

(** C7 fails as stated.  (a) Renderer fails and the first raw copy is
    refused: the dispatch rejects with the bare error text; no result, and so
    no method, is reported.  (b) Renderer succeeds and the first PDF copy is
    refused: the failure is caught by the handler meant for the renderer,
    the path switches to the raw document and two more connections are made;
    the result is a success with method [ip_raw]. *)
Lemma ip_failure_counterexample :
  (fst (demo_viaIP 2 (demo_runtime [Breaks "wkhtmltopdf: not found"] [refusal]))
   = Rejected "IP Printer error: connect ECONNREFUSED 10.0.0.9:9100"
   /\ forall result,
        fst (demo_viaIP 2 (demo_runtime [Breaks "wkhtmltopdf: not found"] [refusal]))
        <> Resolved result)
  /\ (fst (demo_viaIP 2 (demo_runtime [Produces "%PDF-1.4"] (refusal :: two_good)))
      = Resolved (raw_result "10.0.0.9" 9100)
      /\ connects (trace (snd (demo_viaIP 2
                     (demo_runtime [Produces "%PDF-1.4"] (refusal :: two_good))))) = 3%nat).
Proof.
  split; [split|split].
  - vm_compute. reflexivity.
  - intros result H. vm_compute in H. discriminate H.
  - vm_compute. reflexivity.
  - vm_compute. reflexivity.
Qed.


Lemma probe_of_dead_printer_witness :
  exists result e,
    fst (testIPPrinter "127.0.0.1" (Some 9)
           (demo_runtime [] [Refuses 2 "connect ECONNREFUSED 127.0.0.1:9"]))
    = Resolved result
    /\ reachable result = false /\ p_error result = Some e /\ e <> ""%string.
Proof.
  apply (proj2 (proj2 (proj2
           (probe_of_dead_printer "127.0.0.1" (Some 9)
              (demo_runtime [] [Refuses 2 "connect ECONNREFUSED 127.0.0.1:9"]))))).
  cbn. discriminate.
Defined.

End PrinterProperties.

(** * Invariants of the weight feed *)

Section FeedInvariants.

(** [updateWeight] leaves the flags, the timers and the subscriber set
    alone. *)
Lemma updateWeight_flags now x w :
  isConnected (this (updateWeight now x w)) = isConnected (this w)
  /\ isSimulation (this (updateWeight now x w)) = isSimulation (this w)
  /\ simInterval (this (updateWeight now x w)) = simInterval (this w)
  /\ reconnectTimer (this (updateWeight now x w)) = reconnectTimer (this w)
  /\ wsClients (this (updateWeight now x w)) = wsClients (this w)
  /\ ws_open (updateWeight now x w) = ws_open w.
Proof.
  unfold updateWeight, ingest; cbv zeta.
  match goal with |- context [if ?b then _ else _] => destruct b end;
    repeat split; reflexivity.
Qed.

(** A line either changes nothing or is one accepted sample of the range. *)
Lemma parseWeight_cases now data w :
  parseWeight now data w = w
  \/ exists x, (0 <= x)%Q /\ (x < 200000)%Q
               /\ parseWeight now data w = updateWeight now x w.
Proof.
  unfold parseWeight; cbv zeta.
  destruct (regex_match1 (trim data)) as [m|]; [|left; reflexivity].
  destruct (parseFloat m) as [x|]; [|left; reflexivity].
  destruct (Qle_bool 0 x) eqn:Hlo; cbn [andb]; [|left; reflexivity].
  destruct (Qltb x 200000) eqn:Hhi; [|left; reflexivity].
  right. exists x. apply Qle_bool_iff in Hlo.
  unfold Qltb in Hhi. apply negb_true_iff in Hhi.
  split; [exact Hlo|]. split; [|reflexivity].
  apply Qnot_le_lt. intro H. apply Qle_bool_iff in H. congruence.
Qed.

Lemma Forall_fan_out (P : message -> Prop) msg w :
  P msg -> Forall (fun cm => P (snd cm)) (sent w) ->
  Forall (fun cm => P (snd cm)) (sent (fan_out msg w)).
Proof.
  intros Hm Hs. unfold fan_out; cbn. apply Forall_app. split; [exact Hs|].
  apply Forall_forall. intros [c m] Hin. apply in_map_iff in Hin.
  destruct Hin as [c' [Heq _]]. inversion Heq; subst. exact Hm.
Qed.

Lemma updateWeight_coherent now x w : coherent w -> coherent (updateWeight now x w).
Proof.
  intros [H1 H2 H3 H4 H5].
  destruct (updateWeight_flags now x w) as [F1 [F2 [F3 [F4 [F5 _]]]]].
  constructor; rewrite ?F1, ?F2, ?F3, ?F4, ?F5; auto.
  rewrite updateWeight_sent. apply Forall_app. split; [exact H4|].
  apply Forall_forall. intros [c m] Hin. apply in_map_iff in Hin.
  destruct Hin as [c' [Heq _]]. inversion Heq; subst. exact I.
Qed.

Lemma tryConnect_coherent ok w : coherent w -> coherent (_tryConnect ok w).
Proof.
  intros [H1 H2 H3 H4 H5].
  unfold _tryConnect, fall_back, _startReconnectLoop, _startSimulationIfNeeded, on_this.
  destruct (reconnectActive (this w)); [constructor; assumption|].
  destruct ok; cbn.
  - constructor; cbn; assumption.
  - destruct (simInterval (this w)) eqn:Es; cbn;
      destruct (reconnectTimer (this w)) eqn:Et; cbn;
      constructor; cbn; auto; discriminate.
Qed.

Lemma remove_id_NoDup x l : NoDup l -> NoDup (remove_id x l).
Proof. intro H. unfold remove_id. apply NoDup_filter. exact H. Qed.

Lemma mem_In x l : mem x l = true <-> In x l.
Proof.
  unfold mem. rewrite existsb_exists. split.
  - intros [y [Hy He]]. apply Nat.eqb_eq in He. subst. exact Hy.
  - intro H. exists x. split; [exact H | apply Nat.eqb_refl].
Qed.

(** [reconnect] up to its last statement: both timers are disarmed; the
    flags, the readings, the subscribers and the send log are as before. *)
Lemma reconnect_tears_down path baud ok w :
  exists w4,
    reconnect path baud ok w = _tryConnect ok w4
    /\ isConnected (this w4) = isConnected (this w)
    /\ isSimulation (this w4) = isSimulation (this w)
    /\ simInterval (this w4) = None
    /\ reconnectTimer (this w4) = false
    /\ sent w4 = sent w
    /\ wsClients (this w4) = wsClients (this w)
    /\ ws_open w4 = ws_open w
    /\ weightBuffer (this w4) = weightBuffer (this w)
    /\ currentWeight (this w4) = currentWeight (this w)
    /\ stableWeight (this w4) = stableWeight (this w).
Proof.
  unfold reconnect; cbv zeta. eexists. split; [reflexivity|].
  unfold on_this, _stopReconnectLoop, _stopSimulation. cbn.
  repeat match goal with
         | |- context [match ?b with _ => _ end] => destruct b eqn:?; cbn
         end;
    repeat split; auto.
Qed.

Lemma step_coherent w e w' : coherent w -> step w e = Some w' -> coherent w'.
Proof.
  intros Hw Hstep. destruct e; cbn [step] in Hstep.
  - inversion Hstep; subst w'. apply tryConnect_coherent.
    destruct Hw; constructor; cbn; assumption.
  - inversion Hstep; subst w'.
    destruct (reconnect_tears_down path baud ctor_ok w)
      as [w4 [-> [E1 [E2 [E3 [E4 [E5 [E6 _]]]]]]]].
    apply tryConnect_coherent. destruct Hw as [H1 H2 H3 H4 H5].
    constructor; rewrite ?E1, ?E2, ?E3, ?E4, ?E5, ?E6; auto; congruence.
  - destruct (mem sp (opening w)); [|discriminate].
    inversion Hstep; subst w'. destruct Hw as [H1 H2 H3 H4 H5].
    unfold open_callback, fall_back, broadcastStatus, _stopReconnectLoop,
      _stopSimulation, _startReconnectLoop, _startSimulationIfNeeded, on_this.
    destruct err; cbn.
    + destruct (simInterval (this w)) eqn:Es; cbn;
        destruct (reconnectTimer (this w)) eqn:Et; cbn;
        constructor; cbn; auto; discriminate.
    + destruct (simInterval (this w)) eqn:Es; cbn;
        destruct (reconnectTimer (this w)) eqn:Et; cbn;
        constructor; cbn; auto; try congruence;
        (apply Forall_app; split; [exact H4|];
         apply Forall_forall; intros [c m] Hin; apply in_map_iff in Hin;
         destruct Hin as [c' [Heq _]]; inversion Heq; subst; reflexivity).
  - destruct (mem sp (attached w)); [|discriminate].
    inversion Hstep; subst w'.
    destruct (parseWeight_cases now line w) as [->|[x [_ [_ ->]]]];
      [exact Hw | apply updateWeight_coherent; exact Hw].
  - destruct (mem sp (attached w)); [|discriminate].
    inversion Hstep; subst w'. destruct Hw as [H1 H2 H3 H4 H5].
    unfold _onPortLost, broadcastStatus, _startReconnectLoop,
      _startSimulationIfNeeded, on_this. cbn.
    destruct (simInterval (this w)) eqn:Es; cbn;
      destruct (reconnectTimer (this w)) eqn:Et; cbn;
      constructor; cbn; auto; try discriminate;
      (apply Forall_app; split; [exact H4|];
       apply Forall_forall; intros [c m] Hin; apply in_map_iff in Hin;
       destruct Hin as [c' [Heq _]]; inversion Heq; subst; reflexivity).
  - destruct (mem sp (attached w)); [|discriminate].
    inversion Hstep; subst w'. destruct Hw as [H1 H2 H3 H4 H5].
    unfold _onPortLost, broadcastStatus, _startReconnectLoop,
      _startSimulationIfNeeded, on_this. cbn.
    destruct (simInterval (this w)) eqn:Es; cbn;
      destruct (reconnectTimer (this w)) eqn:Et; cbn;
      constructor; cbn; auto; try discriminate;
      (apply Forall_app; split; [exact H4|];
       apply Forall_forall; intros [c m] Hin; apply in_map_iff in Hin;
       destruct Hin as [c' [Heq _]]; inversion Heq; subst; reflexivity).
  - destruct (reconnectTimer (this w)) eqn:Et; [|discriminate].
    inversion Hstep; subst w'. destruct Hw as [H1 H2 H3 H4 H5].
    unfold poll_tick, _stopReconnectLoop, on_this.
    destruct (isConnected (this w)) eqn:Ec; cbn; rewrite ?Et; cbn;
      constructor; cbn; auto; congruence.
  - destruct (polls w) eqn:Ep; [discriminate|].
    inversion Hstep; subst w'. unfold poll_resume.
    assert (Hw1 : coherent (with_polls (Nat.pred (polls w)) w))
      by (destruct Hw; constructor; cbn; assumption).
    destruct available; [apply tryConnect_coherent|]; exact Hw1.
  - destruct (simInterval (this w)) as [base|] eqn:Es; [|discriminate].
    inversion Hstep; subst w'. unfold sim_tick.
    destruct (isConnected (this w)) eqn:Ec.
    + destruct Hw as [H1 H2 H3 H4 H5].
      unfold on_this, _stopSimulation. rewrite Es.
      constructor; cbn; auto; congruence.
    + apply updateWeight_coherent. destruct Hw as [H1 H2 H3 H4 H5].
      constructor; cbn; auto; try congruence.
      intros _. apply H3. rewrite Es. discriminate.
  - inversion Hstep; subst w'. destruct Hw as [H1 H2 H3 H4 H5].
    unfold addWSClient, on_this. cbn.
    constructor; cbn; auto.
    + apply Forall_app. split; [exact H4|]. repeat constructor.
    + destruct (mem ws (wsClients (this w))) eqn:Hm; [exact H5|].
      apply NoDup_app; [exact H5 | repeat constructor; intros [] |].
      intros a Ha [<-|[]].
      apply (proj2 (mem_In _ _)) in Ha. congruence.
  - inversion Hstep; subst w'. destruct Hw; constructor; cbn; assumption.
  - inversion Hstep; subst w'. destruct Hw as [H1 H2 H3 H4 H5].
    unfold ws_closed, on_this. constructor; cbn; auto.
    apply remove_id_NoDup. exact H5.
Qed.

Lemma reachable_coherent w : reachable w -> coherent w.
Proof.
  induction 1 as [|w w' e _ IH Hstep].
  - constructor; cbn; try discriminate; try congruence; constructor.
  - exact (step_coherent w e w' IH Hstep).
Qed.

End FeedInvariants.

Section Readings.

Lemma In_push_shift y buf x : In y (push_shift buf x) -> In y buf \/ y = x.
Proof.
  unfold push_shift. cbv zeta. intro H.
  assert (Hin : In y (buf ++ [x])).
  { destruct (5 <? length (buf ++ [x]))%nat; [|exact H].
    destruct (buf ++ [x]); [contradiction | right; exact H]. }
  apply in_app_or in Hin. destruct Hin as [Hin|[<-|[]]]; auto.
Qed.

Lemma fold_sum_nonneg buf : forall acc,
  (0 <= acc)%Q -> (forall y, In y buf -> (0 <= y)%Q) ->
  (0 <= fold_left Qplus buf acc)%Q.
Proof.
  induction buf as [|a buf IH]; intros acc Hacc Hall; cbn; [exact Hacc|].
  apply IH.
  - rewrite <- (Qplus_0_r 0). apply Qplus_le_compat; [exact Hacc|].
    apply Hall. left. reflexivity.
  - intros y Hy. apply Hall. right. exact Hy.
Qed.

Lemma average_nonneg buf :
  (forall y, In y buf -> (0 <= y)%Q) -> (0 <= average buf)%Q.
Proof.
  intro Hall. unfold average, Qdiv. apply Qmult_le_0_compat.
  - apply fold_sum_nonneg; [apply Qle_refl | exact Hall].
  - apply Qinv_le_0_compat. unfold Qle, inject_Z; cbn [Qnum Qden]. lia.
Qed.

Lemma Math_round_nonneg x : (0 <= x)%Q -> 0 <= Math_round x.
Proof.
  intro Hx. unfold Math_round.
  change 0 with (Qfloor 0). apply Qfloor_resp_le.
  rewrite <- (Qplus_0_r 0). apply Qplus_le_compat; [exact Hx | discriminate].
Qed.

Lemma plausible_readings s s' :
  readings s' = readings s -> plausible s -> plausible s'.
Proof.
  unfold readings. intros Heq [H1 H2 H3 H4].
  inversion Heq as [[Hc Hb Hs]].
  constructor; rewrite ?Hc, ?Hb, ?Hs; assumption.
Qed.

Lemma ingest_plausible now x s :
  (0 <= x)%Q -> plausible s -> plausible (fst (ingest now x s)).
Proof.
  intros Hx [H1 H2 H3 H4].
  assert (Hwin : forall y, In y (push_shift (weightBuffer s) x) -> (0 <= y)%Q).
  { intros y Hy. apply In_push_shift in Hy. destruct Hy as [Hy | ->]; auto. }
  constructor.
  - rewrite ingest_buffer. apply push_shift_capacity. exact H1.
  - rewrite ingest_buffer. exact Hwin.
  - unfold ingest; cbv zeta.
    match goal with |- context [if ?b then _ else _] => destruct b end; exact Hx.
  - rewrite ingest_stableWeight. cbv zeta.
    match goal with |- context [if ?b then _ else _] => destruct b end;
      [apply Math_round_nonneg, average_nonneg, Hwin | exact H4].
Qed.

Lemma tryConnect_readings ok w :
  readings (this (_tryConnect ok w)) = readings (this w).
Proof.
  unfold _tryConnect, fall_back, _startReconnectLoop, _startSimulationIfNeeded,
    on_this, readings.
  repeat match goal with
         | |- context [match ?b with _ => _ end] => destruct b eqn:?; cbn
         end; reflexivity.
Qed.

(** One turn of the event loop either keeps the three readings or is one
    ingest of a non-negative sample. *)
Lemma step_readings w e w' :
  step w e = Some w' ->
  readings (this w') = readings (this w)
  \/ exists now x s0,
       (0 <= x)%Q /\ readings s0 = readings (this w)
       /\ this w' = fst (ingest now x s0).
Proof.
  intro Hstep. destruct e; cbn [step] in Hstep.
  - inversion Hstep; subst w'. left. unfold initialize.
    rewrite tryConnect_readings. reflexivity.
  - inversion Hstep; subst w'. left.
    destruct (reconnect_tears_down path baud ctor_ok w)
      as [w4 [-> [_ [_ [_ [_ [_ [_ [_ [E1 [E2 E3]]]]]]]]]]].
    rewrite tryConnect_readings. unfold readings. congruence.
  - destruct (mem sp (opening w)); [|discriminate].
    inversion Hstep; subst w'. left.
    unfold open_callback, fall_back, broadcastStatus, fan_out, _stopReconnectLoop,
      _stopSimulation, _startReconnectLoop, _startSimulationIfNeeded, on_this,
      readings.
    destruct err; cbn;
      repeat match goal with
             | |- context [match ?b with _ => _ end] => destruct b eqn:?; cbn
             end; reflexivity.
  - destruct (mem sp (attached w)); [|discriminate].
    inversion Hstep; subst w'.
    destruct (parseWeight_cases now line w) as [-> | [x [Hx [_ ->]]]];
      [left; reflexivity|].
    right. exists now, x, (this w). repeat split; auto.
  - destruct (mem sp (attached w)); [|discriminate].
    inversion Hstep; subst w'. left.
    unfold _onPortLost, broadcastStatus, fan_out, _startReconnectLoop,
      _startSimulationIfNeeded, on_this, readings. cbn.
    repeat match goal with
           | |- context [match ?b with _ => _ end] => destruct b eqn:?; cbn
           end; reflexivity.
  - destruct (mem sp (attached w)); [|discriminate].
    inversion Hstep; subst w'. left.
    unfold _onPortLost, broadcastStatus, fan_out, _startReconnectLoop,
      _startSimulationIfNeeded, on_this, readings. cbn.
    repeat match goal with
           | |- context [match ?b with _ => _ end] => destruct b eqn:?; cbn
           end; reflexivity.
  - destruct (reconnectTimer (this w)) eqn:Et; [|discriminate].
    inversion Hstep; subst w'. left.
    unfold poll_tick, _stopReconnectLoop, on_this, readings.
    destruct (isConnected (this w)); cbn; rewrite ?Et; reflexivity.
  - destruct (polls w); [discriminate|].
    inversion Hstep; subst w'. left. unfold poll_resume.
    destruct available; [rewrite tryConnect_readings|]; reflexivity.
  - destruct (simInterval (this w)) as [base|] eqn:Es; [|discriminate].
    inversion Hstep; subst w'. unfold sim_tick.
    destruct (isConnected (this w)).
    + left. unfold on_this, _stopSimulation, readings. rewrite Es. reflexivity.
    + right. eexists now, _, _. split; [|split; [|reflexivity]].
      * unfold Qle, inject_Z; cbn [Qnum Qden]. lia.
      * reflexivity.
  - inversion Hstep; subst w'. left. reflexivity.
  - inversion Hstep; subst w'. left. reflexivity.
  - inversion Hstep; subst w'. left. reflexivity.
Qed.

Lemma reachable_plausible w : reachable w -> plausible (this w).
Proof.
  induction 1 as [|w w' e _ IH Hstep].
  - constructor; cbn; try lia; try discriminate; intros y [].
  - destruct (step_readings w e w' Hstep) as [Heq|[now [x [s0 [Hx [Heq ->]]]]]].
    + exact (plausible_readings _ _ Heq IH).
    + apply ingest_plausible; [exact Hx|].
      exact (plausible_readings _ _ Heq IH).
Qed.

End Readings.

(** * Further properties of the weight feed *)

Section FeedProperties.

Lemma subscribed_world_reachable : reachable subscribed_world.
Proof.
  apply (run_reachable subscribed_script boot); [constructor | vm_compute; reflexivity].
Defined.

(** X1.  After any run of the event loop the stability window holds at most
    five samples, no sample in it is negative, and neither the current weight
    nor the stable weight is negative. *)
Theorem readings_bounded_and_nonnegative w :
  reachable w ->
  (length (weightBuffer (this w)) <= 5)%nat
  /\ (forall y, In y (weightBuffer (this w)) -> (0 <= y)%Q)
  /\ (0 <= rd_weight (getCurrentWeight (this w)))%Q
  /\ 0 <= rd_stableWeight (getCurrentWeight (this w)).
Proof.
  intro Hw. destruct (reachable_plausible w Hw) as [H1 H2 H3 H4].
  repeat split; assumption.
Qed.

Lemma readings_bounded_and_nonnegative_witness :
  (length (weightBuffer (this subscribed_world)) <= 5)%nat
  /\ (forall y, In y (weightBuffer (this subscribed_world)) -> (0 <= y)%Q)
  /\ (0 <= rd_weight (getCurrentWeight (this subscribed_world)))%Q
  /\ 0 <= rd_stableWeight (getCurrentWeight (this subscribed_world)).
Proof.
  apply readings_bounded_and_nonnegative. exact subscribed_world_reachable.
Defined.

(** X2.  Every status event the service has ever sent has exactly one of
    its two flags set: [connected] is the negation of [simulation]. *)
Theorem status_events_are_exclusive w c connected simulation :
  reachable w ->
  In (c, StatusMsg connected simulation) (sent w) ->
  connected = negb simulation.
Proof.
  intros Hw Hin. destruct (reachable_coherent w Hw) as [_ _ _ H4 _].
  rewrite Forall_forall in H4. exact (H4 _ Hin).
Qed.

Lemma status_events_are_exclusive_witness : false = negb true.
Proof.
  apply (status_events_are_exclusive subscribed_world 7%nat false true).
  - exact subscribed_world_reachable.
  - vm_compute. do 4 right. left. reflexivity.
Defined.

(** X3.  After any run: while the service is connected, neither timer is
    armed and the simulation flag is off, so no poll tick and no simulation
    tick can fire; while the simulation timer is armed, the simulation flag
    is on, and every weight event a simulation tick sends says
    [simulation = true]. *)
Theorem flags_follow_the_timers w :
  reachable w ->
  (isConnected (this w) = true ->
     isSimulation (this w) = false
     /\ step w EvPollTick = None
     /\ forall now random, step w (EvSimTick now random) = None)
  /\ (simInterval (this w) <> None ->
      isSimulation (this w) = true
      /\ isConnected (this w) = false
      /\ forall now random w' c m,
           step w (EvSimTick now random) = Some w' ->
           In (c, m) (emitted w w') -> msg_simulation m = true).
Proof.
  intro Hw. destruct (reachable_coherent w Hw) as [H1 H2 H3 _ _].
  destruct (reachable_consistent w Hw) as [Hfeed _]. cbn in Hfeed.
  split.
  - intro Hc. split; [exact (H2 Hc)|]. split.
    + cbn. rewrite (H1 Hc). reflexivity.
    + intros now random. cbn. rewrite (Hfeed Hc). reflexivity.
  - intro Hs. split; [exact (H3 Hs)|].
    assert (Hc : isConnected (this w) = false).
    { destruct (isConnected (this w)) eqn:E; [|reflexivity].
      exfalso. apply Hs. apply Hfeed. reflexivity. }
    split; [exact Hc|].
    intros now random w' c m Hstep Hin. cbn [step] in Hstep.
    destruct (simInterval (this w)) as [base|] eqn:Es; [|discriminate].
    unfold sim_tick in Hstep. rewrite Hc in Hstep.
    inversion Hstep; subst w'; clear Hstep.
    unfold emitted in Hin. rewrite updateWeight_sent in Hin.
    cbn [sent on_this with_this] in Hin.
    rewrite skipn_app, skipn_all, Nat.sub_diag in Hin. cbn [skipn app] in Hin.
    apply in_map_iff in Hin. destruct Hin as [c' [Heq _]].
    apply (f_equal snd) in Heq. cbn [snd] in Heq. subst m.
    unfold ingest; cbv zeta.
    match goal with |- context [if ?b then _ else _] => destruct b end;
      cbn; apply H3; discriminate.
Qed.

Lemma flags_follow_the_timers_witness :
  isSimulation (this subscribed_world) = true
  /\ isSimulation (this connected_world) = false.
Proof.
  split.
  - destruct (proj2 (flags_follow_the_timers subscribed_world
                       subscribed_world_reachable)) as [H _];
      [vm_compute; discriminate | exact H].
  - destruct (proj1 (flags_follow_the_timers connected_world
                       connected_world_reachable)) as [H _];
      [vm_compute; reflexivity | exact H].
Defined.

(** X4.  After any run, one [updateWeight] sends one and the same weight
    event to every registered subscriber whose socket is open, to each of
    them exactly once, and to nobody else. *)
Theorem broadcast_reaches_each_open_subscriber_once now x w :
  reachable w ->
  let out := emitted w (updateWeight now x w) in
  NoDup (map fst out)
  /\ (forall c, In c (map fst out)
                <-> In c (wsClients (this w)) /\ In c (ws_open w))
  /\ (forall c m, In (c, m) out -> m = snd (ingest now x (this w))).
Proof.
  intro Hw. cbv zeta. rewrite emitted_updateWeight.
  destruct (reachable_coherent w Hw) as [_ _ _ _ H5].
  rewrite map_map. cbn [fst]. rewrite map_id.
  split; [apply NoDup_filter; exact H5|]. split.
  - intro c. rewrite filter_In, mem_In. reflexivity.
  - intros c m Hin. apply in_map_iff in Hin. destruct Hin as [c' [Heq _]].
    apply (f_equal snd) in Heq. cbn [snd] in Heq. congruence.
Qed.

Lemma broadcast_reaches_each_open_subscriber_once_witness :
  NoDup (map fst (emitted subscribed_world (updateWeight 1500 39171 subscribed_world))).
Proof.
  apply (proj1 (broadcast_reaches_each_open_subscriber_once 1500 39171
                  subscribed_world subscribed_world_reachable)).
Defined.

End FeedProperties.

Section SendLog.

Lemma fan_out_sent msg w :
  sent (fan_out msg w)
  = sent w ++ map (fun c => (c, msg))
                  (filter (fun c => mem c (ws_open w)) (wsClients (this w))).
Proof. reflexivity. Qed.

Lemma fan_recipient (msg : message) w c (m : message) :
  In (c, m) (map (fun c => (c, msg))
                 (filter (fun c => mem c (ws_open w)) (wsClients (this w)))) ->
  In c (wsClients (this w)) /\ In c (ws_open w).
Proof.
  intro H. apply in_map_iff in H. destruct H as [c' [Heq Hin]].
  inversion Heq; subst. apply filter_In in Hin. rewrite mem_In in Hin. exact Hin.
Qed.

Lemma tryConnect_sent ok w :
  sent (_tryConnect ok w) = sent w
  /\ wsClients (this (_tryConnect ok w)) = wsClients (this w)
  /\ ws_open (_tryConnect ok w) = ws_open w.
Proof.
  unfold _tryConnect, fall_back, _startReconnectLoop, _startSimulationIfNeeded, on_this.
  repeat match goal with
         | |- context [match ?b with _ => _ end] => destruct b eqn:?; cbn
         end; auto.
Qed.

(** The send log only grows, and what one turn appends goes to registered
    subscribers with an open socket, or to the socket that is just
    connecting. *)
Lemma step_sends w e w' :
  step w e = Some w' ->
  exists extra,
    sent w' = sent w ++ extra
    /\ forall c m, In (c, m) extra ->
         (In c (wsClients (this w)) /\ In c (ws_open w))
         \/ exists now, e = EvWsConnect now c.
Proof.
  intro Hstep. destruct e; cbn [step] in Hstep.
  - inversion Hstep; subst w'. exists []. unfold initialize.
    rewrite (proj1 (tryConnect_sent _ _)), app_nil_r.
    split; [reflexivity | intros c m []].
  - inversion Hstep; subst w'. exists [].
    destruct (reconnect_tears_down path baud ctor_ok w)
      as [w4 [-> [_ [_ [_ [_ [E _]]]]]]].
    rewrite (proj1 (tryConnect_sent _ _)), app_nil_r, E.
    split; [reflexivity | intros c m []].
  - destruct (mem sp (opening w)); [|discriminate].
    inversion Hstep; subst w'. destruct err as [msg|].
    + exists []. rewrite app_nil_r. split; [|intros c m []].
      unfold open_callback, fall_back, _startReconnectLoop,
        _startSimulationIfNeeded, on_this. cbn.
      repeat match goal with
             | |- context [match ?b with _ => _ end] => destruct b eqn:?; cbn
             end; reflexivity.
    + exists (map (fun c => (c, StatusMsg true false))
                  (filter (fun c => mem c (ws_open w)) (wsClients (this w)))).
      split; [|intros c m Hin; left; exact (fan_recipient _ w c m Hin)].
      unfold open_callback, broadcastStatus, fan_out, _stopReconnectLoop,
        _stopSimulation, on_this. cbn.
      repeat match goal with
             | |- context [match ?b with _ => _ end] => destruct b eqn:?; cbn
             end; reflexivity.
  - destruct (mem sp (attached w)); [|discriminate].
    inversion Hstep; subst w'.
    destruct (parseWeight_cases now line w) as [-> | [x [_ [_ ->]]]].
    + exists []. rewrite app_nil_r. split; [reflexivity | intros c m []].
    + eexists. split; [apply updateWeight_sent|].
      intros c m Hin. left. exact (fan_recipient _ w c m Hin).
  - destruct (mem sp (attached w)); [|discriminate].
    inversion Hstep; subst w'.
    exists (map (fun c => (c, StatusMsg false true))
                (filter (fun c => mem c (ws_open w)) (wsClients (this w)))).
    split; [|intros c m Hin; left; exact (fan_recipient _ w c m Hin)].
    unfold _onPortLost, broadcastStatus, fan_out, _startReconnectLoop,
      _startSimulationIfNeeded, on_this. cbn.
    repeat match goal with
           | |- context [match ?b with _ => _ end] => destruct b eqn:?; cbn
           end; reflexivity.
  - destruct (mem sp (attached w)); [|discriminate].
    inversion Hstep; subst w'.
    exists (map (fun c => (c, StatusMsg false true))
                (filter (fun c => mem c (ws_open w)) (wsClients (this w)))).
    split; [|intros c m Hin; left; exact (fan_recipient _ w c m Hin)].
    unfold _onPortLost, broadcastStatus, fan_out, _startReconnectLoop,
      _startSimulationIfNeeded, on_this. cbn.
    repeat match goal with
           | |- context [match ?b with _ => _ end] => destruct b eqn:?; cbn
           end; reflexivity.
  - destruct (reconnectTimer (this w)) eqn:Et; [|discriminate].
    inversion Hstep; subst w'. exists []. rewrite app_nil_r.
    split; [|intros c m []].
    unfold poll_tick, _stopReconnectLoop, on_this.
    destruct (isConnected (this w)); cbn; rewrite ?Et; reflexivity.
  - destruct (polls w); [discriminate|].
    inversion Hstep; subst w'. exists []. rewrite app_nil_r.
    split; [|intros c m []]. unfold poll_resume.
    destruct available; [rewrite (proj1 (tryConnect_sent _ _))|]; reflexivity.
  - destruct (simInterval (this w)) as [base|] eqn:Es; [|discriminate].
    inversion Hstep; subst w'. unfold sim_tick.
    destruct (isConnected (this w)).
    + exists []. rewrite app_nil_r. split; [|intros c m []].
      unfold on_this, _stopSimulation. rewrite Es. reflexivity.
    + rewrite updateWeight_sent. eexists. split; [reflexivity|].
      intros c m Hin. left.
      exact (fan_recipient _ (on_this (set_simInterval _) w) c m Hin).
  - inversion Hstep; subst w'. eexists. split; [reflexivity|].
    intros c m [Heq|[]]. right. exists now. inversion Heq; subst. reflexivity.
  - inversion Hstep; subst w'. exists []. rewrite app_nil_r.
    split; [reflexivity | intros c m []].
  - inversion Hstep; subst w'. exists []. rewrite app_nil_r.
    split; [reflexivity | intros c m []].
Qed.

Lemma step_clients w e w' :
  step w e = Some w' ->
  wsClients (this w') = wsClients (this w)
  \/ (exists now ws, e = EvWsConnect now ws)
  \/ (exists ws, e = EvWsClose ws
                 /\ wsClients (this w') = remove_id ws (wsClients (this w))).
Proof.
  intro Hstep. destruct e; cbn [step] in Hstep;
    try (right; left; eexists; eexists; reflexivity).
  - inversion Hstep; subst w'. left. unfold initialize.
    rewrite (proj1 (proj2 (tryConnect_sent _ _))). reflexivity.
  - inversion Hstep; subst w'. left.
    destruct (reconnect_tears_down path baud ctor_ok w)
      as [w4 [-> [_ [_ [_ [_ [_ [E _]]]]]]]].
    rewrite (proj1 (proj2 (tryConnect_sent _ _))). exact E.
  - destruct (mem sp (opening w)); [|discriminate].
    inversion Hstep; subst w'. left.
    unfold open_callback, fall_back, broadcastStatus, fan_out, _stopReconnectLoop,
      _stopSimulation, _startReconnectLoop, _startSimulationIfNeeded, on_this.
    destruct err; cbn;
      repeat match goal with
             | |- context [match ?b with _ => _ end] => destruct b eqn:?; cbn
             end; reflexivity.
  - destruct (mem sp (attached w)); [|discriminate].
    inversion Hstep; subst w'. left.
    destruct (parseWeight_cases now line w) as [-> | [x [_ [_ ->]]]];
      [reflexivity|].
    exact (proj1 (proj2 (proj2 (proj2 (proj2 (updateWeight_flags now x w)))))).
  - destruct (mem sp (attached w)); [|discriminate].
    inversion Hstep; subst w'. left.
    unfold _onPortLost, broadcastStatus, fan_out, _startReconnectLoop,
      _startSimulationIfNeeded, on_this. cbn.
    repeat match goal with
           | |- context [match ?b with _ => _ end] => destruct b eqn:?; cbn
           end; reflexivity.
  - destruct (mem sp (attached w)); [|discriminate].
    inversion Hstep; subst w'. left.
    unfold _onPortLost, broadcastStatus, fan_out, _startReconnectLoop,
      _startSimulationIfNeeded, on_this. cbn.
    repeat match goal with
           | |- context [match ?b with _ => _ end] => destruct b eqn:?; cbn
           end; reflexivity.
  - destruct (reconnectTimer (this w)) eqn:Et; [|discriminate].
    inversion Hstep; subst w'. left.
    unfold poll_tick, _stopReconnectLoop, on_this.
    destruct (isConnected (this w)); cbn; rewrite ?Et; reflexivity.
  - destruct (polls w); [discriminate|].
    inversion Hstep; subst w'. left. unfold poll_resume.
    destruct available; [rewrite (proj1 (proj2 (tryConnect_sent _ _)))|]; reflexivity.
  - destruct (simInterval (this w)) as [base|] eqn:Es; [|discriminate].
    inversion Hstep; subst w'. left. unfold sim_tick.
    destruct (isConnected (this w)).
    + unfold on_this, _stopSimulation. rewrite Es. reflexivity.
    + exact (proj1 (proj2 (proj2 (proj2 (proj2 (updateWeight_flags _ _ _)))))).
  - inversion Hstep; subst w'. left. reflexivity.
  - inversion Hstep; subst w'. right. right. exists ws. split; reflexivity.
Qed.

Lemma remove_id_not_In x l : ~ In x (remove_id x l).
Proof.
  unfold remove_id. intro H. apply filter_In in H. destruct H as [_ H].
  rewrite Nat.eqb_refl in H. discriminate.
Qed.

Lemma remove_id_In y x l : In y (remove_id x l) -> In y l.
Proof. unfold remove_id. intro H. apply filter_In in H. tauto. Qed.

(** X5.  A socket that is not registered receives nothing and stays
    unregistered, whatever happens, until it connects; the ['close'] event
    of a socket takes it off the register.  So once a subscriber has closed,
    no event is sent to it again. *)
Theorem closed_subscriber_gets_nothing ws :
  (forall w w', step w (EvWsClose ws) = Some w' ->
                ~ In ws (wsClients (this w')))
  /\ (forall w e w',
        ~ In ws (wsClients (this w)) ->
        (forall now, e <> EvWsConnect now ws) ->
        step w e = Some w' ->
        ~ In ws (wsClients (this w'))
        /\ forall m, ~ In (ws, m) (emitted w w')).
Proof.
  split.
  - intros w w' Hstep. cbn in Hstep. inversion Hstep; subst w'.
    unfold ws_closed, on_this. cbn. apply remove_id_not_In.
  - intros w e w' Hout Hother Hstep. split.
    + destruct (step_clients w e w' Hstep) as [-> | [[now [ws' ->]] | [ws' [-> ->]]]].
      * exact Hout.
      * cbn in Hstep. inversion Hstep; subst w'.
        unfold addWSClient, on_this. cbn.
        destruct (mem ws' (wsClients (this w))); [exact Hout|].
        intro Hin. apply in_app_or in Hin. destruct Hin as [Hin|[->|[]]].
        -- exact (Hout Hin).
        -- exact (Hother now eq_refl).
      * intro Hin. exact (Hout (remove_id_In _ _ _ Hin)).
    + intros m Hin. destruct (step_sends w e w' Hstep) as [extra [Hs Hto]].
      unfold emitted in Hin. rewrite Hs, skipn_app, skipn_all, Nat.sub_diag in Hin.
      cbn [skipn app] in Hin.
      destruct (Hto ws m Hin) as [[Hreg _] | [now ->]].
      * exact (Hout Hreg).
      * exact (Hother now eq_refl).
Qed.

Lemma closed_subscriber_gets_nothing_witness :
  ~ In 7%nat (wsClients (this (sim_tick 2400 (1 # 2) 39170
                                        (ws_closed 7%nat subscribed_world))))
  /\ forall m,
       ~ In (7%nat, m)
            (emitted (ws_closed 7%nat subscribed_world)
                     (sim_tick 2400 (1 # 2) 39170 (ws_closed 7%nat subscribed_world))).
Proof.
  destruct (closed_subscriber_gets_nothing 7%nat) as [Hclose Hquiet].
  assert (Hout : ~ In 7%nat (wsClients (this (ws_closed 7%nat subscribed_world)))).
  { exact (Hclose subscribed_world (ws_closed 7%nat subscribed_world) eq_refl). }
  assert (Hstep : step (ws_closed 7%nat subscribed_world) (EvSimTick 2400 (1 # 2))
                  = Some (sim_tick 2400 (1 # 2) 39170 (ws_closed 7%nat subscribed_world))).
  { vm_compute. reflexivity. }
  assert (Hne : forall now, EvSimTick 2400 (1 # 2) <> EvWsConnect now 7%nat).
  { intros now. discriminate. }
  exact (Hquiet _ _ _ Hout Hne Hstep).
Defined.

End SendLog.

(** * Further properties of the parser and of the simulation *)

Section ParserProperties.

Local Open Scope string_scope.

(** X6.  Whatever line arrives, [parseWeight] either leaves the whole
    state as it is, or takes exactly one sample [x] with [0 <= x < 200000]:
    [x] becomes the current weight and is pushed on the window. *)
Theorem port_line_is_dropped_or_in_range now data w :
  parseWeight now data w = w
  \/ exists x,
       (0 <= x)%Q /\ (x < 200000)%Q
       /\ currentWeight (this (parseWeight now data w)) = x
       /\ weightBuffer (this (parseWeight now data w))
          = push_shift (weightBuffer (this w)) x.
Proof.
  destruct (parseWeight_cases now data w) as [H | [x [Hlo [Hhi H]]]];
    [left; exact H|].
  right. exists x. rewrite H, updateWeight_this, ingest_buffer.
  repeat split; auto.
  unfold ingest; cbv zeta.
  match goal with |- context [if ?b then _ else _] => destruct b end; reflexivity.
Qed.

Lemma digit_not_space c : is_digit c = true -> is_space c = false.
Proof.
  unfold is_digit, is_space. cbv zeta. intro H.
  apply andb_true_iff in H. destruct H as [H1 H2].
  apply Nat.leb_le in H1.
  destruct (Nat.leb_spec (nat_of_ascii c) 13) as [H|H]; [lia|].
  rewrite andb_false_r. cbn [orb].
  apply Nat.eqb_neq. lia.
Qed.

Lemma digit_not_sign c : is_digit c = true -> is_sign c = false.
Proof.
  unfold is_digit, is_sign. cbv zeta. intro H.
  apply andb_true_iff in H. destruct H as [H1 H2].
  apply Nat.leb_le in H1.
  destruct (Ascii.eqb_spec c "+"%char) as [->|_]; [cbn in H1; lia|].
  destruct (Ascii.eqb_spec c "-"%char) as [->|_]; [cbn in H1; lia|].
  reflexivity.
Qed.

Lemma span_digits_run ds s :
  all_chars is_digit ds = true -> starts_with_digit s = false ->
  span_digits (ds ++ s) = (ds, s).
Proof.
  induction ds as [|d ds IH]; intros Hd Hs.
  - change ("" ++ s) with s.
    destruct s as [|c s]; [reflexivity|].
    cbn [starts_with_digit] in Hs. cbn [span_digits]. rewrite Hs. reflexivity.
  - cbn [all_chars] in Hd. apply andb_true_iff in Hd. destruct Hd as [Hd Hds].
    change (String d ds ++ s) with (String d (ds ++ s)).
    cbn [span_digits]. rewrite Hd, (IH Hds Hs). reflexivity.
Qed.

Lemma ends_number_no_digit s : ends_number s = true -> starts_with_digit s = false.
Proof.
  destruct s as [|c s]; cbn; [reflexivity|].
  intro H. apply andb_true_iff in H. destruct H as [H _].
  apply negb_true_iff in H. exact H.
Qed.

Lemma group1_run ds s :
  all_chars is_digit ds = true -> ends_number s = true ->
  group1 (ds ++ s) = ds.
Proof.
  intros Hd Hs. unfold group1.
  rewrite (span_digits_run ds s Hd (ends_number_no_digit s Hs)).
  destruct s as [|c s]; [reflexivity|].
  cbn in Hs. apply andb_true_iff in Hs. destruct Hs as [_ Hdot].
  apply negb_true_iff in Hdot.
  destruct (Ascii.eqb_spec c "."%char) as [->|Hne]; [discriminate|].
  destruct c as [[] [] [] [] [] [] [] []]; try reflexivity.
  exfalso. apply Hne. reflexivity.
Qed.

Lemma regex_first_run prefix : forall d ds s,
  all_chars (fun c => negb (is_digit c)) prefix = true ->
  all_chars is_digit (String d ds) = true -> ends_number s = true ->
  regex_match1 (prefix ++ String d ds ++ s) = Some (String d ds).
Proof.
  induction prefix as [|c prefix IH]; intros d ds s Hp Hd Hs.
  - change ("" ++ String d ds ++ s) with (String d (ds ++ s)).
    cbn [regex_match1].
    assert (Hd' := Hd). cbn in Hd'. apply andb_true_iff in Hd'.
    rewrite (proj1 Hd').
    change (String d (ds ++ s)) with (String d ds ++ s).
    rewrite (group1_run _ _ Hd Hs). reflexivity.
  - cbn in Hp. apply andb_true_iff in Hp. destruct Hp as [Hc Hp].
    apply negb_true_iff in Hc.
    change (String c prefix ++ String d ds ++ s)
      with (String c (prefix ++ String d ds ++ s)).
    cbn [regex_match1]. rewrite Hc.
    destruct (is_sign c && starts_with_digit (prefix ++ String d ds ++ s)) eqn:Hsg;
      [|apply IH; assumption].
    apply andb_true_iff in Hsg. destruct Hsg as [_ Hst].
    destruct prefix as [|c' prefix].
    + change ("" ++ String d ds ++ s) with (String d ds ++ s).
      rewrite (group1_run _ _ Hd Hs). reflexivity.
    + cbn in Hst. cbn in Hp. apply andb_true_iff in Hp.
      destruct Hp as [Hc' _]. rewrite Hst in Hc'. discriminate.
Qed.

Lemma trim_start_keeps prefix : forall rest d,
  is_space d = false ->
  exists prefix',
    trim_start (prefix ++ String d rest) = prefix' ++ String d rest
    /\ (forall p, all_chars p prefix = true -> all_chars p prefix' = true).
Proof.
  induction prefix as [|c prefix IH]; intros rest d Hd.
  - exists "". cbn. rewrite Hd. auto.
  - change (String c prefix ++ String d rest)
      with (String c (prefix ++ String d rest)).
    cbn [trim_start]. destruct (is_space c).
    + destruct (IH rest d Hd) as [p' [Heq Hall]]. exists p'.
      split; [exact Heq|]. intros p Hp. cbn in Hp.
      apply andb_true_iff in Hp. apply Hall. tauto.
    + exists (String c prefix). auto.
Qed.

Lemma trim_end_after_solid a : forall b,
  a <> "" -> all_chars (fun c => negb (is_space c)) a = true ->
  trim_end (a ++ b) = a ++ trim_end b.
Proof.
  induction a as [|c a IH]; intros b Hne Ha; [congruence|].
  cbn in Ha. apply andb_true_iff in Ha. destruct Ha as [Hc Ha].
  apply negb_true_iff in Hc.
  change (String c a ++ b) with (String c (a ++ b)). cbn [trim_end].
  destruct a as [|c' a].
  - change ("" ++ b) with b. destruct (trim_end b); [rewrite Hc|]; reflexivity.
  - rewrite (IH b); [|discriminate|exact Ha]. reflexivity.
Qed.

Lemma trim_end_before a : forall b,
  trim_end b <> "" -> trim_end (a ++ b) = a ++ trim_end b.
Proof.
  induction a as [|c a IH]; intros b Hb; [reflexivity|].
  change (String c a ++ b) with (String c (a ++ b)). cbn [trim_end].
  rewrite (IH b Hb).
  destruct (a ++ trim_end b) eqn:E.
  - destruct a; [|discriminate]. cbn in E. congruence.
  - change (String c a ++ trim_end b) with (String c (a ++ trim_end b)).
    rewrite E. reflexivity.
Qed.

Lemma trim_end_head s :
  ends_number s = true -> ends_number (trim_end s) = true.
Proof.
  destruct s as [|c s]; [reflexivity|].
  cbn [trim_end ends_number]. intro H.
  destruct (trim_end s); [destruct (is_space c)|]; cbn; auto.
Qed.

Lemma digits_solid ds :
  all_chars is_digit ds = true ->
  all_chars (fun c => negb (is_space c)) ds = true.
Proof.
  induction ds as [|d ds IH]; cbn; [reflexivity|]. intro H.
  apply andb_true_iff in H. destruct H as [Hd Hds].
  rewrite (digit_not_space d Hd), (IH Hds). reflexivity.
Qed.

Lemma append_empty_r s : s ++ "" = s.
Proof. induction s as [|c s IH]; cbn; [reflexivity | rewrite IH; reflexivity]. Qed.

Lemma parseFloat_run d ds :
  all_chars is_digit (String d ds) = true ->
  parseFloat (String d ds) = Some (inject_Z (digits_value 0 (String d ds))).
Proof.
  intro Hd. unfold parseFloat.
  rewrite <- (append_empty_r (String d ds)) at 1.
  rewrite (span_digits_run (String d ds) "" Hd eq_refl). reflexivity.
Qed.

Lemma all_digits_In ds :
  all_chars is_digit ds = true ->
  forall c, In c (list_ascii_of_string ds) -> is_digit c = true.
Proof.
  induction ds as [|d ds IH]; cbn; intros H c Hc; [contradiction|].
  apply andb_true_iff in H. destruct H as [Hd Hds].
  destruct Hc as [<-|Hc]; [exact Hd | exact (IH Hds c Hc)].
Qed.

(** X7.  A line made of any text without digits, then a run of digits that
    reads as a number below 200000, then nothing or any text that begins
    with neither a digit nor a dot, is accepted, and the sample taken is the
    value of that run of digits; so plain, signed, unit-suffixed and
    status-prefixed readings are all read alike. *)
Theorem first_number_of_line_is_read now w prefix d ds suffix :
  all_chars (fun c => negb (is_digit c)) prefix = true ->
  all_chars is_digit (String d ds) = true ->
  ends_number suffix = true ->
  digits_value 0 (String d ds) < 200000 ->
  parseWeight now (prefix ++ String d ds ++ suffix) w
  = updateWeight now (inject_Z (digits_value 0 (String d ds))) w.
Proof.
  intros Hp Hd Hs Hrange.
  assert (Hdd : is_digit d = true).
  { cbn [all_chars] in Hd. apply andb_true_iff in Hd. tauto. }
  unfold parseWeight, trim. cbv zeta.
  change (String d ds ++ suffix) with (String d (ds ++ suffix)).
  destruct (trim_start_keeps prefix (ds ++ suffix) d (digit_not_space d Hdd))
    as [p' [-> Hall]].
  change (String d (ds ++ suffix)) with (String d ds ++ suffix).
  assert (Hend : trim_end (String d ds ++ suffix) = String d ds ++ trim_end suffix).
  { apply trim_end_after_solid; [discriminate | apply digits_solid; exact Hd]. }
  rewrite trim_end_before; rewrite Hend; [|discriminate].
  rewrite (regex_first_run p' d ds (trim_end suffix) (Hall _ Hp) Hd
             (trim_end_head suffix Hs)).
  rewrite (parseFloat_run d ds Hd).
  assert (H0 : 0 <= digits_value 0 (String d ds)).
  { apply digits_value_nonneg; [apply all_digits_In; exact Hd | lia]. }
  assert (Hlo : Qle_bool 0 (inject_Z (digits_value 0 (String d ds))) = true).
  { apply Qle_bool_iff. unfold Qle, inject_Z; cbn [Qnum Qden]. lia. }
  assert (Hhi : Qltb (inject_Z (digits_value 0 (String d ds))) 200000 = true).
  { apply Qltb_lt. unfold Qlt, inject_Z; cbn [Qnum Qden]. lia. }
  rewrite Hlo, Hhi. reflexivity.
Qed.

Lemma first_number_of_line_is_read_witness :
  parseWeight 200 "ST,GS,+039170kg" boot = updateWeight 200 39170 boot.
Proof.
  exact (first_number_of_line_is_read 200 boot "ST,GS,+" "0" "39170" "kg"
           eq_refl eq_refl eq_refl eq_refl).
Defined.

End ParserProperties.

Section SimulationProperties.

Lemma Qfloor_noise random :
  (0 <= random)%Q -> (random < 1)%Q ->
  -10 <= Qfloor (random * 20 - 10) <= 9.
Proof.
  intros H0 H1. split.
  - change (-10) with (Qfloor (-10)). apply Qfloor_resp_le. lra.
  - assert (H : (inject_Z (Qfloor (random * 20 - 10)) < inject_Z 10)%Q).
    { apply Qle_lt_trans with (random * 20 - 10)%Q; [apply Qfloor_le|].
      change (inject_Z 10) with 10%Q. lra. }
    rewrite <- Zlt_Qlt in H. lia.
Qed.

(** X8.  A simulation tick that finds the service not connected, with
    [Math.random()] in [0, 1) and a non-negative base, moves the base down
    by at most 10 and up by at most 9, never below zero, and takes the new
    base as the sample: it becomes the current weight and is pushed on the
    window. *)
Theorem simulation_drifts_by_at_most_ten now random base w w' :
  isConnected (this w) = false ->
  simInterval (this w) = Some base ->
  (0 <= random)%Q -> (random < 1)%Q -> 0 <= base ->
  step w (EvSimTick now random) = Some w' ->
  exists base',
    simInterval (this w') = Some base'
    /\ 0 <= base' /\ base - 10 <= base' <= base + 9
    /\ currentWeight (this w') = inject_Z base'
    /\ weightBuffer (this w') = push_shift (weightBuffer (this w)) (inject_Z base').
Proof.
  intros Hc Hs H0 H1 Hb Hstep.
  change (step w (EvSimTick now random))
    with (match simInterval (this w) with
          | Some b => Some (sim_tick now random b w)
          | None => None
          end) in Hstep.
  rewrite Hs in Hstep.
  unfold sim_tick in Hstep. rewrite Hc in Hstep. cbv zeta in Hstep.
  assert (Hw' : w' = updateWeight now
                       (inject_Z (Z.max 0 (base + Qfloor (random * 20 - 10))))
                       (on_this (set_simInterval
                                   (Some (Z.max 0 (base + Qfloor (random * 20 - 10)))))
                                w))
    by congruence.
  subst w'. clear Hstep.
  pose proof (Qfloor_noise random H0 H1) as Hn.
  exists (Z.max 0 (base + Qfloor (random * 20 - 10))).
  destruct (updateWeight_flags now
              (inject_Z (Z.max 0 (base + Qfloor (random * 20 - 10))))
              (on_this (set_simInterval
                          (Some (Z.max 0 (base + Qfloor (random * 20 - 10))))) w))
    as [_ [_ [F3 _]]].
  rewrite F3, updateWeight_this, ingest_buffer.
  split; [reflexivity|]. split; [lia|]. split; [lia|]. split; [|reflexivity].
  unfold ingest; cbv zeta.
  match goal with |- context [if ?b then _ else _] => destruct b end; reflexivity.
Qed.

Lemma simulation_drifts_by_at_most_ten_witness :
  exists base',
    simInterval (this (sim_tick 2400 (1 # 4) 39170 subscribed_world)) = Some base'
    /\ 0 <= base' /\ 39170 - 10 <= base' <= 39170 + 9
    /\ currentWeight (this (sim_tick 2400 (1 # 4) 39170 subscribed_world))
       = inject_Z base'
    /\ weightBuffer (this (sim_tick 2400 (1 # 4) 39170 subscribed_world))
       = push_shift (weightBuffer (this subscribed_world)) (inject_Z base').
Proof.
  apply (simulation_drifts_by_at_most_ten 2400 (1 # 4) 39170 subscribed_world).
  - vm_compute. reflexivity.
  - vm_compute. reflexivity.
  - discriminate.
  - reflexivity.
  - lia.
  - vm_compute. reflexivity.
Defined.

End SimulationProperties.

(** * Further properties of the network printer paths *)

Section PrinterEffort.

Import PrinterService.

Lemma connects_app tr tr' : connects (tr ++ tr') = (connects tr + connects tr')%nat.
Proof. unfold connects. rewrite filter_app, length_app. reflexivity. Qed.

Lemma renders_app tr tr' : renders (tr ++ tr') = (renders tr + renders tr')%nat.
Proof. unfold renders. rewrite filter_app, length_app. reflexivity. Qed.

Lemma session_counts data host port w :
  connects (session data host port w) = 1%nat
  /\ renders (session data host port w) = 0%nat.
Proof.
  unfold session, _sendRawToIPPrinter, send_timed_out, bind, emit, next_wire,
    wait, ret, throw, lone. cbn.
  destruct w as [t msg|t p|]; cbn;
    [destruct (t <? 10000)
    |destruct (t <? 10000);
       [destruct p as [t'|t' msg|]; cbn; try destruct (t' <? 10000)|]
    |]; cbn; split; reflexivity.
Qed.

(** One send, whatever the network does: one connect, no file and no
    process touched, and the promise settles within twice the idle time. *)
Lemma send_footprint data host port r :
  let r' := snd (_sendRawToIPPrinter data host port r) in
  files r' = files r
  /\ execs r' = execs r
  /\ connects (trace r') = (connects (trace r) + 1)%nat
  /\ renders (trace r') = renders (trace r)
  /\ clock r' <= clock r + 20000.
Proof.
  cbv zeta.
  destruct (session_counts data host port (hd Ignores (wires r))) as [Hc Hr].
  split; [|split; [|split; [|split]]].
  - unfold _sendRawToIPPrinter, send_timed_out, bind, emit, next_wire, wait, ret, throw.
    cbn. destruct (wires r) as [|w ws]; cbn; [reflexivity|].
    destruct w as [t msg|t p|]; cbn;
      [destruct (t <? 10000)
      |destruct (t <? 10000);
         [destruct p as [t'|t' msg|]; cbn; try destruct (t' <? 10000)|]
      |]; reflexivity.
  - unfold _sendRawToIPPrinter, send_timed_out, bind, emit, next_wire, wait, ret, throw.
    cbn. destruct (wires r) as [|w ws]; cbn; [reflexivity|].
    destruct w as [t msg|t p|]; cbn;
      [destruct (t <? 10000)
      |destruct (t <? 10000);
         [destruct p as [t'|t' msg|]; cbn; try destruct (t' <? 10000)|]
      |]; reflexivity.
  - rewrite send_trace, connects_app, Hc. reflexivity.
  - rewrite send_trace, renders_app, Hr. lia.
  - unfold _sendRawToIPPrinter, send_timed_out, bind, emit, next_wire, wait, ret, throw.
    cbn. destruct (wires r) as [|w ws]; cbn; [lia|].
    destruct w as [t msg|t p|]; cbn;
      [destruct (Z.ltb_spec t 10000)
      |destruct (Z.ltb_spec t 10000);
         [destruct p as [t'|t' msg|]; cbn; try destruct (Z.ltb_spec t' 10000)|]
      |]; cbn; lia.
Qed.

Lemma sendFile_footprint file host port r :
  let r' := snd (_sendFileToIPPrinter file host port r) in
  files r' = files r
  /\ execs r' = execs r
  /\ (connects (trace r') <= connects (trace r) + 1)%nat
  /\ renders (trace r') = renders (trace r)
  /\ clock r' <= clock r + 20000.
Proof.
  cbv zeta. unfold _sendFileToIPPrinter, bind, readFileSync.
  destruct (lookup_file file (files r)) as [data|]; cbv beta iota.
  - pose proof (send_footprint data host port r) as H. cbv zeta in H.
    destruct H as [H1 [H2 [H3 [H4 H5]]]].
    repeat split; auto; lia.
  - cbn [snd]. repeat split; try reflexivity; lia.
Qed.

(** A loop of [n] sends, each with the footprint above. *)
Lemma loop_footprint (send : M unit) n :
  (forall r, let r' := snd (send r) in
             files r' = files r /\ execs r' = execs r
             /\ (connects (trace r') <= connects (trace r) + 1)%nat
             /\ renders (trace r') = renders (trace r)
             /\ clock r' <= clock r + 20000) ->
  forall r, let r' := snd (repeat_await n send r) in
            files r' = files r /\ execs r' = execs r
            /\ (connects (trace r') <= connects (trace r) + n)%nat
            /\ renders (trace r') = renders (trace r)
            /\ clock r' <= clock r + 20000 * Z.of_nat n.
Proof.
  intro Hsend. induction n as [|n IH]; intro r; cbv zeta.
  - cbn. repeat split; try reflexivity; lia.
  - cbn [repeat_await]. unfold bind.
    pose proof (Hsend r) as Hs. cbv zeta in Hs.
    destruct (send r) as [[[]|e] r1]; cbn [snd] in *.
    + pose proof (IH r1) as Hl. cbv zeta in Hl.
      destruct Hs as [S1 [S2 [S3 [S4 S5]]]].
      destruct Hl as [L1 [L2 [L3 [L4 L5]]]].
      repeat split; try congruence; lia.
    + destruct Hs as [S1 [S2 [S3 [S4 S5]]]].
      repeat split; try congruence; lia.
Qed.

Lemma raw_send_weak data host port r :
  let r' := snd (_sendRawToIPPrinter data host port r) in
  files r' = files r /\ execs r' = execs r
  /\ (connects (trace r') <= connects (trace r) + 1)%nat
  /\ renders (trace r') = renders (trace r)
  /\ clock r' <= clock r + 20000.
Proof.
  cbv zeta. pose proof (send_footprint data host port r) as H. cbv zeta in H.
  destruct H as [H1 [H2 [H3 [H4 H5]]]].
  repeat split; auto; lia.
Qed.

End PrinterEffort.

Section PrinterFiles.

Import PrinterService.

Lemma lookup_filter_same f l :
  lookup_file f (filter (fun kv : string * bytes => negb (String.eqb (fst kv) f)) l) = None.
Proof.
  unfold lookup_file. induction l as [|[g c] l IH]; cbn; [reflexivity|].
  destruct (String.eqb g f) eqn:E; cbn; [exact IH|]. rewrite E. exact IH.
Qed.

Lemma lookup_filter_other f g l :
  g <> f ->
  lookup_file g (filter (fun kv : string * bytes => negb (String.eqb (fst kv) f)) l)
  = lookup_file g l.
Proof.
  intro Hne. unfold lookup_file. induction l as [|[h c] l IH]; cbn; [reflexivity|].
  destruct (String.eqb_spec h f) as [->|Hhf]; cbn.
  - destruct (String.eqb_spec f g) as [->|_]; [congruence | exact IH].
  - destruct (String.eqb h g); [reflexivity | exact IH].
Qed.

Lemma lookup_cons_other f g c l :
  g <> f -> lookup_file g ((f, c) :: l) = lookup_file g l.
Proof.
  intro Hne. unfold lookup_file. cbn.
  destruct (String.eqb_spec f g) as [->|_]; [congruence | reflexivity].
Qed.

(** One round of [_cleanupTemp]: the file is gone afterwards, every other
    file is as before, and nothing but the directory and the trace moved. *)
Lemma unlink_footprint f r :
  let r' := snd (unlink_if_exists f r) in
  fst (unlink_if_exists f r) = Resolved tt
  /\ absent f r'
  /\ (forall g, g <> f -> lookup_file g (files r') = lookup_file g (files r))
  /\ wires r' = wires r /\ execs r' = execs r /\ clock r' = clock r
  /\ connects (trace r') = connects (trace r)
  /\ renders (trace r') = renders (trace r).
Proof.
  cbv zeta. unfold unlink_if_exists, absent.
  destruct (lookup_file f (files r)) eqn:E; cbn [fst snd files wires execs clock trace].
  - rewrite connects_app, renders_app. cbn.
    repeat split; try lia.
    + apply lookup_filter_same.
    + intros g Hg. apply lookup_filter_other. exact Hg.
  - repeat split; auto.
Qed.

(** [_cleanupTemp(f1, f2)]. *)
Lemma cleanup_footprint f1 f2 r :
  let r' := snd (_cleanupTemp [f1; f2] r) in
  fst (_cleanupTemp [f1; f2] r) = Resolved tt
  /\ absent f1 r' /\ absent f2 r'
  /\ same_other_files f1 f2 r r'
  /\ wires r' = wires r /\ execs r' = execs r /\ clock r' = clock r
  /\ connects (trace r') = connects (trace r)
  /\ renders (trace r') = renders (trace r).
Proof.
  cbv zeta. cbn [_cleanupTemp]. unfold bind, ret.
  pose proof (unlink_footprint f1 r) as H1. cbv zeta in H1.
  destruct (unlink_if_exists f1 r) as [o1 r1]. cbn [fst snd] in H1.
  destruct H1 as [-> [A1 [O1 [W1 [E1 [C1 [N1 R1]]]]]]].
  pose proof (unlink_footprint f2 r1) as H2. cbv zeta in H2.
  destruct (unlink_if_exists f2 r1) as [o2 r2]. cbn [fst snd] in H2.
  destruct H2 as [-> [A2 [O2 [W2 [E2 [C2 [N2 R2]]]]]]].
  cbn [fst snd]. split; [reflexivity|]. split; [|split; [exact A2|]].
  - unfold absent in *. destruct (String.eqb_spec f1 f2) as [->|Hne];
      [exact A2 | rewrite (O2 f1 Hne); exact A1].
  - split; [|repeat split; congruence].
    intros g Hg1 Hg2. rewrite (O2 g Hg2). exact (O1 g Hg1).
Qed.

End PrinterFiles.

Section PrinterDispatchEffort.

Import PrinterService.

Lemma within_trans f1 f2 a b ms a' b' ms' r r1 r2 :
  within f1 f2 a b ms r r1 -> within f1 f2 a' b' ms' r1 r2 ->
  within f1 f2 (a + a') (b + b') (ms + ms') r r2.
Proof.
  intros [F1 R1 C1 K1] [F2 R2 C2 K2]. constructor; try lia.
  intros g Hg1 Hg2. rewrite (F2 g Hg1 Hg2). exact (F1 g Hg1 Hg2).
Qed.

Lemma within_files_eq f1 f2 r r' n :
  files r' = files r ->
  (connects (trace r') <= connects (trace r) + n)%nat ->
  renders (trace r') = renders (trace r) ->
  clock r' <= clock r + 20000 * Z.of_nat n ->
  within f1 f2 0 n (20000 * Z.of_nat n) r r'.
Proof.
  intros Hf Hc Hr Hk. constructor; try lia.
  intros g _ _. rewrite Hf. reflexivity.
Qed.

Section DispatchFootprint.

Variable Number_toString : Q -> string.
Variable toLocaleDateString : Z -> string.
Variable toLocaleTimeString : Z -> string.
Variable toLocaleString : Z -> string.
Variable self : Service.

Let buildRaw := _buildRawPCL Number_toString toLocaleDateString toLocaleTimeString
                             toLocaleString.
Let viaIP := printViaIP Number_toString toLocaleDateString toLocaleTimeString
                        toLocaleString self.
Let temp := temp_file Number_toString self.

(** The handler of [printViaIP]: clean up, then the loop over the raw
    document. *)
Lemma handler_footprint hf pf raw host port copies r :
  let res := bind (_cleanupTemp [hf; pf])
                  (fun _ => bind (for_copies copies
                                    (_sendRawToIPPrinter raw host port))
                                 (fun _ => ret (raw_result host port))) r in
  absent hf (snd res) /\ absent pf (snd res)
  /\ within hf pf 0 (Z.to_nat copies) (20000 * Z.of_nat (Z.to_nat copies)) r (snd res)
  /\ (fst res = Resolved (raw_result host port) \/ exists e, fst res = Rejected e)
  /\ (Z.to_nat copies = 0%nat ->
      fst res = Resolved (raw_result host port)
      /\ connects (trace (snd res)) = connects (trace r)).
Proof.
  cbv zeta. unfold bind.
  pose proof (cleanup_footprint hf pf r) as Hc. cbv zeta in Hc.
  destruct (_cleanupTemp [hf; pf] r) as [o r1]. cbn [fst snd] in Hc.
  destruct Hc as [-> [A1 [A2 [O [W [E [K [N R]]]]]]]].
  unfold for_copies.
  pose proof (loop_footprint (_sendRawToIPPrinter raw host port) (Z.to_nat copies)
                (raw_send_weak raw host port) r1) as Hl. cbv zeta in Hl.
  destruct (Z.to_nat copies) as [|n] eqn:En.
  - cbn. unfold absent in *. repeat split; auto; try lia.
  - destruct (repeat_await (S n) (_sendRawToIPPrinter raw host port) r1)
      as [[[]|e] r2]; cbn [fst snd ret] in *;
      destruct Hl as [L1 [L2 [L3 [L4 L5]]]]; unfold absent in *;
      (split; [congruence|]); (split; [congruence|]);
      (split; [constructor; try lia; intros g Hg1 Hg2; rewrite L1; exact (O g Hg1 Hg2)|]);
      (split; [eauto | discriminate]).
Qed.

Lemma bind_eq (A B : Type) (m : M A) (k : A -> M B) r :
  bind m k r = match m r with
               | (Resolved a, r') => k a r'
               | (Rejected e, r') => (Rejected e, r')
               end.
Proof. reflexivity. Qed.

Lemma exec_eq hf pf r :
  _execAsync (Wkhtmltopdf hf pf) r
  = match execs r with
    | Produces out :: es =>
        (Resolved out,
         mkRuntime es (wires r)
                   ((pf, out) :: filter (fun kv => negb (String.eqb (fst kv) pf)) (files r))
                   (clock r) ((trace r ++ [Exec (Wkhtmltopdf hf pf)])%list))
    | Breaks message :: es =>
        (Rejected message,
         mkRuntime es (wires r) (files r) (clock r)
                   ((trace r ++ [Exec (Wkhtmltopdf hf pf)])%list))
    | [] =>
        (Rejected "spawn ENOENT"%string,
         mkRuntime [] (wires r) (files r) (clock r)
                   ((trace r ++ [Exec (Wkhtmltopdf hf pf)])%list))
    end.
Proof.
  unfold _execAsync, emit, next_exec, store, throw, ret, bind. cbn.
  destruct (execs r) as [|[out|msg] es]; reflexivity.
Qed.

Lemma renders_exec tr c : renders (tr ++ [Exec c]) = (renders tr + 1)%nat.
Proof. rewrite renders_app. reflexivity. Qed.

Lemma connects_exec tr c : connects (tr ++ [Exec c]) = connects tr.
Proof. rewrite connects_app. cbn. lia. Qed.

(** [_execAsync] on the renderer: one start of the renderer; at most the
    PDF appears in the temp directory. *)
Lemma exec_footprint hf pf r :
  let res := _execAsync (Wkhtmltopdf hf pf) r in
  within hf pf 1 0 0 r (snd res)
  /\ connects (trace (snd res)) = connects (trace r).
Proof.
  cbv zeta. rewrite exec_eq.
  destruct (execs r) as [|[out|msg] es]; cbn [fst snd trace];
    (split; [|apply connects_exec]); constructor; cbn [trace clock files];
    rewrite ?renders_exec, ?connects_exec; try lia;
    intros g Hg1 Hg2; cbn [files]; try reflexivity.
  rewrite lookup_cons_other by exact Hg2.
  apply lookup_filter_other. exact Hg2.
Qed.

Lemma renders_fswrite tr f c : renders (tr ++ [FsWrite f c]) = renders tr.
Proof. rewrite renders_app. cbn. lia. Qed.

Lemma connects_fswrite tr f c : connects (tr ++ [FsWrite f c]) = connects tr.
Proof. rewrite connects_app. cbn. lia. Qed.

Lemma writeFile_footprint hf pf c r :
  fst (writeFileSync hf c r) = Resolved tt
  /\ within hf pf 0 0 0 r (snd (writeFileSync hf c r))
  /\ connects (trace (snd (writeFileSync hf c r))) = connects (trace r).
Proof.
  unfold writeFileSync, emit, store, bind. cbn [fst snd trace].
  split; [reflexivity|]. split; [|apply connects_fswrite].
  constructor; cbn [trace clock files];
    rewrite ?renders_fswrite, ?connects_fswrite; try lia.
  intros g Hg1 Hg2. cbn [files]. rewrite lookup_cons_other by exact Hg1.
  apply lookup_filter_other. exact Hg1.
Qed.

Lemma within_weaken f1 f2 a b ms b' ms' r r' :
  within f1 f2 a b ms r r' -> (b <= b')%nat -> ms <= ms' ->
  within f1 f2 a b' ms' r r'.
Proof. intros [F R C K] Hb Hm. constructor; auto; lia. Qed.

(** All that [printViaIP] can do, whatever the renderer and the network
    answer. *)
Lemma printViaIP_footprint now html bill host port copies r :
  let res := viaIP now html bill host port copies r in
  let n := Z.to_nat copies in
  absent (temp bill now ".html") (snd res)
  /\ absent (temp bill now ".pdf") (snd res)
  /\ within (temp bill now ".html") (temp bill now ".pdf")
            1 (2 * n) (40000 * Z.of_nat n) r (snd res)
  /\ (fst res = Resolved (pdf_result host port)
      \/ fst res = Resolved (raw_result host port)
      \/ exists e, fst res = Rejected e)
  /\ (n = 0%nat ->
      (fst res = Resolved (pdf_result host port)
       \/ fst res = Resolved (raw_result host port))
      /\ connects (trace (snd res)) = connects (trace r)).
Proof.
  cbv zeta. subst viaIP temp. unfold printViaIP. cbv zeta.
  generalize (temp_file Number_toString self bill now ".html") as hf.
  generalize (temp_file Number_toString self bill now ".pdf") as pf.
  generalize (_buildRawPCL Number_toString toLocaleDateString toLocaleTimeString
                toLocaleString bill) as raw.
  intros raw pf hf.
  rewrite bind_eq.
  destruct (writeFile_footprint hf pf html r) as [Hw0 [Wi0 Ww0]].
  destruct (writeFileSync hf html r) as [o0 r0]. cbn [fst snd] in *. subst o0.
  unfold try_catch. rewrite bind_eq.
  destruct (exec_footprint hf pf r0) as [Wi1 Ww1]. cbv zeta in Wi1, Ww1.
  destruct (_execAsync (Wkhtmltopdf hf pf) r0) as [[out|e] r1]; cbn [fst snd] in *.
  - rewrite bind_eq.
    pose proof (loop_footprint (_sendFileToIPPrinter pf host port) (Z.to_nat copies)
                  (sendFile_footprint pf host port) r1) as Hl. cbv zeta in Hl.
    unfold for_copies.
    destruct (repeat_await (Z.to_nat copies) (_sendFileToIPPrinter pf host port) r1)
      as [[[]|e] r2] eqn:Eloop; cbn [fst snd] in Hl;
      destruct Hl as [L1 [L2 [L3 [L4 L5]]]].
    + rewrite bind_eq.
      pose proof (cleanup_footprint hf pf r2) as Hc. cbv zeta in Hc.
      destruct (_cleanupTemp [hf; pf] r2) as [o3 r3]. cbn [fst snd] in Hc.
      destruct Hc as [-> [A1 [A2 [O [W [E [K [N R]]]]]]]].
      cbn [fst snd ret].
      assert (Wi2 : within hf pf 0 (Z.to_nat copies)
                           (20000 * Z.of_nat (Z.to_nat copies)) r1 r2)
        by (apply within_files_eq; assumption).
      assert (Wi3 : within hf pf 0 0 0 r2 r3)
        by (constructor; [exact O | lia | lia | lia]).
      split; [exact A1|]. split; [exact A2|]. split; [|split].
      * eapply within_weaken;
          [exact (within_trans _ _ _ _ _ _ _ _ _ _ _
                    (within_trans _ _ _ _ _ _ _ _ _ _ _
                       (within_trans _ _ _ _ _ _ _ _ _ _ _ Wi0 Wi1) Wi2) Wi3)
          | lia | lia].
      * left. reflexivity.
      * intro Hn. split; [left; reflexivity|].
        rewrite Hn in Eloop. cbn in Eloop. inversion Eloop; subst r2.
        exact (eq_trans N (eq_trans Ww1 Ww0)).
    + pose proof (handler_footprint hf pf raw host port copies r2) as Hh.
      cbv zeta in Hh.
      destruct Hh as [A1 [A2 [Wi3 [Hres Hzero]]]].
      assert (Wi2 : within hf pf 0 (Z.to_nat copies)
                           (20000 * Z.of_nat (Z.to_nat copies)) r1 r2)
        by (apply within_files_eq; assumption).
      split; [exact A1|]. split; [exact A2|]. split; [|split].
      * eapply within_weaken;
          [exact (within_trans _ _ _ _ _ _ _ _ _ _ _
                    (within_trans _ _ _ _ _ _ _ _ _ _ _
                       (within_trans _ _ _ _ _ _ _ _ _ _ _ Wi0 Wi1) Wi2) Wi3)
          | lia | lia].
      * right. exact Hres.
      * intro Hn. rewrite Hn in Eloop. cbn in Eloop. discriminate Eloop.
  - pose proof (handler_footprint hf pf raw host port copies r1) as Hh.
    cbv zeta in Hh.
    destruct Hh as [A1 [A2 [Wi3 [Hres Hzero]]]].
    split; [exact A1|]. split; [exact A2|]. split; [|split].
    + eapply within_weaken;
        [exact (within_trans _ _ _ _ _ _ _ _ _ _ _
                  (within_trans _ _ _ _ _ _ _ _ _ _ _ Wi0 Wi1) Wi3)
        | lia | lia].
    + right. exact Hres.
    + intro Hn. destruct (Hzero Hn) as [Hr Hc]. split; [right; exact Hr|].
      exact (eq_trans Hc (eq_trans Ww1 Ww0)).
Qed.

(** X9.  Whatever the renderer and the network do, when [printViaIP]
    settles neither of its two temp files is left in the temp directory, and
    every other file there is as it was. *)
Theorem ip_dispatch_cleans_up_its_temp_files now html bill host port copies r :
  let r' := snd (viaIP now html bill host port copies r) in
  absent (temp bill now ".html") r'
  /\ absent (temp bill now ".pdf") r'
  /\ same_other_files (temp bill now ".html") (temp bill now ".pdf") r r'.
Proof.
  cbv zeta.
  pose proof (printViaIP_footprint now html bill host port copies r) as H.
  cbv zeta in H. destruct H as [A1 [A2 [[F _ _ _] _]]].
  split; [exact A1|]. split; [exact A2 | exact F].
Qed.

(** X10.  Whatever the renderer and the network do, one [printViaIP]
    starts the renderer exactly once, opens at most twice as many
    connections as copies were asked for, and waits on sockets for at most
    40 seconds per copy. *)
Theorem ip_dispatch_renders_once now html bill host port copies r :
  let r' := snd (viaIP now html bill host port copies r) in
  renders (trace r') = (renders (trace r) + 1)%nat
  /\ (connects (trace r') <= connects (trace r) + 2 * Z.to_nat copies)%nat
  /\ clock r' <= clock r + 40000 * Z.of_nat (Z.to_nat copies).
Proof.
  cbv zeta.
  pose proof (printViaIP_footprint now html bill host port copies r) as H.
  cbv zeta in H. destruct H as [_ [_ [[_ R C K] _]]].
  split; [exact R|]. split; [exact C | exact K].
Qed.

(** X11.  Asked for zero or fewer copies, [printViaIP] opens no connection
    at all and still resolves with [success = true], as [ip_pdf] or as
    [ip_raw]. *)
Theorem no_copies_is_reported_as_printed now html bill host port copies r :
  copies <= 0 ->
  let res := viaIP now html bill host port copies r in
  connects (trace (snd res)) = connects (trace r)
  /\ exists result,
       fst res = Resolved result /\ success result = true
       /\ (method result = "ip_pdf"%string \/ method result = "ip_raw"%string).
Proof.
  intro Hc. cbv zeta.
  pose proof (printViaIP_footprint now html bill host port copies r) as H.
  cbv zeta in H. destruct H as [_ [_ [_ [_ Hzero]]]].
  assert (Hn : Z.to_nat copies = 0%nat) by lia.
  destruct (Hzero Hn) as [[Hr|Hr] Hk]; (split; [exact Hk|]);
    eexists; (split; [exact Hr|]); cbn; auto.
Qed.

End DispatchFootprint.

Lemma last_app_cons (A : Type) (l l' : list A) (a d : A) :
  last (l ++ a :: l') d = last (a :: l') d.
Proof.
  induction l as [|x l IH]; [reflexivity|].
  cbn [app]. change (last (x :: l ++ a :: l') d)
    with (match l ++ a :: l' with [] => x | _ :: _ => last (l ++ a :: l') d end).
  destruct (l ++ a :: l') eqn:E; [destruct l; discriminate | exact IH].
Qed.

(** X12.  One [_sendRawToIPPrinter] resolves exactly when the connection is
    accepted and the printer closes it, each within the 10 second idle time.
    Data is written only on a connection that was accepted in time, and it
    is the data handed in.  When the promise rejects, the reason is either
    the error of the transport, or the time-out text, and in the latter case
    the last thing done to the socket is to destroy it. *)
Theorem send_resolves_iff_printer_closes data host port w ws r :
  wires r = w :: ws ->
  let res := _sendRawToIPPrinter data host port r in
  (fst res = Resolved tt <-> completes w)
  /\ (forall d, In (SockWrite d) (session data host port w) ->
                d = data /\ exists t p, w = Accepts t p /\ t < 10000)
  /\ (forall e, fst res = Rejected e ->
        (exists message, e = ("IP Printer error: " ++ message)%string)
        \/ (e = ("IP Printer timeout connecting to " ++ host ++ ":"
                  ++ show_Z port)%string
            /\ last (trace (snd res)) SockClosed = SockDestroy)).
Proof.
  intros Hw. cbv zeta.
  destruct (send_frame data host port w ws r Hw) as [Hv [_ [Htr _]]].
  rewrite Hv, Htr. clear Hv Htr.
  split; [|split].
  - split.
    + intro Hres. destruct w as [t msg|t p|].
      * exfalso. revert Hres.
        unfold verdict, _sendRawToIPPrinter, send_timed_out, bind, emit,
          next_wire, wait, ret, throw, lone. cbn.
        destruct (t <? 10000); discriminate.
      * revert Hres.
        unfold verdict, _sendRawToIPPrinter, send_timed_out, bind, emit,
          next_wire, wait, ret, throw, lone. cbn.
        destruct (Z.ltb_spec t 10000) as [Ht|Ht]; cbn; [|discriminate].
        destruct p as [t'|t' msg|]; cbn; try discriminate.
        -- destruct (Z.ltb_spec t' 10000) as [Ht'|Ht']; cbn; [|discriminate].
           intros _. exists t, t'. auto.
        -- destruct (t' <? 10000); discriminate.
      * exfalso. revert Hres.
        unfold verdict, _sendRawToIPPrinter, send_timed_out, bind, emit,
          next_wire, wait, ret, throw, lone. cbn. discriminate.
    + intro Hc. exact (proj2 (session_of_complete data host port w Hc)).
  - intros d Hin. split; [exact (session_writes _ _ _ _ _ Hin)|].
    revert Hin.
    unfold session, _sendRawToIPPrinter, send_timed_out, bind, emit, next_wire,
      wait, ret, throw, lone. cbn.
    destruct w as [t msg|t p|]; cbn.
    + destruct (t <? 10000); cbn; intro H;
        repeat (destruct H as [H|H]; [discriminate H|]); contradiction.
    + destruct (Z.ltb_spec t 10000) as [Ht|Ht]; cbn.
      * intros _. exists t, p. auto.
      * intro H. repeat (destruct H as [H|H]; [discriminate H|]); contradiction.
    + intro H. repeat (destruct H as [H|H]; [discriminate H|]); contradiction.
  - intros e.
    unfold verdict, session, _sendRawToIPPrinter, send_timed_out, bind, emit,
      next_wire, wait, ret, throw, lone. cbn.
    destruct w as [t msg|t p|]; cbn;
      [destruct (t <? 10000)
      |destruct (t <? 10000);
         [destruct p as [t'|t' msg|]; cbn; try destruct (t' <? 10000)|]
      |]; cbn; intro H; inversion H; subst;
      try (left; eexists; reflexivity);
      right; (split; [reflexivity|]);
      (rewrite last_app_cons; reflexivity).
Qed.


Lemma no_copies_is_reported_as_printed_witness :
  let r := demo_runtime [Produces "%PDF-1.4"%string] two_good in
  let res := demo_viaIP 0 r in
  connects (trace (snd res)) = connects (trace r)
  /\ exists result,
       fst res = Resolved result /\ success result = true
       /\ (method result = "ip_pdf"%string \/ method result = "ip_raw"%string).
Proof.
  exact (no_copies_is_reported_as_printed demo_number demo_date demo_date
           demo_date demo_service 1700000700000 "<html>receipt</html>"%string
           demo_bill "10.0.0.9"%string 9100 0
           (demo_runtime [Produces "%PDF-1.4"%string] two_good)
           (Z.le_refl 0)).
Defined.

Lemma send_resolves_iff_printer_closes_witness :
  let w := Accepts 5 (Closes 120) in
  let res := _sendRawToIPPrinter "receipt"%string "10.0.0.9"%string 9100 (lone w) in
  (fst res = Resolved tt <-> completes w)
  /\ (forall d, In (SockWrite d) (session "receipt"%string "10.0.0.9"%string 9100 w) ->
                d = "receipt"%string /\ exists t p, w = Accepts t p /\ t < 10000)
  /\ (forall e, fst res = Rejected e ->
        (exists message, e = ("IP Printer error: " ++ message)%string)
        \/ (e = ("IP Printer timeout connecting to " ++ "10.0.0.9" ++ ":"
                  ++ show_Z 9100)%string
            /\ last (trace (snd res)) SockClosed = SockDestroy)).
Proof.
  exact (send_resolves_iff_printer_closes "receipt"%string "10.0.0.9"%string 9100
           (Accepts 5 (Closes 120)) [] (lone (Accepts 5 (Closes 120))) eq_refl).
Defined.

End PrinterDispatchEffort.

(** * The probe and the raw document *)

Section ProbeAndDocument.

Import PrinterService.
Local Open Scope string_scope.

(** X13.  The probe reports [reachable = true] exactly when the connection
    is accepted before its 4000 ms timer fires, and then with no error text;
    the result names the host and the port probed (9100 when none is given);
    one probe opens exactly one connection. *)
Theorem probe_reachable_iff_accepted_in_time host port_arg r :
  let res := testIPPrinter host port_arg r in
  exists result,
    fst res = Resolved result
    /\ p_host result = host
    /\ p_port result = probed_port port_arg
    /\ (reachable result = true
        <-> exists t p, hd Ignores (wires r) = Accepts t p /\ t < 4000)
    /\ (reachable result = true -> p_error result = None)
    /\ connects (trace (snd res)) = (connects (trace r) + 1)%nat.
Proof.
  cbv zeta.
  assert (Hc : forall tl, In tl [[]; [SockDestroy]] ->
               connects (trace r ++ SockSetTimeout 4000
                   :: SockConnect host (probed_port port_arg) :: tl)
               = (connects (trace r) + 1)%nat).
  { intros tl [<-|[<-|[]]]; rewrite connects_app; reflexivity. }
  unfold testIPPrinter, probe_timed_out, bind, emit, next_wire, wait, ret.
  fold (probed_port port_arg). cbn.
  destruct (wires r) as [|w ws] eqn:Hw; cbn.
  - eexists. split; [reflexivity|]. cbn. repeat split; try discriminate.
    + intros [t [p [H _]]]. discriminate H.
    + repeat rewrite <- app_assoc; cbn [app]; (apply Hc; cbn; auto).
  - destruct w as [t msg|t p|]; cbn.
    + destruct (Z.ltb_spec t 4000) as [Ht|Ht]; cbn;
        (eexists; split; [reflexivity|]); cbn; repeat split; try discriminate;
        try (intros [t0 [p0 [H _]]]; discriminate H);
        repeat rewrite <- app_assoc; cbn [app]; (apply Hc; cbn; auto).
    + destruct (Z.ltb_spec t 4000) as [Ht|Ht]; cbn;
        (eexists; split; [reflexivity|]); cbn; repeat split; try discriminate;
        try (intros _; exists t, p; auto);
        try (intros [t0 [p0 [H H']]]; inversion H; subst; lia);
        repeat rewrite <- app_assoc; cbn [app]; (apply Hc; cbn; auto).
    + eexists. split; [reflexivity|]. cbn. repeat split; try discriminate.
      * intros [t [p [H _]]]. discriminate H.
      * repeat rewrite <- app_assoc; cbn [app]; (apply Hc; cbn; auto).
Qed.

Section Document.

Variable Number_toString : Q -> string.
Variable toLocaleDateString : Z -> string.
Variable toLocaleTimeString : Z -> string.
Variable toLocaleString : Z -> string.

Let buildRaw := _buildRawPCL Number_toString toLocaleDateString
                             toLocaleTimeString toLocaleString.


End Document.


End ProbeAndDocument.

(** * The local print queue *)

Section QueueProperties.

Import PrinterService LocalQueue.
Local Open Scope string_scope.

Lemma lookup_cons_same f c l : lookup_file f ((f, c) :: l) = Some c.
Proof. unfold lookup_file. cbn. rewrite String.eqb_refl. reflexivity. Qed.

Lemma spooled_app tr tr' : spooled (tr ++ tr') = (spooled tr + spooled tr')%nat.
Proof. unfold spooled. rewrite filter_app, length_app. reflexivity. Qed.

Lemma holds_files f r r' : disk r' = disk r -> holds f r' = holds f r.
Proof. unfold holds. intros ->. reflexivity. Qed.

Lemma queue_write f c r :
  exists r',
    write_file f c r = (Resolved tt, r')
    /\ holds f r' = Some c
    /\ (forall g, g <> f -> holds g r' = holds g r)
    /\ replies r' = replies r
    /\ spooled (history r') = spooled (history r).
Proof.
  eexists. split; [reflexivity|]. unfold holds. cbn [disk replies history].
  split; [apply lookup_cons_same|]. split; [|split; [reflexivity|]].
  - intros g Hg. rewrite lookup_cons_other by exact Hg.
    apply lookup_filter_other. exact Hg.
  - rewrite spooled_app. cbn. lia.
Qed.

Lemma queue_unlink f r :
  exists r',
    unlink_existing f r = (Resolved tt, r')
    /\ holds f r' = None
    /\ (forall g, g <> f -> holds g r' = holds g r)
    /\ replies r' = replies r
    /\ spooled (history r') = spooled (history r).
Proof.
  unfold unlink_existing, holds.
  destruct (lookup_file f (disk r)) eqn:E.
  - eexists. split; [reflexivity|]. cbn [disk replies history].
    split; [apply lookup_filter_same|]. split; [|split; [reflexivity|]].
    + intros g Hg. apply lookup_filter_other. exact Hg.
    + rewrite spooled_app. cbn. lia.
  - exists r. repeat split; auto.
Qed.

(** A command that is not the renderer touches no file. *)
Lemma queue_spool line r :
  exists r',
    exec (Spool line) r = (Resolved (hd (Breaks "spawn ENOENT") (replies r)), r')
    /\ disk r' = disk r
    /\ replies r' = tl (replies r)
    /\ spooled (history r') = (spooled (history r) + 1)%nat.
Proof.
  unfold exec, and_then, log_action, next_reply, finish. cbn [replies disk history].
  destruct (replies r) as [|[out|m] es]; cbn [hd tl];
    (eexists; split; [reflexivity|]); cbn [disk replies history];
    (split; [reflexivity|]); (split; [reflexivity|]);
    rewrite spooled_app; cbn; lia.
Qed.

Lemma queue_render line pdf r :
  exists r',
    exec (Render line pdf) r = (Resolved (hd (Breaks "spawn ENOENT") (replies r)), r')
    /\ replies r' = tl (replies r)
    /\ spooled (history r') = (spooled (history r) + 1)%nat
    /\ (forall g, g <> pdf -> holds g r' = holds g r)
    /\ match hd (Breaks "spawn ENOENT") (replies r) with
       | Produces out => holds pdf r' = Some out
       | Breaks _ => holds pdf r' = holds pdf r
       end.
Proof.
  unfold exec, and_then, log_action, next_reply, finish, put_file, holds. cbn [replies disk history].
  destruct (replies r) as [|[out|m] es]; cbn [hd tl fst snd replies disk history];
    (eexists; split; [reflexivity|]); cbn [disk replies history];
    (split; [reflexivity|]);
    (split; [rewrite spooled_app; cbn; lia|]).
  - split; reflexivity.
  - split; [|apply lookup_cons_same].
    intros g Hg. rewrite lookup_cons_other by exact Hg.
    apply lookup_filter_other. exact Hg.
  - split; reflexivity.
Qed.

Section QueueRuns.

Variable Number_toString : Q -> string.
Variable toLocaleDateString : Z -> string.
Variable toLocaleTimeString : Z -> string.
Variable toLocaleString : Z -> string.
Variable self : Service.
Variable platform : Platform.

Let rawText := _printRawText Number_toString toLocaleDateString
                 toLocaleTimeString toLocaleString self platform.
Let viaLocal := printViaLocal Number_toString toLocaleDateString
                  toLocaleTimeString toLocaleString self platform.
Let viaPDF := printViaPDF Number_toString self platform.
Let temp := temp_file Number_toString self.

Let raw_file := raw_file self.

Lemma printRawText_footprint now bill printerName copies r :
  exists result r',
    rawText now bill printerName copies r = (Resolved result, r')
    /\ l_method result = "raw_text"
    /\ match hd (Breaks "spawn ENOENT") (replies r) with
       | Produces _ => l_success result = true /\ l_error result = None
       | Breaks message => l_success result = false /\ l_error result = Some message
       end
    /\ holds (raw_file now) r' = None
    /\ (forall g, g <> raw_file now -> holds g r' = holds g r)
    /\ spooled (history r') = (spooled (history r) + 1)%nat.
Proof.
  unfold rawText, _printRawText.
  change (tempDir self ++ "/raw_" ++ show_Z now ++ ".prn") with (raw_file now).
  cbv zeta. unfold and_then at 1.
  match goal with |- context [write_file ?f ?c r] =>
    destruct (queue_write f c r) as [r1 [E1 [_ [F1 [X1 S1]]]]]; rewrite E1 end.
  unfold and_then at 1.
  match goal with |- context [exec (Spool ?l) r1] =>
    destruct (queue_spool l r1) as [r2 [E2 [F2 [_ S2]]]]; rewrite E2 end.
  unfold and_then at 1. cbn [cleanup_temp]. unfold and_then at 1.
  destruct (queue_unlink (raw_file now) r2) as [r3 [E3 [A3 [F3 [_ S3]]]]].
  rewrite E3. unfold finish at 1.
  rewrite X1.
  assert (Hother : forall g, g <> raw_file now -> holds g r3 = holds g r).
  { intros g Hg. rewrite F3 by exact Hg. unfold holds at 1. rewrite F2.
    apply F1. exact Hg. }
  destruct (hd (Breaks "spawn ENOENT") (replies r)) as [out|m];
    (eexists; eexists; split; [reflexivity|]); cbn [l_method l_success l_error];
    repeat split; auto; lia.
Qed.

Lemma execAsync_spool line r :
  exists r',
    disk r' = disk r
    /\ replies r' = tl (replies r)
    /\ spooled (history r') = (spooled (history r) + 1)%nat
    /\ exec_async (Spool line) r
       = (match hd (Breaks "spawn ENOENT") (replies r) with
          | Produces out => Resolved out
          | Breaks message => Rejected message
          end, r').
Proof.
  destruct (queue_spool line r) as [r' [E [F [X S]]]].
  exists r'. repeat split; auto.
  unfold exec_async, and_then. rewrite E.
  destruct (hd (Breaks "spawn ENOENT") (replies r)); reflexivity.
Qed.

Lemma local_print_run now later html bill printerName copies r :
  exists result r',
    viaLocal now later html bill printerName copies r = (Resolved result, r')
    /\ (l_method result = "local" /\ l_success result = true
        \/ l_method result = "raw_text" /\ holds (raw_file later) r' = None)
    /\ (l_success result = false -> exists message, l_error result = Some message)
    /\ holds (temp bill now ".html") r' = None
    /\ (forall f, f <> temp bill now ".html" -> f <> raw_file later ->
                  holds f r' = holds f r)
    /\ (spooled (history r') <= spooled (history r) + 2)%nat.
Proof.
  unfold viaLocal, printViaLocal. fold temp. cbv zeta.
  set (hf := temp bill now ".html").
  unfold and_then at 1.
  destruct (queue_write hf html r) as [r1 [E1 [_ [F1 [X1 S1]]]]]. rewrite E1.
  unfold rescue. unfold and_then at 1.
  match goal with |- context [exec_async (Spool ?l) r1] =>
    destruct (execAsync_spool l r1) as [r2 [F2 [X2 [S2 E2]]]]; rewrite E2 end.
  destruct (queue_unlink hf r2) as [r3 [E3 [A3 [F3 [X3 S3]]]]].
  assert (Hother : forall g, g <> hf -> holds g r3 = holds g r).
  { intros g Hg. rewrite F3 by exact Hg. unfold holds at 1. rewrite F2.
    apply F1. exact Hg. }
  destruct (hd (Breaks "spawn ENOENT") (replies r1)) as [out|m].
  - cbn [cleanup_temp]. unfold and_then. rewrite E3. unfold finish.
    eexists; eexists. split; [reflexivity|]. cbn [l_method l_success l_error].
    split; [left; auto|]. split; [discriminate|]. split; [exact A3|].
    split; [|lia]. intros f Hf _. apply Hother. exact Hf.
  - cbn [cleanup_temp]. unfold and_then at 1. unfold and_then at 1. rewrite E3.
    unfold finish at 1.
    destruct (printRawText_footprint later bill printerName copies r3)
      as [result [r4 [E4 [M4 [R4 [A4 [F4 S4]]]]]]].
    fold rawText. rewrite E4.
    exists result, r4. split; [reflexivity|].
    split; [right; auto|]. split; [|split; [|split]].
    + intro Hs. destruct (hd (Breaks "spawn ENOENT") (replies r3)) as [o|m'].
      * destruct R4 as [R4 _]. congruence.
      * exists m'. apply R4.
    + destruct (String.eqb_spec hf (raw_file later)) as [Heq|Hne].
      * rewrite Heq. exact A4.
      * rewrite F4 by exact Hne. exact A3.
    + intros f Hf Hr. rewrite F4 by exact Hr. apply Hother. exact Hf.
    + lia.
Qed.


(** X15.  [printViaLocal] never rejects, whatever the two commands do: it
    resolves with method [local] and [success = true], or with the result
    of the raw text fallback, which carries an error text when it reports
    [success = false].  Afterwards its HTML temp file is gone, the temp file
    of the fallback is gone when the fallback ran, no other file was
    touched, and at most two commands were handed to the shell. *)
Theorem local_print_never_rejects now later html bill printerName copies r :
  let res := viaLocal now later html bill printerName copies r in
  exists result,
    fst res = Resolved result
    /\ (l_method result = "local" /\ l_success result = true
        \/ l_method result = "raw_text" /\ holds (raw_file later) (snd res) = None)
    /\ (l_success result = false -> exists message, l_error result = Some message)
    /\ holds (temp bill now ".html") (snd res) = None
    /\ (forall f, f <> temp bill now ".html" -> f <> raw_file later ->
                  holds f (snd res) = holds f r)
    /\ (spooled (history (snd res)) <= spooled (history r) + 2)%nat.
Proof.
  cbv zeta.
  destruct (local_print_run now later html bill printerName copies r)
    as [result [r' [E H]]].
  rewrite E. exists result. split; [reflexivity | exact H].
Qed.

Lemma temp_ext_inj bill now e1 e2 : temp bill now e1 = temp bill now e2 -> e1 = e2.
Proof.
  unfold temp, temp_file. intro H.
  assert (Hinj : forall p a b : string, p ++ a = p ++ b -> a = b).
  { induction p as [|c p IH]; cbn; intros a b Hab; [exact Hab|].
    inversion Hab. apply IH. assumption. }
  repeat (apply Hinj in H). exact H.
Qed.

Lemma pdf_print_run now html bill printerName copies r :
  exists o r',
    viaPDF now html bill printerName copies r = (o, r')
    /\ match o with
       | Resolved result =>
           result = mkLocal true "pdf" None None (Some (temp bill now ".pdf"))
           /\ holds (temp bill now ".pdf") r' = None
       | Rejected e => exists message, e = "PDF print failed: " ++ message
       end
    /\ holds (temp bill now ".html") r' = None
    /\ (forall f, f <> temp bill now ".html" -> f <> temp bill now ".pdf" ->
                  holds f r' = holds f r)
    /\ (replies r' = tl (replies r) \/ replies r' = tl (tl (replies r)))
    /\ (forall out message rest,
          replies r = Produces out :: Breaks message :: rest ->
          o = Rejected ("PDF print failed: " ++ message)
          /\ holds (temp bill now ".pdf") r' = Some out).
Proof.
  unfold viaPDF, printViaPDF. fold temp. cbv zeta.
  set (hf := temp bill now ".html"). set (pf := temp bill now ".pdf").
  assert (Hne : pf <> hf).
  { intro H. apply temp_ext_inj in H. discriminate H. }
  unfold and_then at 1.
  destruct (queue_write hf html r) as [r1 [E1 [_ [F1 [X1 S1]]]]]. rewrite E1.
  unfold rescue. unfold and_then at 1. unfold exec_async at 1. unfold and_then at 1.
  match goal with |- context [exec (Render ?l pf) r1] =>
    destruct (queue_render l pf r1) as [r2 [E2 [X2 [S2 [F2 P2]]]]]; rewrite E2 end.
  rewrite X1 in *.
  destruct (replies r) as [|e1 es] eqn:Hexecs; cbn [hd tl] in *.
  - unfold fail at 1. cbn [cleanup_temp]. unfold and_then.
    destruct (queue_unlink hf r2) as [r4 [E4 [A4 [F4 [X4 _]]]]]. rewrite E4.
    unfold finish, fail. eexists; eexists. split; [reflexivity|].
    split; [eexists; reflexivity|]. split; [exact A4|].
    split; [|split; [left; congruence | discriminate]].
    intros f Hh Hp. rewrite F4 by assumption.
    rewrite F2 by exact Hp. apply F1, Hh.
  - destruct e1 as [out|m].
    + unfold finish at 1. unfold and_then at 1.
      match goal with |- context [exec_async (Spool ?l) r2] =>
        destruct (execAsync_spool l r2) as [r3 [F3 [X3 [S3 E3]]]]; rewrite E3 end.
      rewrite X2 in *.
      destruct es as [|e2 es']; cbn [hd tl] in *;
        [|destruct e2 as [out'|m']].
      * cbn [cleanup_temp]. unfold and_then.
        destruct (queue_unlink hf r3) as [r4 [E4 [A4 [F4 [X4 _]]]]]. rewrite E4.
        unfold finish, fail. eexists; eexists. split; [reflexivity|].
        split; [eexists; reflexivity|]. split; [exact A4|].
        split; [|split; [right; congruence | discriminate]].
        intros f Hh Hp. rewrite F4 by assumption.
        rewrite (holds_files f _ _ F3). rewrite F2 by exact Hp. apply F1, Hh.
      * cbn [cleanup_temp]. unfold and_then.
        destruct (queue_unlink hf r3) as [r4 [E4 [A4 [F4 [X4 _]]]]]. rewrite E4.
        destruct (queue_unlink pf r4) as [r5 [E5 [A5 [F5 [X5 _]]]]]. rewrite E5.
        unfold finish. eexists; eexists. split; [reflexivity|].
        split; [split; [reflexivity | exact A5]|]. split; [|split].
        -- rewrite F5 by (intro H; apply Hne; symmetry; exact H). exact A4.
        -- intros f Hh Hp. rewrite F5, F4 by assumption.
           rewrite (holds_files f _ _ F3). rewrite F2 by exact Hp. apply F1, Hh.
        -- split; [right; congruence | discriminate].
      * cbn [cleanup_temp]. unfold and_then.
        destruct (queue_unlink hf r3) as [r4 [E4 [A4 [F4 [X4 _]]]]]. rewrite E4.
        unfold finish, fail. eexists; eexists. split; [reflexivity|].
        split; [eexists; reflexivity|]. split; [exact A4|]. split; [|split].
        -- intros f Hh Hp. rewrite F4 by assumption.
           rewrite (holds_files f _ _ F3). rewrite F2 by exact Hp. apply F1, Hh.
        -- right. congruence.
        -- intros out0 message rest H. inversion H; subst. split; [reflexivity|].
           rewrite F4 by exact Hne. rewrite (holds_files pf _ _ F3). exact P2.
    + unfold fail at 1. cbn [cleanup_temp]. unfold and_then.
      destruct (queue_unlink hf r2) as [r4 [E4 [A4 [F4 [X4 _]]]]]. rewrite E4.
      unfold finish, fail. eexists; eexists. split; [reflexivity|].
      split; [eexists; reflexivity|]. split; [exact A4|].
      split; [|split; [left; congruence | discriminate]].
      intros f Hh Hp. rewrite F4 by assumption.
      rewrite F2 by exact Hp. apply F1, Hh.
Qed.

(** X17.  [printViaPDF] rejects only with a text that starts with
    [PDF print failed: ]; when it resolves, the result has method [pdf] and
    names the PDF file, which by then is deleted.  In either case the HTML
    temp file is gone afterwards and no file but the two temp files was
    touched. *)
Theorem pdf_print_outcomes now html bill printerName copies r :
  let res := viaPDF now html bill printerName copies r in
  match fst res with
  | Resolved result =>
      result = mkLocal true "pdf" None None (Some (temp bill now ".pdf"))
      /\ holds (temp bill now ".pdf") (snd res) = None
  | Rejected e => exists message, e = "PDF print failed: " ++ message
  end
  /\ holds (temp bill now ".html") (snd res) = None
  /\ (forall f, f <> temp bill now ".html" -> f <> temp bill now ".pdf" ->
                holds f (snd res) = holds f r).
Proof.
  cbv zeta.
  destruct (pdf_print_run now html bill printerName copies r)
    as [o [r' [E [H1 [H2 [H3 _]]]]]].
  rewrite E. cbn [fst snd]. auto.
Qed.

(** X18.  When the renderer succeeds and the command that spools the PDF
    fails, [printViaPDF] rejects with the error of that command and leaves
    the rendered PDF in the temp directory: only the HTML file is
    removed. *)
Theorem pdf_left_behind_when_spooling_fails now html bill printerName copies r
    out message rest :
  replies r = Produces out :: Breaks message :: rest ->
  let res := viaPDF now html bill printerName copies r in
  fst res = Rejected ("PDF print failed: " ++ message)
  /\ holds (temp bill now ".pdf") (snd res) = Some out
  /\ holds (temp bill now ".html") (snd res) = None.
Proof.
  intro Hexecs. cbv zeta.
  destruct (pdf_print_run now html bill printerName copies r)
    as [o [r' [E [_ [H2 [_ [_ H5]]]]]]].
  rewrite E. cbn [fst snd].
  destruct (H5 out message rest Hexecs) as [Ho Hp].
  split; [exact Ho|]. split; [exact Hp | exact H2].
Qed.

End QueueRuns.

(** X16.  On win32 the number of copies asked for has no effect on
    [printViaLocal] at all: not on the commands, not on the files, not on
    the result.  On every platform it has no effect on the raw text
    fallback. *)
Theorem local_copies_without_effect Number_toString toLocaleDateString
    toLocaleTimeString toLocaleString self now later html bill printerName c1 c2 r :
  printViaLocal Number_toString toLocaleDateString toLocaleTimeString
    toLocaleString self Win32 now later html bill printerName c1 r
  = printViaLocal Number_toString toLocaleDateString toLocaleTimeString
      toLocaleString self Win32 now later html bill printerName c2 r
  /\ forall platform,
       _printRawText Number_toString toLocaleDateString toLocaleTimeString
         toLocaleString self platform later bill printerName c1 r
       = _printRawText Number_toString toLocaleDateString toLocaleTimeString
           toLocaleString self platform later bill printerName c2 r.
Proof. split; [reflexivity | intro platform; reflexivity]. Qed.

Lemma pdf_left_behind_when_spooling_fails_witness :
  let res := printViaPDF demo_number demo_service Unix 1700000700000
               "<html>receipt</html>" demo_bill "" 1
               (queue_runtime [Produces "%PDF-1.4"; Breaks "lpr: not found"]) in
  fst res = Rejected ("PDF print failed: " ++ "lpr: not found")
  /\ holds (temp_file demo_number demo_service demo_bill 1700000700000 ".pdf")
           (snd res) = Some "%PDF-1.4"
  /\ holds (temp_file demo_number demo_service demo_bill 1700000700000 ".html")
           (snd res) = None.
Proof.
  exact (pdf_left_behind_when_spooling_fails demo_number demo_service Unix
           1700000700000 "<html>receipt</html>" demo_bill "" 1
           (queue_runtime [Produces "%PDF-1.4"; Breaks "lpr: not found"])
           "%PDF-1.4" "lpr: not found" [] eq_refl).
Defined.

End QueueProperties.

(** * Changing the port while one is open *)

Section HotReload.

Lemma updateWeight_ports now x w :
  attached (updateWeight now x w) = attached w
  /\ opening (updateWeight now x w) = opening w
  /\ made (updateWeight now x w) = made w.
Proof.
  unfold updateWeight, ingest; cbv zeta.
  match goal with |- context [if ?b then _ else _] => destruct b end;
    repeat split; reflexivity.
Qed.

Lemma tryConnect_numbered ok w : numbered w -> numbered (_tryConnect ok w).
Proof.
  unfold numbered. intro Hw. unfold _tryConnect, fall_back, _startReconnectLoop,
    _startSimulationIfNeeded, on_this.
  destruct (reconnectActive (this w)); [exact Hw|].
  destruct ok; cbn.
  - intros p [Hp|Hp]; cbn in Hp.
    + specialize (Hw p (or_introl Hp)). lia.
    + apply in_app_or in Hp. destruct Hp as [Hp | [<-|[]]]; [|lia].
      specialize (Hw p (or_intror Hp)). lia.
  - repeat match goal with
           | |- context [match ?b with _ => _ end] => destruct b eqn:?; cbn
           end; exact Hw.
Qed.

Lemma step_numbered w e w' : numbered w -> step w e = Some w' -> numbered w'.
Proof.
  intros Hw Hstep. destruct e; cbn [step] in Hstep.
  - inversion Hstep; subst w'. apply tryConnect_numbered. exact Hw.
  - inversion Hstep; subst w'. unfold reconnect; cbv zeta.
    apply tryConnect_numbered.
    unfold on_this, _stopReconnectLoop, _stopSimulation. cbn.
    repeat match goal with
           | |- context [match ?b with _ => _ end] => destruct b eqn:?; cbn
           end; exact Hw.
  - destruct (mem sp (opening w)) eqn:Hm; [|discriminate].
    inversion Hstep; subst w'. apply mem_In in Hm.
    unfold open_callback, fall_back, broadcastStatus, fan_out, _stopReconnectLoop,
      _stopSimulation, _startReconnectLoop, _startSimulationIfNeeded, on_this.
    destruct err; cbn;
      repeat match goal with
             | |- context [match ?b with _ => _ end] => destruct b eqn:?; cbn
             end;
      intros p [Hp|Hp]; cbn in Hp;
      try (apply in_app_or in Hp; destruct Hp as [Hp | [<-|[]]]);
      try (apply remove_id_In in Hp); auto.
  - destruct (mem sp (attached w)); [|discriminate].
    inversion Hstep; subst w'.
    destruct (parseWeight_cases now line w) as [->|[x [_ [_ ->]]]]; [exact Hw|].
    destruct (updateWeight_ports now x w) as [E1 [E2 E3]].
    intros p. rewrite E1, E2, E3. apply Hw.
  - destruct (mem sp (attached w)); [|discriminate].
    inversion Hstep; subst w'.
    unfold _onPortLost, broadcastStatus, fan_out, _startReconnectLoop,
      _startSimulationIfNeeded, on_this. cbn.
    repeat match goal with
           | |- context [match ?b with _ => _ end] => destruct b eqn:?; cbn
           end; exact Hw.
  - destruct (mem sp (attached w)); [|discriminate].
    inversion Hstep; subst w'.
    unfold _onPortLost, broadcastStatus, fan_out, _startReconnectLoop,
      _startSimulationIfNeeded, on_this. cbn.
    repeat match goal with
           | |- context [match ?b with _ => _ end] => destruct b eqn:?; cbn
           end;
      intros p [Hp|Hp]; cbn in Hp; try (apply remove_id_In in Hp); auto.
  - destruct (reconnectTimer (this w)) eqn:Et; [|discriminate].
    inversion Hstep; subst w'.
    unfold poll_tick, _stopReconnectLoop, on_this.
    destruct (isConnected (this w)); cbn; rewrite ?Et; exact Hw.
  - destruct (polls w) eqn:Ep; [discriminate|].
    inversion Hstep; subst w'. unfold poll_resume.
    destruct available; [apply tryConnect_numbered|]; exact Hw.
  - destruct (simInterval (this w)) as [base|] eqn:Es; [|discriminate].
    inversion Hstep; subst w'. unfold sim_tick.
    destruct (isConnected (this w)).
    + unfold on_this, _stopSimulation. rewrite Es. exact Hw.
    + match goal with |- numbered (updateWeight ?n ?x ?v) =>
        destruct (updateWeight_ports n x v) as [E1 [E2 E3]] end.
      intros p. rewrite E1, E2, E3. apply Hw.
  - inversion Hstep; subst w'. exact Hw.
  - inversion Hstep; subst w'. exact Hw.
  - inversion Hstep; subst w'. exact Hw.
Qed.

Lemma reachable_numbered w : reachable w -> numbered w.
Proof.
  induction 1 as [|w w' e _ IH Hstep].
  - intros p [[]|[]].
  - exact (step_numbered w e w' IH Hstep).
Qed.

Lemma initialize_starts path baud w :
  reconnectActive (this w) = false ->
  opening (initialize path baud true w) = opening w ++ [made w]
  /\ attached (initialize path baud true w) = attached w
  /\ closing (initialize path baud true w) = closing w.
Proof.
  intro Hact. unfold initialize, _tryConnect, on_this. cbn. rewrite Hact.
  repeat split; reflexivity.
Qed.

Lemma open_callback_attaches sp w :
  port (this (open_callback sp None w)) = Some sp
  /\ attached (open_callback sp None w) = attached w ++ [sp]
  /\ closing (open_callback sp None w) = closing w.
Proof.
  unfold open_callback, broadcastStatus, fan_out, _stopReconnectLoop,
    _stopSimulation, on_this. cbn.
  repeat match goal with
         | |- context [match ?b with _ => _ end] => destruct b eqn:?; cbn
         end; repeat split; reflexivity.
Qed.

(** X19.  [initialize], which the settings route calls to change the port
    while the server runs, never closes the port that is open.  When it
    starts an attempt and the new port opens, the new port becomes
    [this.port], the listeners of the old port stay attached, and a line
    arriving on either of the two ports is parsed as a weight. *)
Theorem initialize_leaves_old_port_feeding w path baud p sp w1 w2 :
  reachable w ->
  In p (attached w) ->
  reconnectActive (this w) = false ->
  step w (EvInitialize path baud true) = Some w1 ->
  step w1 (EvOpened sp None) = Some w2 ->
  sp <> p
  /\ port (this w2) = Some sp
  /\ closing w2 = closing w
  /\ (forall now line,
        step w2 (EvPortData p now line) = Some (parseWeight now line w2))
  /\ (forall now line,
        step w2 (EvPortData sp now line) = Some (parseWeight now line w2)).
Proof.
  intros Hw Hp Hact H1 H2.
  pose proof (reachable_numbered w Hw p (or_introl Hp)) as Hlt.
  cbn [step] in H1, H2. inversion H1; subst w1. clear H1.
  destruct (mem sp (opening (initialize path baud true w))) eqn:Hm; [|discriminate].
  pose proof (f_equal (fun o => match o with Some x => x | None => w2 end) H2) as E.
  change (open_callback sp None (initialize path baud true w) = w2) in E.
  subst w2. clear H2.
  destruct (initialize_starts path baud w Hact) as [I1 [I2 I3]].
  destruct (open_callback_attaches sp (initialize path baud true w))
    as [O1 [O2 O3]].
  destruct (reachable_consistent w Hw) as [_ Hopen].
  rewrite Hact in Hopen.
  apply mem_In in Hm. rewrite I1, Hopen in Hm. cbn in Hm.
  destruct Hm as [<-|[]].
  split; [lia|]. split; [exact O1|]. split; [congruence|].
  cbn [step]. rewrite O2, I2.
  split; intros now line.
  - rewrite (proj2 (mem_In p _)); [reflexivity|].
    apply in_or_app. left. exact Hp.
  - rewrite (proj2 (mem_In (made w) _)); [reflexivity|].
    apply in_or_app. right. left. reflexivity.
Qed.

Lemma initialize_leaves_old_port_feeding_witness :
  let w1 := initialize "COM4" 9600 true connected_world in
  let w2 := open_callback 2%nat None w1 in
  2%nat <> 1%nat
  /\ port (this w2) = Some 2%nat
  /\ closing w2 = closing connected_world
  /\ (forall now line,
        step w2 (EvPortData 1%nat now line) = Some (parseWeight now line w2))
  /\ (forall now line,
        step w2 (EvPortData 2%nat now line) = Some (parseWeight now line w2)).
Proof.
  assert (Hin : In 1%nat (attached connected_world))
    by (vm_compute; left; reflexivity).
  assert (Hact : reconnectActive (this connected_world) = false)
    by (vm_compute; reflexivity).
  assert (H2 : step (initialize "COM4" 9600 true connected_world)
                    (EvOpened 2%nat None)
               = Some (open_callback 2%nat None
                         (initialize "COM4" 9600 true connected_world)))
    by (vm_compute; reflexivity).
  exact (initialize_leaves_old_port_feeding connected_world "COM4" 9600
           1%nat 2%nat (initialize "COM4" 9600 true connected_world)
           (open_callback 2%nat None (initialize "COM4" 9600 true connected_world))
           connected_world_reachable Hin Hact eq_refl H2).
Defined.

End HotReload.

(** * The list of local printers *)

Section PrinterList.

Import PrinterService LocalQueue.
Local Open Scope string_scope.

Lemma split_on_cons sep s : exists first rest, split_on sep s = first :: rest.
Proof.
  induction s as [|c r IH]; cbn; [eauto|].
  destruct (Ascii.eqb c sep); [eauto|].
  destruct IH as [f [l ->]]. eauto.
Qed.

Lemma all_chars_split P sep s :
  all_chars P s = true ->
  Forall (fun x => all_chars P x = true) (split_on sep s).
Proof.
  induction s as [|c r IH]; cbn; intro H.
  - repeat constructor.
  - apply andb_true_iff in H. destruct H as [Hc Hr]. specialize (IH Hr).
    destruct (Ascii.eqb c sep); [constructor; [reflexivity | exact IH]|].
    destruct (split_on sep r) as [|f l].
    + repeat constructor. cbn. rewrite Hc. reflexivity.
    + inversion IH; subst. constructor; [|assumption].
      cbn. rewrite Hc. assumption.
Qed.

Lemma split_on_free sep s :
  Forall (fun x => free_of sep x = true) (split_on sep s).
Proof.
  unfold free_of. induction s as [|c r IH]; cbn.
  - repeat constructor.
  - destruct (Ascii.eqb c sep) eqn:E; [constructor; [reflexivity | exact IH]|].
    destruct (split_on sep r) as [|f l].
    + repeat constructor. cbn. rewrite E. reflexivity.
    + inversion IH; subst. constructor; [|assumption].
      cbn. rewrite E. assumption.
Qed.

Lemma split_on_app sep s t :
  free_of sep s = true ->
  split_on sep (s ++ String sep t) = s :: split_on sep t.
Proof.
  unfold free_of. induction s as [|c r IH]; cbn; intro H.
  - rewrite Ascii.eqb_refl. reflexivity.
  - apply andb_true_iff in H. destruct H as [Hc Hr].
    apply negb_true_iff in Hc. rewrite Hc, (IH Hr). reflexivity.
Qed.

Lemma split_on_whole sep s : free_of sep s = true -> split_on sep s = [s].
Proof.
  unfold free_of. induction s as [|c r IH]; cbn; intro H; [reflexivity|].
  apply andb_true_iff in H. destruct H as [Hc Hr].
  apply negb_true_iff in Hc. rewrite Hc, (IH Hr). reflexivity.
Qed.

Lemma all_chars_trim_start P s :
  all_chars P s = true -> all_chars P (trim_start s) = true.
Proof.
  induction s as [|c r IH]; cbn; intro H; [reflexivity|].
  destruct (is_space c); [|exact H].
  apply andb_true_iff in H. apply IH, H.
Qed.

Lemma all_chars_trim_end P s :
  all_chars P s = true -> all_chars P (trim_end s) = true.
Proof.
  induction s as [|c r IH]; cbn; intro H; [reflexivity|].
  apply andb_true_iff in H. destruct H as [Hc Hr]. specialize (IH Hr).
  destruct (trim_end r) as [|c' r'].
  - destruct (is_space c); cbn; [reflexivity | rewrite Hc; reflexivity].
  - cbn [all_chars]. rewrite Hc. exact IH.
Qed.

Lemma all_chars_trim P s : all_chars P s = true -> all_chars P (trim s) = true.
Proof. intro H. apply all_chars_trim_end, all_chars_trim_start, H. Qed.

Lemma trim_end_idempotent s : trim_end (trim_end s) = trim_end s.
Proof.
  induction s as [|c r IH]; [reflexivity|].
  change (trim_end (String c r))
    with (match trim_end r with
          | EmptyString => if is_space c then EmptyString else String c EmptyString
          | String a x => String c (String a x)
          end).
  destruct (trim_end r) as [|c' r'] eqn:E.
  - destruct (is_space c) eqn:Ec; cbn; [reflexivity | rewrite Ec; reflexivity].
  - change (trim_end (String c (String c' r')))
      with (match trim_end (String c' r') with
            | EmptyString => if is_space c then EmptyString else String c EmptyString
            | String a x => String c (String a x)
            end).
    rewrite IH. reflexivity.
Qed.

(** A string that does not begin with white space still does not after its
    end was trimmed. *)
Lemma trim_end_keeps_head s :
  trim_start s = s -> trim_start (trim_end s) = trim_end s.
Proof.
  destruct s as [|c r]; cbn; [reflexivity|].
  destruct (is_space c) eqn:Ec.
  - intro H. exfalso.
    assert (Hlen : forall t, (String.length (trim_start t) <= String.length t)%nat).
    { induction t as [|a t IHt]; cbn; [lia|]. destruct (is_space a); cbn; lia. }
    specialize (Hlen r). rewrite H in Hlen. cbn in Hlen. lia.
  - intros _. destruct (trim_end r); cbn; rewrite Ec; reflexivity.
Qed.

Lemma trim_start_idempotent s : trim_start (trim_start s) = trim_start s.
Proof.
  induction s as [|c r IH]; cbn; [reflexivity|].
  destruct (is_space c) eqn:Ec; [exact IH|]. cbn. rewrite Ec. reflexivity.
Qed.

Lemma trim_idempotent s : trim (trim s) = trim s.
Proof.
  unfold trim.
  rewrite (trim_end_keeps_head (trim_start s) (trim_start_idempotent s)).
  apply trim_end_idempotent.
Qed.

Lemma truthy_nonempty s : truthy s = true -> s <> "".
Proof. unfold truthy. intros H ->. discriminate H. Qed.

Lemma In_tl (A : Type) (x : A) l : In x (tl l) -> In x l.
Proof. destruct l; cbn; auto. Qed.

Lemma wmic_entries_spec rows :
  Forall (fun l => free_of NEWLINE l = true) rows ->
  Forall (fun p => exists n, name p = Some n
                             /\ n <> "" /\ trim n = n
                             /\ free_of NEWLINE n = true
                             /\ free_of "," n = true)
         (wmic_entries rows).
Proof.
  intro Hrows. unfold wmic_entries. apply Forall_forall. intros p Hin.
  apply filter_In in Hin. destruct Hin as [Hin Hname].
  apply in_map_iff in Hin. destruct Hin as [l [<- Hl]].
  cbn [name] in *.
  destruct (nth_error (split_on "," l) 1) as [field|] eqn:Ef; [|discriminate].
  cbn [option_map] in *. exists (trim field).
  apply nth_error_In in Ef.
  split; [reflexivity|]. split; [apply truthy_nonempty; exact Hname|].
  split; [apply trim_idempotent|]. split.
  - apply all_chars_trim.
    rewrite Forall_forall in Hrows.
    pose proof (all_chars_split _ "," l (Hrows l Hl)) as Hparts.
    rewrite Forall_forall in Hparts. exact (Hparts field Ef).
  - apply all_chars_trim.
    pose proof (split_on_free "," l) as Hparts.
    rewrite Forall_forall in Hparts. exact (Hparts field Ef).
Qed.

Lemma lines_free output :
  Forall (fun l => free_of NEWLINE l = true) (split_on NEWLINE output).
Proof. apply split_on_free. Qed.

Lemma Forall_filter (A : Type) (P : A -> Prop) f (l : list A) :
  Forall P l -> Forall P (filter f l).
Proof.
  intro H. apply Forall_forall. intros x Hx. apply filter_In in Hx.
  rewrite Forall_forall in H. apply H, Hx.
Qed.

Lemma Forall_tl (A : Type) (P : A -> Prop) (l : list A) :
  Forall P l -> Forall P (tl l).
Proof. intro H. destruct l; [exact H|]. inversion H; assumption. Qed.

Lemma lpstat_printers_spec output :
  Forall (fun p => status p = Some "available"
                   /\ exists n, name p = Some n
                                /\ free_of NEWLINE n = true
                                /\ free_of " " n = true)
         (lpstat_printers output).
Proof.
  unfold lpstat_printers. apply Forall_forall. intros p Hin.
  apply in_map_iff in Hin. destruct Hin as [l [<- Hl]].
  apply filter_In in Hl. destruct Hl as [Hl _].
  pose proof (lines_free output) as Hfree. rewrite Forall_forall in Hfree.
  specialize (Hfree l Hl).
  destruct (split_on_cons " " l) as [first [rest E]].
  cbn [name status]. rewrite E. cbn [nth_error].
  split; [reflexivity|]. exists first. split; [reflexivity|].
  pose proof (all_chars_split _ " " l Hfree) as H1.
  pose proof (split_on_free " " l) as H2.
  rewrite E in H1, H2. inversion H1; inversion H2; subst. auto.
Qed.

(** X20.  [listLocalPrinters] never rejects: when the command fails it
    resolves with the empty list.  Every entry it lists has a name without
    a line break; on win32 the name is not empty, carries no white space at
    either end and no comma; elsewhere the name has no blank in it and the
    status is [available]. *)
Theorem printer_list_never_fails platform r :
  let res := listLocalPrinters platform r in
  exists l,
    fst res = Resolved l
    /\ (forall message,
          hd (Breaks "spawn ENOENT") (replies r) = Breaks message -> l = [])
    /\ Forall (fun p =>
                 exists n,
                   name p = Some n
                   /\ free_of NEWLINE n = true
                   /\ match platform with
                      | Win32 => n <> "" /\ trim n = n /\ free_of "," n = true
                      | _ => free_of " " n = true /\ status p = Some "available"
                      end) l.
Proof.
  cbv zeta. unfold listLocalPrinters, rescue, execSync, and_then.
  destruct platform;
    match goal with |- context [exec_async (Spool ?l) r] =>
      destruct (execAsync_spool l r) as [r' [_ [_ [_ E]]]]; rewrite E end;
    destruct (hd (Breaks "spawn ENOENT") (replies r)) as [out|m];
    unfold finish; cbn [fst];
    (eexists; split; [reflexivity|]); (split; [try discriminate; auto|]);
    try (constructor).
  - pose proof (wmic_entries_spec
                  (tl (filter (includes ",") (split_on NEWLINE out)))
                  (Forall_tl _ _ _ (Forall_filter _ _ _ _ (lines_free out)))) as H.
    unfold wmic_printers. cbv zeta.
    eapply Forall_impl; [|exact H].
    intros p [n [H1 [H2 [H3 [H4 H5]]]]]. exists n. auto.
  - eapply Forall_impl; [|exact (lpstat_printers_spec out)].
    intros p [H1 [n [H2 [H3 H4]]]]. exists n. auto.
  - eapply Forall_impl; [|exact (lpstat_printers_spec out)].
    intros p [H1 [n [H2 [H3 H4]]]]. exists n. auto.
Qed.

(** X21.  On win32 the first line of the output that holds a comma is
    taken for the header and never listed: with a header line in front, the
    list is made of the comma lines after it, and an output of one line
    only gives the empty list, also when that line names a printer. *)
Theorem wmic_first_row_is_skipped header :
  free_of NEWLINE header = true ->
  (includes "," header = true ->
   forall body,
     wmic_printers (header ++ String NEWLINE body)
     = wmic_entries (filter (includes ",") (split_on NEWLINE body)))
  /\ wmic_printers header = [].
Proof.
  intro Hfree. split.
  - intros Hcomma body. unfold wmic_printers. cbv zeta.
    rewrite (split_on_app NEWLINE header body Hfree).
    cbn [filter]. rewrite Hcomma. reflexivity.
  - unfold wmic_printers. cbv zeta. rewrite (split_on_whole NEWLINE header Hfree).
    cbn [filter]. destruct (includes "," header); reflexivity.
Qed.

Lemma wmic_first_row_is_skipped_witness :
  wmic_printers ("Node,Name,Status" ++ String NEWLINE "PC,HP LaserJet ,OK")
  = [mkEntry (Some "HP LaserJet") (Some "OK")]
  /\ wmic_printers "PC,HP LaserJet,OK" = [].
Proof.
  destruct (wmic_first_row_is_skipped "PC,HP LaserJet,OK" eq_refl) as [_ H2].
  destruct (wmic_first_row_is_skipped "Node,Name,Status" eq_refl) as [H1 _].
  split; [|exact H2].
  rewrite (H1 eq_refl "PC,HP LaserJet ,OK"). reflexivity.
Defined.

End PrinterList.
